(** * BatGizmo logger firmware: acquisition, trigger and buffer ring

    A shallow embedding of the data path of the firmware
    ([Core/Src/data_acquisition.c], [Core/Src/trigger.c], [Core/Src/gain.c]
    and the newer [data_processor_buffers.c] with gated recording), and the
    properties of the design document proved or refuted on it.

    C integers are modelled in [Z]; every place where the C code computes in
    a fixed width carries the corresponding wrap-around.  The two [float]
    settings the buffer ring multiplies with are modelled as exact rationals
    ([Q]); binary32 rounding is not modelled. *)

From Stdlib Require Import ZArith List Bool Lia QArith Qround Ascii.
From stdpp Require Import base tactics list gmap.
Import ListNotations.

Local Open Scope Z_scope.

(** * Part I: the embedding *)

(** ** Machine integers *)

Module Int.

Definition to_unsigned (w x : Z) : Z := x mod 2 ^ w.
Definition to_signed (w x : Z) : Z := (x + 2 ^ (w - 1)) mod 2 ^ w - 2 ^ (w - 1).

Definition to_uint16 := to_unsigned 16.
Definition to_int16 := to_signed 16.
Definition to_uint32 := to_unsigned 32.
Definition to_int32 := to_signed 32.

Definition INT32_MAX : Z := 2147483647.
Definition INT32_MIN : Z := -2147483648.

(** Conversion of a [float] to an integer type truncates toward zero. *)
Definition float_to_int (q : Q) : Z := Z.quot (Qnum q) (Zpos (Qden q)).

End Int.

(** ** Settings snapshot ([settings.h])

    Only the fields the core reads are kept.  [settings.h] of the newer
    firmware is not among the sources; the fields below are the ones
    [settings.c] initialises and the core dereferences. *)

Module Settings.

Definition MAX_TRIGGER_MATCH_CLAUSES : nat := 16.
Definition SETTINGS_IGNORE_TRIGGER_VALUE : Z := -1.   (* ((q31_t) -1) *)

Record settings_t := {
  min_sampling_time_s : Q;        (* float *)
  pretrigger_time_s : Q;          (* float *)
  trigger_max_count : Z;          (* int *)
  gated_recording : bool;
  _trigger_thresholds : list Z;   (* q31_t [MAX_TRIGGER_MATCH_CLAUSES] *)
  _trigger_flags : list bool      (* bool [MAX_TRIGGER_MATCH_CLAUSES] *)
}.

End Settings.

(** ** Gain controller ([gain.c]) *)

Module Gain.

(** [gain.h] is not among the sources.  The tables of [gain.c] are declared
    with [GAIN_MAX_RANGE_INDEX + 1] entries and initialised with five. *)
Definition GAIN_MAX_RANGE_INDEX : Z := 4.

Definition s_gain_values : list Z := [1; 2; 4; 8; 16].
Definition s_gain_shifts : list Z := [0; 1; 2; 3; 4].

Definition gain_for_range (range : Z) : Z := nth (Z.to_nat range) s_gain_values 0.
Definition gain_shift_for_range (range : Z) : Z := nth (Z.to_nat range) s_gain_shifts 0.

(** [s_logical_index] is the only state of the module. *)
Definition gain_get_shift (s_logical_index : Z) : Z :=
  nth (Z.to_nat s_logical_index) s_gain_shifts 0.

(** The rest of the module.  [s_logical_index] is a [uint16_t]; the command
    words handed to [HAL_SPI_Transmit_IT] are kept in [spi_sent], oldest
    first. *)
Definition s_gain_mapping : list Z := [0; 1; 2; 4; 6].
Definition s_gain_db : list Z := [0; 6; 12; 18; 24].
Definition GAIN_DB_STEPSIZE : Z := 6.
Definition SETGAIN_CMD : Z := 16384.      (* 0x4000 *)
Definition SHUTDOWN_CMD : Z := 8192.      (* 0x2000 *)

Record state := mk_state {
  s_logical_index : Z;            (* uint16_t *)
  spi_sent : list (list Z)
}.

Definition HAL_SPI_Transmit_IT (cmd_list : list Z) (st : state) : state :=
  {| s_logical_index := s_logical_index st; spi_sent := spi_sent st ++ [cmd_list] |}.

(** [set_gain].  An index outside the mapping table reads past it: the model
    stops with [None]. *)
Definition set_gain (logical_gain_index : Z) (st : state) : option state :=
  if (0 <=? logical_gain_index) && (logical_gain_index <=? GAIN_MAX_RANGE_INDEX)
  then
    let raw_gain_index := nth (Z.to_nat logical_gain_index) s_gain_mapping 0 in
    let cmd := Int.to_uint16 (Z.lor SETGAIN_CMD raw_gain_index) in
    Some (HAL_SPI_Transmit_IT [cmd; cmd] st)
  else None.

Definition gain_disable (st : state) : state :=
  HAL_SPI_Transmit_IT [SHUTDOWN_CMD; SHUTDOWN_CMD] st.

Definition gain_reenable (st : state) : option state :=
  set_gain (s_logical_index st) st.

Definition gain_init (st : state) : state :=
  {| s_logical_index := 3; spi_sent := spi_sent st |}.

Definition gain_set (gain_index : Z) (disabled : bool) (st : state) : option state :=
  let st := {| s_logical_index := Int.to_uint16 gain_index; spi_sent := spi_sent st |} in
  if disabled then Some (gain_disable st) else set_gain (s_logical_index st) st.

Definition gain_set_db (gain_db : Z) (disabled : bool) (st : state) : option state :=
  let gain_db := if gain_db <? nth 0 s_gain_db 0 then nth 0 s_gain_db 0 else gain_db in
  let gain_db :=
    if nth (Z.to_nat GAIN_MAX_RANGE_INDEX) s_gain_db 0 <? gain_db
    then nth (Z.to_nat GAIN_MAX_RANGE_INDEX) s_gain_db 0 else gain_db in
  gain_set (Z.quot (Int.to_int32 (gain_db - nth 0 s_gain_db 0)) GAIN_DB_STEPSIZE)
    disabled st.

Definition gain_get_db (st : state) : Z :=
  nth (Z.to_nat (s_logical_index st)) s_gain_db 0.

Definition gain_get_range (st : state) : Z := s_logical_index st.

Definition gain_up (st : state) : option (bool * state) :=
  if s_logical_index st <? GAIN_MAX_RANGE_INDEX then
    let st :=
      {| s_logical_index := Int.to_uint16 (s_logical_index st + 1);
         spi_sent := spi_sent st |} in
    match set_gain (s_logical_index st) st with
    | Some st' => Some (true, st')
    | None => None
    end
  else Some (false, st).

Section WithMinimum.

(** [GAIN_MIN_RANGE_INDEX] comes from [gain.h]: a parameter. *)
Variable GAIN_MIN_RANGE_INDEX : Z.

Definition gain_down (st : state) : option (bool * state) :=
  if GAIN_MIN_RANGE_INDEX <? s_logical_index st then
    let st :=
      {| s_logical_index := Int.to_uint16 (s_logical_index st - 1);
         spi_sent := spi_sent st |} in
    match set_gain (s_logical_index st) st with
    | Some st' => Some (true, st')
    | None => None
    end
  else Some (false, st).

End WithMinimum.

End Gain.

(** ** Sample acquirer ([data_acquisition.c]) *)

Module Acquisition.

Definition SCALE_DOWN_DELTA : Z := 24576.                 (* 0x6000 *)
Definition SCALE_DOWN_THRESHOLD_UPPER : Z := SCALE_DOWN_DELTA.
Definition SCALE_DOWN_THRESHOLD_LOWER : Z := - SCALE_DOWN_DELTA.
Definition ACQUISITION_OFFSET : Z := 32768.               (* 0x8000 *)
Definition ACQUISITION_LEFTSHIFT : Z := 0.

(** The file-scope variables of the module.  [g_raw_half_frame] points into
    [s_raw_buffer_q15]; it is kept as the offset from the start of that
    buffer, [None] being [NULL]. *)
Record state := mk_state {
  s_raw_buffer_q15 : list Z;          (* sample_type_t [SAMPLES_PER_FRAME] *)
  s_signal_offset_correction : Z;     (* int *)
  s_enable_capture : bool;
  s_conv_counter : Z;                 (* int *)
  g_raw_half_frame : option nat;
  g_raw_half_frame_counter : Z;       (* volatile int *)
  g_raw_half_frame_ready : bool
}.

(** [((value - (dma_buffer_type_t) offset) << leftshift)
      - s_signal_offset_correction], computed in [int] and stored in a
    [sample_type_t].  [value] is the [uint16_t] read from the DMA buffer and
    [offset] the [sample_type_t] parameter. *)
Definition scale_sample (value offset leftshift correction : Z) : Z :=
  Int.to_int16
    (Int.to_int32
       (Int.to_int32 (Z.shiftl (value - Int.to_uint16 offset) leftshift)
        - correction)).

Definition is_overload (scaled_value : Z) : bool :=
  (SCALE_DOWN_THRESHOLD_UPPER <? scaled_value)
  || (scaled_value <? SCALE_DOWN_THRESHOLD_LOWER).

(** The scaling loop of [process_half_frame]: [n] samples remain, [pSource]
    and [pDest] are the two cursors. *)
Fixpoint scale_loop (n pSource pDest : nat) (dmabuffer : list Z)
    (offset leftshift correction : Z) (raw_buffer : list Z)
    (overload_detected : bool) : list Z * bool :=
  match n with
  | O => (raw_buffer, overload_detected)
  | S n' =>
      let value := nth pSource dmabuffer 0 in
      let scaled_value := scale_sample value offset leftshift correction in
      let raw_buffer' := <[pDest := scaled_value]> raw_buffer in
      let overload_detected' :=
        if is_overload scaled_value then true else overload_detected in
      scale_loop n' (S pSource) (S pDest) dmabuffer offset leftshift correction
        raw_buffer' overload_detected'
  end.

(** The state after [data_acquisition_reset], for a frame of [n] samples. *)
Definition reset_state (n : nat) : state :=
  {| s_raw_buffer_q15 := repeat 0 n;
     s_signal_offset_correction := 0;
     s_enable_capture := false;
     s_conv_counter := 0;
     g_raw_half_frame := None;
     g_raw_half_frame_counter := 0;
     g_raw_half_frame_ready := false |}.

Section WithFrame.

(** [HALF_SAMPLES_PER_FRAME] comes from a header that is not among the
    sources; it is a parameter. *)
Variable HALF_SAMPLES_PER_FRAME : nat.

(** The registered downstream processor, acting on a state [D] of its own. *)
Context {D : Type}.
Variable s_data_processor : option (list Z -> nat -> D -> D).

(** [process_half_frame]; the boolean of the result is the request to blink
    the red LED ([leds_single_blink (LED_RED, 1)]). *)
Definition process_half_frame (is_first_half : bool) (dmabuffer : list Z)
    (offset leftshift : Z) (s : state) (d : D) : state * bool * D :=
  let buffer_offset := if is_first_half then O else HALF_SAMPLES_PER_FRAME in
  let '(raw_buffer, overload_detected) :=
    scale_loop HALF_SAMPLES_PER_FRAME buffer_offset buffer_offset dmabuffer
      offset leftshift (s_signal_offset_correction s) (s_raw_buffer_q15 s) false in
  let s' :=
    {| s_raw_buffer_q15 := raw_buffer;
       s_signal_offset_correction := s_signal_offset_correction s;
       s_enable_capture := s_enable_capture s;
       s_conv_counter := s_conv_counter s;
       g_raw_half_frame := Some buffer_offset;
       g_raw_half_frame_counter := Int.to_int32 (g_raw_half_frame_counter s + 1);
       g_raw_half_frame_ready := true |} in
  let d' :=
    match s_data_processor with
    | Some processor => processor raw_buffer buffer_offset d
    | None => d
    end in
  (s', overload_detected, d').

(** The two DMA interrupt handlers (only [hadc1] exists). *)
Definition HAL_ADC_ConvHalfCpltCallback (g_dmabuffer1 : list Z) (s : state) (d : D)
    : state * bool * D :=
  if s_enable_capture s
  then process_half_frame true g_dmabuffer1 (Int.to_int16 ACQUISITION_OFFSET)
         ACQUISITION_LEFTSHIFT s d
  else (s, false, d).

Definition HAL_ADC_ConvCpltCallback (g_dmabuffer1 : list Z) (s : state) (d : D)
    : state * bool * D :=
  let '(s1, blink, d1) :=
    if s_enable_capture s
    then process_half_frame false g_dmabuffer1 (Int.to_int16 ACQUISITION_OFFSET)
           ACQUISITION_LEFTSHIFT s d
    else (s, false, d) in
  ({| s_raw_buffer_q15 := s_raw_buffer_q15 s1;
      s_signal_offset_correction := s_signal_offset_correction s1;
      s_enable_capture := s_enable_capture s1;
      s_conv_counter := Int.to_int32 (s_conv_counter s1 + 1);
      g_raw_half_frame := g_raw_half_frame s1;
      g_raw_half_frame_counter := g_raw_half_frame_counter s1;
      g_raw_half_frame_ready := g_raw_half_frame_ready s1 |}, blink, d1).

End WithFrame.

End Acquisition.

(** ** Spectral trigger detector ([trigger.c]) *)

Module Trigger.
Import Settings.

Definition FFT_WINDOW_SIZE_LOG2 : Z := 5.
Definition FFT_WINDOW_SIZE : nat := 32.     (* 1 << FFT_WINDOW_SIZE_LOG2 *)

(** The threshold of one bucket as adjusted for the active gain range:
    [( *pv >> shift_for_gain) >> shift_for_gain]. *)
Definition adjust_threshold (pv shift_for_gain : Z) : Z :=
  Z.shiftr (Z.shiftr pv shift_for_gain) shift_for_gain.

(** The [for] loop of [check_for_trigger], run for the [n] buckets from
    index [i] on.  [matches] is the optional output vector ([NULL] is
    [None]). *)
Fixpoint check_loop (n i : nat) (freq_buckets pv : list Z) (pf : list bool)
    (shift_for_gain : Z) (match_count : Z) (matches : option (list bool))
    : Z * option (list bool) :=
  match n with
  | O => (match_count, matches)
  | S n' =>
      if negb (nth i pf false) || (nth i pv 0 =? SETTINGS_IGNORE_TRIGGER_VALUE)
      then check_loop n' (S i) freq_buckets pv pf shift_for_gain match_count matches
      else
        let threshold := adjust_threshold (nth i pv 0) shift_for_gain in
        let matched := threshold <=? nth i freq_buckets 0 in
        let match_count' :=
          if matched then Int.to_int32 (match_count + 1) else match_count in
        let matches' := (fun m => <[i := matched]> m) <$> matches in
        check_loop n' (S i) freq_buckets pv pf shift_for_gain match_count' matches'
  end.

(** [check_for_trigger]; [s_logical_index] is the state of the gain module. *)
Definition check_for_trigger (ps : settings_t) (s_logical_index : Z)
    (freq_buckets : list Z) (matches : option (list bool))
    : bool * option (list bool) :=
  let shift := Gain.gain_get_shift s_logical_index in
  let shift_for_gain :=
    Int.to_int32 (Gain.gain_shift_for_range Gain.GAIN_MAX_RANGE_INDEX - shift) in
  let '(match_count, matches') :=
    check_loop MAX_TRIGGER_MATCH_CLAUSES 0 freq_buckets
      (_trigger_thresholds ps) (_trigger_flags ps) shift_for_gain 0 matches in
  ((0 <? match_count) && (match_count <=? trigger_max_count ps), matches').

(** The variables of [trigger.c] shared with the buffer ring. *)
Record globals := mk_globals {
  g_trigger_triggered : bool;        (* volatile bool *)
  g_trigger_matches : list bool;     (* volatile bool [MAX_TRIGGER_MATCH_CLAUSES] *)
  s_counter : Z                      (* volatile int *)
}.

(** A half-frame interrupt, with the contents of the DMA buffer it finds. *)
Inductive irq :=
| HalfCplt (g_dmabuffer1 : list Z)
| Cplt (g_dmabuffer1 : list Z).

Section WithFrame.

Variable HALF_SAMPLES_PER_FRAME : nat.
Context {D : Type}.
Variable s_data_processor : option (list Z -> nat -> D -> D).

(** The CMSIS-DSP pipeline applied to one window (Hann window, real FFT,
    rescaling, squared magnitude) is external: it maps the [FFT_WINDOW_SIZE]
    samples of a window to the powers of the frequency buckets. *)
Variable fft_squared_modulus : list Z -> list Z.

Variable ps : settings_t.
Variable s_logical_index : Z.

(** The loop of [check_each_window]; [pRawData] is the memory from the
    half-frame pointer on, [pFftSrc] the cursor into it. *)
Fixpoint window_loop (n pFftSrc increment : nat) (pRawData : list Z)
    (triggered : bool) : bool :=
  match n with
  | O => triggered
  | S n' =>
      let working_copy := take FFT_WINDOW_SIZE (drop pFftSrc pRawData) in
      let triggered' :=
        triggered
        || fst (check_for_trigger ps s_logical_index
                  (fft_squared_modulus working_copy) None) in
      window_loop n' (pFftSrc + increment)%nat increment pRawData triggered'
  end.

Definition check_each_window (pRawData : list Z) : bool :=
  let windows_to_check_log2 := 1%nat in
  let windows_to_check := Nat.shiftl 1 windows_to_check_log2 in
  let increment := Nat.shiftr HALF_SAMPLES_PER_FRAME windows_to_check_log2 in
  window_loop windows_to_check 0 increment pRawData false.

Definition run_irq (sd : Acquisition.state * D) (e : irq) : Acquisition.state * D :=
  match e with
  | HalfCplt buf =>
      let '(s, _, d) :=
        Acquisition.HAL_ADC_ConvHalfCpltCallback HALF_SAMPLES_PER_FRAME
          s_data_processor buf (fst sd) (snd sd) in (s, d)
  | Cplt buf =>
      let '(s, _, d) :=
        Acquisition.HAL_ADC_ConvCpltCallback HALF_SAMPLES_PER_FRAME
          s_data_processor buf (fst sd) (snd sd) in (s, d)
  end.

Definition run_irqs (l : list irq) (sd : Acquisition.state * D) : Acquisition.state * D :=
  fold_left run_irq l sd.

Definition set_ready (b : bool) (s : Acquisition.state) : Acquisition.state :=
  {| Acquisition.s_raw_buffer_q15 := Acquisition.s_raw_buffer_q15 s;
     Acquisition.s_signal_offset_correction := Acquisition.s_signal_offset_correction s;
     Acquisition.s_enable_capture := Acquisition.s_enable_capture s;
     Acquisition.s_conv_counter := Acquisition.s_conv_counter s;
     Acquisition.g_raw_half_frame := Acquisition.g_raw_half_frame s;
     Acquisition.g_raw_half_frame_counter := Acquisition.g_raw_half_frame_counter s;
     Acquisition.g_raw_half_frame_ready := b |}.

(** The memory [check_each_window] is handed: the buffer from the published
    pointer on. *)
Definition half_frame_memory (s : Acquisition.state) : list Z :=
  match Acquisition.g_raw_half_frame s with
  | Some off => drop off (Acquisition.s_raw_buffer_q15 s)
  | None => []
  end.

(** [trigger_main_fast_processing], running in the main loop while the
    half-frame interrupts preempt it.  [irq_before] are the interrupts taken
    between clearing the ready flag and the first read of the counter,
    [irq_during] those taken between the two reads of the counter.  When an
    interrupt rewrites the buffer during the evaluation, what the evaluation
    reads is a mixture of generations: [torn] stands for it. *)
Definition trigger_main_fast_processing (irq_before irq_during : list irq)
    (torn : list Z) (w : Acquisition.state * D * globals)
    : Acquisition.state * D * globals :=
  let '(s, d, g) := w in
  if Acquisition.g_raw_half_frame_ready s then
    let '(s1, d1) := run_irqs irq_before (set_ready false s, d) in
    let count1 := Acquisition.g_raw_half_frame_counter s1 in
    let '(s2, d2) := run_irqs irq_during (s1, d1) in
    let seen := match irq_during with [] => half_frame_memory s1 | _ => torn end in
    let triggered := check_each_window seen in
    if triggered then
      if Acquisition.g_raw_half_frame_counter s2 =? count1 then
        (s2, d2, {| g_trigger_triggered := true;
                    g_trigger_matches := g_trigger_matches g;
                    s_counter := Int.to_int32 (s_counter g + 1) |})
      else (s2, d2, g)
    else (s2, d2, g)
  else w.

End WithFrame.

(** *** The number of matching buckets, as the design states it *)

Definition shift_for_gain_of (s_logical_index : Z) : Z :=
  Gain.gain_shift_for_range Gain.GAIN_MAX_RANGE_INDEX
  - Gain.gain_get_shift s_logical_index.

(** Bucket [i] matches: its enable flag is set, its threshold is not the
    ignore value, and its power reaches the gain-adjusted threshold. *)
Definition bucket_matches (ps : settings_t) (s_logical_index : Z)
    (freq_buckets : list Z) (i : nat) : bool :=
  nth i (_trigger_flags ps) false
  && negb (nth i (_trigger_thresholds ps) 0 =? SETTINGS_IGNORE_TRIGGER_VALUE)
  && (adjust_threshold (nth i (_trigger_thresholds ps) 0)
        (shift_for_gain_of s_logical_index) <=? nth i freq_buckets 0).

Definition match_count_of (ps : settings_t) (s_logical_index : Z)
    (freq_buckets : list Z) : Z :=
  Z.of_nat (length (List.filter (bucket_matches ps s_logical_index freq_buckets)
                      (seq 0 MAX_TRIGGER_MATCH_CLAUSES))).

(** *** Raising the gain range by one step

    One step up doubles the amplitude of a fixed physical signal, hence
    multiplies every bucket power by four. *)

Definition raise_powers (freq_buckets : list Z) : list Z :=
  map (fun power => 4 * power) freq_buckets.

(** The settings with every configured threshold halved. *)
Definition halve_thresholds (ps : settings_t) : settings_t :=
  {| min_sampling_time_s := min_sampling_time_s ps;
     pretrigger_time_s := pretrigger_time_s ps;
     trigger_max_count := trigger_max_count ps;
     gated_recording := gated_recording ps;
     _trigger_thresholds := map (fun pv => Z.shiftr pv 1) (_trigger_thresholds ps);
     _trigger_flags := _trigger_flags ps |}.

(** Every enabled bucket with a finite threshold has, at the range one step
    above [s_logical_index], an adjusted threshold that is a multiple of
    four: the two further bits the shift drops at [s_logical_index] are
    zero. *)
Definition step_is_exact (ps : settings_t) (s_logical_index : Z) : bool :=
  forallb
    (fun i =>
       negb (nth i (_trigger_flags ps) false)
       || (nth i (_trigger_thresholds ps) 0 =? SETTINGS_IGNORE_TRIGGER_VALUE)
       || (adjust_threshold (nth i (_trigger_thresholds ps) 0)
             (shift_for_gain_of (s_logical_index + 1)) mod 4 =? 0))
    (seq 0 MAX_TRIGGER_MATCH_CLAUSES).

(** A profile that enables bucket 0 only, with the given threshold. *)
Definition single_bucket_profile (threshold : Z) : settings_t :=
  {| min_sampling_time_s := 2;
     pretrigger_time_s := 0.5;
     trigger_max_count := 16;
     gated_recording := false;
     _trigger_thresholds :=
       threshold :: repeat SETTINGS_IGNORE_TRIGGER_VALUE 15;
     _trigger_flags := true :: repeat false 15 |}.

End Trigger.

(** ** Buffer ring and sequencer (the newer [data_processor_buffers.c]) *)

Module Buffers.
Import Settings.

Definition NUM_BUFFERS : Z := 37.
Definition BUFFER_DELTA : Z := 2.
Definition MAXIMUM_READ_LEAD : Z := 12.
Definition DATA_BUFFER_ENTRIES : Z := 32768.   (* (32768 * 2) / sizeof (sample_type_t) *)
Definition BUFFER_FIFO_LENGTH : Z := NUM_BUFFERS * 5.

(** The two control tokens, as the [int32_t] FIFO holds them. *)
Definition BUFFERFIFO_END_SEQUENCE : Z := -1.     (* (uint32_t) -1 *)
Definition BUFFERFIFO_START_SEQUENCE : Z := -2.   (* (uint32_t) -2 *)

Inductive data_processor_mode_t :=
| DATA_PROCESSOR_TRIGGERED
| DATA_PROCESSOR_CONTINUOUS.

(** The file-scope variables.  [s_buffers] is the sample memory, addressed
    by the flat element index [slot * DATA_BUFFER_ENTRIES + entry] (a key
    that is absent reads as the zero of [.bss]); pointers into it are such
    indices.  [s_is_new_sequence] is the [static] local of
    [dataprocessor_buffers_get_next]. *)
Record state := mk_state {
  s_buffers : gmap Z Z;
  s_active_buffer_index : Z;                  (* int *)
  s_active_buffer_ptr : Z;                    (* sample_type_t * *)
  s_active_buffer_entry_count : Z;            (* int *)
  s_unwrapped_filled_buffer_counter : Z;      (* int32_t *)
  s_buffer_fifo : list Z;                     (* int32_t [BUFFER_FIFO_LENGTH] *)
  s_buffer_fifo_next_read : Z;                (* size_t *)
  s_buffer_fifo_next_write : Z;               (* size_t *)
  s_buffer_fifo_count : Z;                    (* size_t *)
  s_is_triggered : bool;
  s_trigger_unwrapped_buffer_count : Z;       (* int32_t *)
  s_final_unwrapped_buffer_for_trigger : Z;   (* int32_t *)
  s_mode : data_processor_mode_t;
  s_is_gated : bool;
  s_gate_released_ticks : Z;                  (* int *)
  s_trigger_count : Z;                        (* int *)
  s_buffers_per_second : Z;                   (* int *)
  s_is_new_sequence : bool
}.

(** Assignments to single variables or to groups the code assigns together. *)

Definition set_ring (mem : gmap Z Z) (index ptr entry_count : Z) (s : state) : state :=
  mk_state mem index ptr entry_count
    (s_unwrapped_filled_buffer_counter s) (s_buffer_fifo s)
    (s_buffer_fifo_next_read s) (s_buffer_fifo_next_write s) (s_buffer_fifo_count s)
    (s_is_triggered s) (s_trigger_unwrapped_buffer_count s)
    (s_final_unwrapped_buffer_for_trigger s) (s_mode s) (s_is_gated s)
    (s_gate_released_ticks s) (s_trigger_count s) (s_buffers_per_second s)
    (s_is_new_sequence s).

Definition set_unwrapped_filled_buffer_counter (n : Z) (s : state) : state :=
  mk_state (s_buffers s) (s_active_buffer_index s) (s_active_buffer_ptr s)
    (s_active_buffer_entry_count s) n (s_buffer_fifo s)
    (s_buffer_fifo_next_read s) (s_buffer_fifo_next_write s) (s_buffer_fifo_count s)
    (s_is_triggered s) (s_trigger_unwrapped_buffer_count s)
    (s_final_unwrapped_buffer_for_trigger s) (s_mode s) (s_is_gated s)
    (s_gate_released_ticks s) (s_trigger_count s) (s_buffers_per_second s)
    (s_is_new_sequence s).

Definition set_fifo (fifo : list Z) (next_read next_write count : Z) (s : state) : state :=
  mk_state (s_buffers s) (s_active_buffer_index s) (s_active_buffer_ptr s)
    (s_active_buffer_entry_count s) (s_unwrapped_filled_buffer_counter s)
    fifo next_read next_write count
    (s_is_triggered s) (s_trigger_unwrapped_buffer_count s)
    (s_final_unwrapped_buffer_for_trigger s) (s_mode s) (s_is_gated s)
    (s_gate_released_ticks s) (s_trigger_count s) (s_buffers_per_second s)
    (s_is_new_sequence s).

Definition set_trigger (is_triggered : bool) (trigger_count final : Z) (s : state) : state :=
  mk_state (s_buffers s) (s_active_buffer_index s) (s_active_buffer_ptr s)
    (s_active_buffer_entry_count s) (s_unwrapped_filled_buffer_counter s)
    (s_buffer_fifo s)
    (s_buffer_fifo_next_read s) (s_buffer_fifo_next_write s) (s_buffer_fifo_count s)
    is_triggered trigger_count final (s_mode s) (s_is_gated s)
    (s_gate_released_ticks s) (s_trigger_count s) (s_buffers_per_second s)
    (s_is_new_sequence s).

Definition set_is_triggered (b : bool) (s : state) : state :=
  set_trigger b (s_trigger_unwrapped_buffer_count s)
    (s_final_unwrapped_buffer_for_trigger s) s.

Definition set_final_unwrapped_buffer_for_trigger (n : Z) (s : state) : state :=
  set_trigger (s_is_triggered s) (s_trigger_unwrapped_buffer_count s) n s.

Definition set_gate (is_gated : bool) (released_ticks : Z) (s : state) : state :=
  mk_state (s_buffers s) (s_active_buffer_index s) (s_active_buffer_ptr s)
    (s_active_buffer_entry_count s) (s_unwrapped_filled_buffer_counter s)
    (s_buffer_fifo s)
    (s_buffer_fifo_next_read s) (s_buffer_fifo_next_write s) (s_buffer_fifo_count s)
    (s_is_triggered s) (s_trigger_unwrapped_buffer_count s)
    (s_final_unwrapped_buffer_for_trigger s) (s_mode s) is_gated
    released_ticks (s_trigger_count s) (s_buffers_per_second s)
    (s_is_new_sequence s).

Definition set_is_gated (b : bool) (s : state) : state :=
  set_gate b (s_gate_released_ticks s) s.

Definition set_trigger_count (n : Z) (s : state) : state :=
  mk_state (s_buffers s) (s_active_buffer_index s) (s_active_buffer_ptr s)
    (s_active_buffer_entry_count s) (s_unwrapped_filled_buffer_counter s)
    (s_buffer_fifo s)
    (s_buffer_fifo_next_read s) (s_buffer_fifo_next_write s) (s_buffer_fifo_count s)
    (s_is_triggered s) (s_trigger_unwrapped_buffer_count s)
    (s_final_unwrapped_buffer_for_trigger s) (s_mode s) (s_is_gated s)
    (s_gate_released_ticks s) n (s_buffers_per_second s)
    (s_is_new_sequence s).

Definition set_is_new_sequence (b : bool) (s : state) : state :=
  mk_state (s_buffers s) (s_active_buffer_index s) (s_active_buffer_ptr s)
    (s_active_buffer_entry_count s) (s_unwrapped_filled_buffer_counter s)
    (s_buffer_fifo s)
    (s_buffer_fifo_next_read s) (s_buffer_fifo_next_write s) (s_buffer_fifo_count s)
    (s_is_triggered s) (s_trigger_unwrapped_buffer_count s)
    (s_final_unwrapped_buffer_for_trigger s) (s_mode s) (s_is_gated s)
    (s_gate_released_ticks s) (s_trigger_count s) (s_buffers_per_second s) b.

(** The variables as their initialisers leave them at start-up. *)
Definition initial_state : state :=
  mk_state ∅ 0 0 0 0 (replicate (Z.to_nat BUFFER_FIFO_LENGTH) 0) 0 0 0
    false 0 0 DATA_PROCESSOR_TRIGGERED false 0 0 0 false.

(** [data_processor_buffers_reset].  [samples_per_second / DATA_BUFFER_ENTRIES]
    divides in [size_t]. *)
Definition data_processor_buffers_reset (mode : data_processor_mode_t)
    (samples_per_second : Z) (s : state) : state :=
  mk_state (s_buffers s) 0 0 0 0 (s_buffer_fifo s) 0 0 0 false 0 0 mode false 0
    (s_trigger_count s)
    (Int.to_int32 (Int.to_uint32 samples_per_second / DATA_BUFFER_ENTRIES))
    (s_is_new_sequence s).

Definition data_processor_buffers_init (s : state) : state :=
  data_processor_buffers_reset DATA_PROCESSOR_TRIGGERED 0 s.

Definition add_and_wrap (i delta modulo : Z) : Z :=
  let i := Int.to_int32 (i + delta) in
  if modulo <=? i then Int.to_int32 (i - modulo) else i.

(** [buffer_fifo_put].  The array store is at [s_buffer_fifo_next_write],
    which the module keeps below [BUFFER_FIFO_LENGTH]; the occupancy count
    is incremented without any check against the capacity. *)
Definition buffer_fifo_put (unwrapped_buffer_index : Z) (s : state) : state :=
  set_fifo
    (<[Z.to_nat (s_buffer_fifo_next_write s) := unwrapped_buffer_index]> (s_buffer_fifo s))
    (s_buffer_fifo_next_read s)
    (Int.to_uint32
       (add_and_wrap (Int.to_int32 (s_buffer_fifo_next_write s)) 1 BUFFER_FIFO_LENGTH))
    (Int.to_uint32 (s_buffer_fifo_count s + 1))
    s.

(** [buffer_fifo_sniff]: the token at the head, if any. *)
Definition buffer_fifo_sniff (s : state) : option Z :=
  if 0 <? s_buffer_fifo_count s
  then Some (nth (Z.to_nat (s_buffer_fifo_next_read s)) (s_buffer_fifo s) 0)
  else None.

(** [buffer_fifo_get]: the token at the head, consumed. *)
Definition buffer_fifo_get (s : state) : option Z * state :=
  if 0 <? s_buffer_fifo_count s
  then (Some (nth (Z.to_nat (s_buffer_fifo_next_read s)) (s_buffer_fifo s) 0),
        set_fifo (s_buffer_fifo s)
          (Int.to_uint32
             (add_and_wrap (Int.to_int32 (s_buffer_fifo_next_read s)) 1 BUFFER_FIFO_LENGTH))
          (s_buffer_fifo_next_write s)
          (Int.to_uint32 (s_buffer_fifo_count s - 1))
          s)
  else (None, s).

(** A store into [s_buffers].  Outside the array the C program has no
    defined behaviour: the model stops with [None]. *)
Definition store (address value : Z) (mem : gmap Z Z) : option (gmap Z Z) :=
  if (0 <=? address) && (address <? NUM_BUFFERS * DATA_BUFFER_ENTRIES)
  then Some (<[address := value]> mem)
  else None.

(** The copy loop [for (i = 0; i < samples_to_copy; i++) *pTargetDest++ =
    *pSource_q15++], for [n] iterations.  The source pointer is the list of
    the samples from it on (past the end of the list a read gives 0); the
    loop returns the memory and the advanced source pointer. *)
Fixpoint copy_samples (n : nat) (pSource_q15 : list Z) (pTargetDest : Z)
    (mem : gmap Z Z) : option (gmap Z Z * list Z) :=
  match n with
  | O => Some (mem, pSource_q15)
  | S n' =>
      match store pTargetDest (hd 0 pSource_q15) mem with
      | Some mem' => copy_samples n' (tl pSource_q15) (pTargetDest + 1) mem'
      | None => None
      end
  end.

(** What [data_processor_buffers] does with the buffer that has just been
    filled, according to the mode: the [if (s_mode == ...)] statement. *)
Definition enqueue_filled_buffer (gated_recording : bool) (s : state) : state :=
  match s_mode s with
  | DATA_PROCESSOR_TRIGGERED =>
      if s_is_triggered s then
        if gated_recording then
          if s_final_unwrapped_buffer_for_trigger s <? s_unwrapped_filled_buffer_counter s
          then set_is_gated true
                 (buffer_fifo_put BUFFERFIFO_END_SEQUENCE (set_is_triggered false s))
          else if NUM_BUFFERS + 1 <=? s_buffer_fifo_count s
          then set_is_gated true (buffer_fifo_put BUFFERFIFO_END_SEQUENCE s)
          else buffer_fifo_put (s_unwrapped_filled_buffer_counter s) s
        else
          if s_final_unwrapped_buffer_for_trigger s <? s_unwrapped_filled_buffer_counter s
          then buffer_fifo_put BUFFERFIFO_END_SEQUENCE (set_is_triggered false s)
          else buffer_fifo_put (s_unwrapped_filled_buffer_counter s) s
      else s
  | DATA_PROCESSOR_CONTINUOUS =>
      let s := buffer_fifo_put (s_unwrapped_filled_buffer_counter s) s in
      if gated_recording then
        if NUM_BUFFERS + 1 <=? s_buffer_fifo_count s
        then set_is_gated true (buffer_fifo_put BUFFERFIFO_END_SEQUENCE s)
        else s
      else s
  end.

(** The sequencing of one filled buffer: enqueue, then count it. *)
Definition sequence_filled_buffer (gated_recording : bool) (s : state) : state :=
  let s := enqueue_filled_buffer gated_recording s in
  set_unwrapped_filled_buffer_counter
    (Int.to_int32 (s_unwrapped_filled_buffer_counter s + 1)) s.

(** The slot that follows the active one. *)
Definition next_buffer_index (s : state) : Z :=
  let index := Int.to_int32 (s_active_buffer_index s + 1) in
  if NUM_BUFFERS <=? index then 0 else index.

(** The block of [data_processor_buffers] run when the active buffer is full:
    switch to the next buffer, then sequence the filled one. *)
Definition switch_buffer (gated_recording : bool) (s : state) : state :=
  let index := next_buffer_index s in
  let s := set_ring (s_buffers s) index (index * DATA_BUFFER_ENTRIES) 0 s in
  sequence_filled_buffer gated_recording s.

(** [data_processor_buffers]: the sample-append operation, called from the
    half-frame interrupt.  [DATA_BUFFER_ENTRIES] has type [size_t], so the
    subtraction for [free_entries] and the fill test are unsigned. *)
Definition data_processor_buffers (ps : settings_t) (pDMABuffer : list Z)
    (dma_buffer_offset count : Z) (s : state) : option state :=
  if gated_recording ps && s_is_gated s then Some s
  else
    let samples_remaining := count in
    let free_entries :=
      Int.to_int32 (DATA_BUFFER_ENTRIES - s_active_buffer_entry_count s) in
    let samples_to_copy :=
      if free_entries <? samples_remaining then free_entries else samples_remaining in
    let pTargetDest := s_active_buffer_ptr s + s_active_buffer_entry_count s in
    let pSource_q15 := drop (Z.to_nat dma_buffer_offset) pDMABuffer in
    match copy_samples (Z.to_nat samples_to_copy) pSource_q15 pTargetDest
            (s_buffers s) with
    | None => None
    | Some (mem, pSource_q15) =>
        let s :=
          set_ring mem (s_active_buffer_index s) (s_active_buffer_ptr s)
            (Int.to_int32 (s_active_buffer_entry_count s + samples_to_copy)) s in
        let samples_remaining := Int.to_int32 (samples_remaining - samples_to_copy) in
        let s :=
          if DATA_BUFFER_ENTRIES <=? Int.to_uint32 (s_active_buffer_entry_count s)
          then switch_buffer (gated_recording ps) s
          else s in
        if 0 <? samples_remaining then
          let samples_to_copy := samples_remaining in
          let pTargetDest := s_active_buffer_ptr s + s_active_buffer_entry_count s in
          match copy_samples (Z.to_nat samples_to_copy) pSource_q15 pTargetDest
                  (s_buffers s) with
          | None => None
          | Some (mem, _) =>
              Some (set_ring mem (s_active_buffer_index s) (s_active_buffer_ptr s)
                      (Int.to_int32 (s_active_buffer_entry_count s + samples_to_copy)) s)
          end
        else Some s
    end.

(** [fill + s_buffers_per_second * min_sampling_time_s], the sum a [float]. *)
Definition minimum_final (ps : settings_t) (s : state) : Q :=
  (inject_Z (s_unwrapped_filled_buffer_counter s)
   + inject_Z (s_buffers_per_second s) * min_sampling_time_s ps)%Q.

(** [data_processor_buffers_on_recording_complete]. *)
Definition data_processor_buffers_on_recording_complete (ps : settings_t)
    (main_tick_count : Z) (s : state) : state :=
  let s := set_gate false main_tick_count s in
  match s_mode s with
  | DATA_PROCESSOR_CONTINUOUS => buffer_fifo_put BUFFERFIFO_START_SEQUENCE s
  | DATA_PROCESSOR_TRIGGERED =>
      let minimum := Int.to_int32 (Int.float_to_int (minimum_final ps s)) in
      let s :=
        if s_final_unwrapped_buffer_for_trigger s <? minimum
        then set_final_unwrapped_buffer_for_trigger minimum s
        else s in
      buffer_fifo_put BUFFERFIFO_START_SEQUENCE s
  end.

(** What one turn of the [while] loop of [dataprocessor_buffers_get_next]
    does: go round again, or return ([*pBuffer] as the index of the slot
    handed out, and the "close the file" result). *)
Inductive turn :=
| Continue
| Return (pBuffer : option Z) (close_file : bool).

(** The slot index computed for a token. *)
Definition read_buffer_index_of (unwrapped_buffer_index : Z) (s : state) : Z :=
  let read_buffer_index :=
    Int.to_int32
      (Int.to_int32 (unwrapped_buffer_index - s_unwrapped_filled_buffer_counter s)
       + Int.to_int32 (s_active_buffer_index s - 1)) in
  let read_buffer_index :=
    if read_buffer_index <? 0
    then Int.to_int32 (read_buffer_index + NUM_BUFFERS) else read_buffer_index in
  if NUM_BUFFERS <=? read_buffer_index
  then Int.to_int32 (read_buffer_index - NUM_BUFFERS) else read_buffer_index.

(** The distance by which reading leads writing ([uint32_t]). *)
Definition lead_of (read_buffer_index : Z) (s : state) : Z :=
  let write_buffer_index := Int.to_uint32 (s_active_buffer_index s) in
  if write_buffer_index <? Int.to_uint32 read_buffer_index
  then Int.to_uint32 (Int.to_uint32 read_buffer_index - write_buffer_index)
  else Int.to_uint32
         (Int.to_uint32 (Int.to_uint32 read_buffer_index + NUM_BUFFERS)
          - write_buffer_index).

(** The expiry bound [s_unwrapped_filled_buffer_counter - NUM_BUFFERS + 1]. *)
Definition oldest_retained (s : state) : Z :=
  Int.to_int32 (Int.to_int32 (s_unwrapped_filled_buffer_counter s - NUM_BUFFERS) + 1).

Definition get_next_turn (gated_recording : bool) (s : state) : state * turn :=
  match buffer_fifo_sniff s with
  | None => (s, Return None false)          (* the loop condition fails *)
  | Some unwrapped_buffer_index =>
      if unwrapped_buffer_index =? BUFFERFIFO_END_SEQUENCE then
        (set_is_new_sequence false (snd (buffer_fifo_get s)), Return None true)
      else if unwrapped_buffer_index =? BUFFERFIFO_START_SEQUENCE then
        (set_is_new_sequence true (snd (buffer_fifo_get s)), Continue)
      else if unwrapped_buffer_index <? oldest_retained s then
        (snd (buffer_fifo_get s), Continue)
      else if s_unwrapped_filled_buffer_counter s <=? unwrapped_buffer_index then
        (snd (buffer_fifo_get s), Continue)
      else
        let read_buffer_index := read_buffer_index_of unwrapped_buffer_index s in
        let lead := lead_of read_buffer_index s in
        if gated_recording then
          (snd (buffer_fifo_get (set_is_new_sequence false s)),
           Return (Some read_buffer_index) false)
        else if negb (s_is_new_sequence s) || (lead <? MAXIMUM_READ_LEAD) then
          (snd (buffer_fifo_get (set_is_new_sequence false s)),
           Return (Some read_buffer_index) false)
        else (s, Return None false)
  end.

(** The loop, for at most [fuel] turns. *)
Fixpoint get_next_loop (fuel : nat) (gated_recording : bool) (s : state)
    : state * option Z * bool :=
  match fuel with
  | O => (s, None, false)
  | S fuel' =>
      match get_next_turn gated_recording s with
      | (s', Continue) => get_next_loop fuel' gated_recording s'
      | (s', Return pBuffer close_file) => (s', pBuffer, close_file)
      end
  end.

(** [dataprocessor_buffers_get_next].  Every turn that goes round again has
    consumed a token, so one turn more than the occupancy is enough. *)
Definition dataprocessor_buffers_get_next (ps : settings_t) (s : state)
    : state * option Z * bool :=
  if gated_recording ps && negb (s_is_gated s) then (s, None, false)
  else get_next_loop (S (Z.to_nat (s_buffer_fifo_count s))) (gated_recording ps) s.

(** [MIN (s_buffers_per_second * pretrigger_time_s, unexpired_buffers_available)]
    compares and selects in [float]; the result is stored in a [uint32_t]. *)
Definition pretrigger_buffer_count_of (ps : settings_t) (s : state)
    (unexpired_buffers_available : Z) : Z :=
  let wanted := (inject_Z (s_buffers_per_second s) * pretrigger_time_s ps)%Q in
  let available := inject_Z unexpired_buffers_available in
  Int.to_uint32
    (Int.float_to_int
       (match (wanted ?= available)%Q with Lt => wanted | _ => available end)).

(** [data_processor_buffers_on_trigger] ([leds_blink (LEDS_YELLOW)] is
    external). *)
Definition data_processor_buffers_on_trigger (ps : settings_t) (main_tick_count : Z)
    (s : state) : state :=
  let tick_delta := 10 in
  if s_is_gated s
     || (main_tick_count <? Int.to_int32 (s_gate_released_ticks s + tick_delta))
  then s
  else
    let s := set_trigger_count (Int.to_int32 (s_trigger_count s + 1)) s in
    if s_is_triggered s then
      set_final_unwrapped_buffer_for_trigger
        (Int.to_int32 (Int.float_to_int (minimum_final ps s))) s
    else
      let s :=
        set_trigger (s_is_triggered s) (s_unwrapped_filled_buffer_counter s)
          (s_final_unwrapped_buffer_for_trigger s) s in
      let unexpired_buffers_available :=
        Int.to_uint32
          (if NUM_BUFFERS - BUFFER_DELTA <? s_unwrapped_filled_buffer_counter s
           then NUM_BUFFERS - BUFFER_DELTA
           else s_unwrapped_filled_buffer_counter s) in
      let pretrigger_buffer_count :=
        pretrigger_buffer_count_of ps s unexpired_buffers_available in
      let initial_buffer_count :=
        Int.to_uint32
          (Int.to_uint32 (s_unwrapped_filled_buffer_counter s) - pretrigger_buffer_count) in
      let final_buffer_count :=
        Int.to_uint32 (Int.float_to_int (minimum_final ps s)) in
      let s := buffer_fifo_put BUFFERFIFO_START_SEQUENCE s in
      let s :=
        fold_left (fun s i => buffer_fifo_put (Int.to_int32 i) s)
          (seqZ initial_buffer_count
             (Int.to_uint32 (s_unwrapped_filled_buffer_counter s) - initial_buffer_count))
          s in
      set_is_triggered true
        (set_final_unwrapped_buffer_for_trigger (Int.to_int32 final_buffer_count) s).

(** [data_processor_buffers_fast_main_processing]: consume the trigger flag
    of [trigger.c] and act on it. *)
Definition data_processor_buffers_fast_main_processing (ps : settings_t)
    (main_tick_count : Z) (g_trigger_triggered : bool) (s : state) : bool * state :=
  if g_trigger_triggered
  then (false, data_processor_buffers_on_trigger ps main_tick_count s)
  else (g_trigger_triggered, s).

(** The default settings of [settings.c] as far as the core reads them, with
    the given choice of gated recording and of the minimum recording time. *)
Definition default_settings (gated : bool) (min_s : Q) : settings_t :=
  {| min_sampling_time_s := min_s;
     pretrigger_time_s := 0.5;
     trigger_max_count := 16;
     gated_recording := gated;
     _trigger_thresholds := [];
     _trigger_flags := [] |}.

(** A run of calls of the sample-append operation, one for each element of
    [buffers], each handing over [DATA_BUFFER_ENTRIES] samples: every call
    completes one slot. *)
Fixpoint fill_buffers (buffers : list (list Z)) (ps : settings_t) (s : state)
    : option state :=
  match buffers with
  | [] => Some s
  | pDMABuffer :: buffers' =>
      match data_processor_buffers ps pDMABuffer 0 DATA_BUFFER_ENTRIES s with
      | Some s' => fill_buffers buffers' ps s'
      | None => None
      end
  end.

(** What such a run does to the variables outside the ring: each call either
    is discarded at the gate or sequences the buffer it has filled. *)
Fixpoint complete_buffers (n : nat) (gated_recording : bool) (s : state) : state :=
  match n with
  | O => s
  | S n' =>
      complete_buffers n' gated_recording
        (if gated_recording && s_is_gated s then s
         else sequence_filled_buffer gated_recording s)
  end.

(** The control variables after [n] slot completions following a reset for
    a 384 kHz stream in the given mode. *)
Definition completions_after_reset (mode : data_processor_mode_t) (n : nat)
    (gated_recording : bool) : state :=
  complete_buffers n gated_recording
    (data_processor_buffers_reset mode 384000 initial_state).


(** [n] DMA buffers of silence, each [DATA_BUFFER_ENTRIES] samples long. *)
Definition silence (n : nat) : list (list Z) :=
  replicate n (replicate (Z.to_nat DATA_BUFFER_ENTRIES) 0).




(** A trigger event passes the guard of [data_processor_buffers_on_trigger]:
    the gate is clear and [tick_delta] ticks have passed since its
    release. *)
Definition trigger_accepted (main_tick_count : Z) (s : state) : Prop :=
  s_is_gated s = false
  /\ Int.to_int32 (s_gate_released_ticks s + 10) <= main_tick_count.

(** *** Runs of the module

    The producer steps are the sample-append call of the interrupt and the
    trigger event of the main loop; the consumer steps are [get_next] and the
    recording-complete signal.  The unwrapped counter is a 32-bit integer
    that the firmware does not expect to wrap during its operating time
    ([lifetime]). *)






(** *** The FIFO as a queue *)

(** The [n] tokens stored from position [i] on, around the end of the array. *)
Fixpoint fifo_read (n : nat) (i : Z) (fifo : list Z) : list Z :=
  match n with
  | O => []
  | S n' =>
      nth (Z.to_nat i) fifo 0
      :: fifo_read n' (if i + 1 <? BUFFER_FIFO_LENGTH then i + 1 else 0) fifo
  end.

(** The tokens enqueued and not yet consumed, oldest first. *)
Definition fifo_contents (s : state) : list Z :=
  fifo_read (Z.to_nat (s_buffer_fifo_count s)) (s_buffer_fifo_next_read s)
    (s_buffer_fifo s).

(** The array and its cursors are coherent. *)
Definition fifo_wf (s : state) : Prop :=
  length (s_buffer_fifo s) = Z.to_nat BUFFER_FIFO_LENGTH /\
  0 <= s_buffer_fifo_next_read s < BUFFER_FIFO_LENGTH /\
  0 <= s_buffer_fifo_count s <= BUFFER_FIFO_LENGTH /\
  s_buffer_fifo_next_write s
  = (s_buffer_fifo_next_read s + s_buffer_fifo_count s) mod BUFFER_FIFO_LENGTH.

(** Two states with the same FIFO variables. *)
Definition same_fifo (s1 s2 : state) : Prop :=
  s_buffer_fifo s1 = s_buffer_fifo s2
  /\ s_buffer_fifo_next_read s1 = s_buffer_fifo_next_read s2
  /\ s_buffer_fifo_next_write s1 = s_buffer_fifo_next_write s2
  /\ s_buffer_fifo_count s1 = s_buffer_fifo_count s2.

(** Two states that differ at most in the ring variables (the sample
    memory, the active slot, its write pointer and its fill). *)
Definition same_control (s1 s2 : state) : Prop :=
  same_fifo s1 s2
  /\ s_unwrapped_filled_buffer_counter s1 = s_unwrapped_filled_buffer_counter s2
  /\ s_is_triggered s1 = s_is_triggered s2
  /\ s_trigger_unwrapped_buffer_count s1 = s_trigger_unwrapped_buffer_count s2
  /\ s_final_unwrapped_buffer_for_trigger s1 = s_final_unwrapped_buffer_for_trigger s2
  /\ s_mode s1 = s_mode s2
  /\ s_is_gated s1 = s_is_gated s2
  /\ s_gate_released_ticks s1 = s_gate_released_ticks s2
  /\ s_trigger_count s1 = s_trigger_count s2
  /\ s_buffers_per_second s1 = s_buffers_per_second s2
  /\ s_is_new_sequence s1 = s_is_new_sequence s2.



(** The sample memory after [n] stores of consecutive source samples from
    address [pTargetDest] on, when every store is inside [s_buffers]. *)
Fixpoint copied (n : nat) (pSource_q15 : list Z) (pTargetDest : Z)
    (mem : gmap Z Z) : gmap Z Z :=
  match n with
  | O => mem
  | S n' =>
      copied n' (tl pSource_q15) (pTargetDest + 1)
        (<[pTargetDest := hd 0 pSource_q15]> mem)
  end.

(** The address at which an append stores its [i]-th sample: in the active
    slot while it has room, and from the start of the next slot on after
    that. *)
Definition sample_address (s : state) (i : Z) : Z :=
  if s_active_buffer_entry_count s + i <? DATA_BUFFER_ENTRIES
  then s_active_buffer_ptr s + s_active_buffer_entry_count s + i
  else next_buffer_index s * DATA_BUFFER_ENTRIES
       + (s_active_buffer_entry_count s + i - DATA_BUFFER_ENTRIES).

(** [n] calls of [buffer_fifo_get], with what each returned. *)
Fixpoint get_tokens (n : nat) (s : state) : list (option Z) * state :=
  match n with
  | O => ([], s)
  | S n' =>
      let '(token, s1) := buffer_fifo_get s in
      let '(tokens, s2) := get_tokens n' s1 in
      (token :: tokens, s2)
  end.


(** [s'] comes from [s] by consumer actions only: tokens taken from the
    head of the FIFO and the new-sequence flag. *)
Definition consumer_only (s' s : state) : Prop :=
  exists next_read count is_new_sequence,
    s' = set_is_new_sequence is_new_sequence
           (set_fifo (s_buffer_fifo s) next_read (s_buffer_fifo_next_write s) count s).

(** The gate check of [dataprocessor_buffers_get_next] lets the call read. *)
Definition reading_enabled (ps : settings_t) (s : state) : Prop :=
  gated_recording ps && negb (s_is_gated s) = false.

(** The ring is coherent: the active slot and its fill are in range and the
    write pointer is at the start of the active slot. *)
Definition ring_wf (s : state) : Prop :=
  0 <= s_active_buffer_index s < NUM_BUFFERS /\
  0 <= s_active_buffer_entry_count s < DATA_BUFFER_ENTRIES /\
  s_active_buffer_ptr s = s_active_buffer_index s * DATA_BUFFER_ENTRIES.

(** A token is a data token inside the retained window. *)
Definition in_window (token : Z) (s : state) : Prop :=
  token <> BUFFERFIFO_END_SEQUENCE /\
  token <> BUFFERFIFO_START_SEQUENCE /\
  oldest_retained s <= token < s_unwrapped_filled_buffer_counter s.

(** A data token outside the retained window: expired, or in the future. *)
Definition out_of_window (token : Z) (s : state) : Prop :=
  token <> BUFFERFIFO_END_SEQUENCE /\
  token <> BUFFERFIFO_START_SEQUENCE /\
  (token < oldest_retained s \/ s_unwrapped_filled_buffer_counter s <= token).

End Buffers.

(** ** Squared magnitude of complex samples ([cmplx_mag_squared.c]) *)

Module CmplxMagSquared.

Section WithIntrinsics.

(** The two CMSIS intrinsics are external: [SIMD32 a b] is the 32-bit word that
    [*__SIMD32(pSrc)++] reads where the [q15_t] values [a] and [b] lie, and
    [SMUAD] the dual 16-bit multiply with add. *)
Variable SIMD32 : Z -> Z -> Z.
Variable SMUAD : Z -> Z -> Z.

(** The first loop, four outputs in each of its [blkCnt] turns; [pSrc] is the
    source from the read pointer on, [pDst] the index written next. *)
Fixpoint unrolled_loop (blkCnt : nat) (pSrc : list Z) (pDst : nat) (dst : list Z)
    : list Z * nat * list Z :=
  match blkCnt with
  | O => (pSrc, pDst, dst)
  | S blkCnt' =>
      let in1 := SIMD32 (nth 0 pSrc 0) (nth 1 pSrc 0) in
      let in2 := SIMD32 (nth 2 pSrc 0) (nth 3 pSrc 0) in
      let in3 := SIMD32 (nth 4 pSrc 0) (nth 5 pSrc 0) in
      let in4 := SIMD32 (nth 6 pSrc 0) (nth 7 pSrc 0) in
      let pSrc := drop 8 pSrc in
      let acc0 := SMUAD in1 in1 in
      let acc1 := SMUAD in2 in2 in
      let acc2 := SMUAD in3 in3 in
      let acc3 := SMUAD in4 in4 in
      let dst := <[pDst := acc0]> dst in
      let dst := <[S pDst := acc1]> dst in
      let dst := <[S (S pDst) := acc2]> dst in
      let dst := <[S (S (S pDst)) := acc3]> dst in
      unrolled_loop blkCnt' pSrc (S (S (S (S pDst)))) dst
  end.

(** The second loop, one output in each turn. *)
Fixpoint remainder_loop (blkCnt : nat) (pSrc : list Z) (pDst : nat) (dst : list Z)
    : list Z :=
  match blkCnt with
  | O => dst
  | S blkCnt' =>
      let in1 := SIMD32 (nth 0 pSrc 0) (nth 1 pSrc 0) in
      let pSrc := drop 2 pSrc in
      let acc0 := SMUAD in1 in1 in
      remainder_loop blkCnt' pSrc (S pDst) (<[pDst := acc0]> dst)
  end.

(** [cmplx_mag_squared_q15_q31]; the result is the destination array. *)
Definition cmplx_mag_squared_q15_q31 (pSrc dst : list Z) (numSamples : Z) : list Z :=
  let blkCnt := Z.shiftr (Int.to_uint32 numSamples) 2 in
  let '(pSrc, pDst, dst) := unrolled_loop (Z.to_nat blkCnt) pSrc 0 dst in
  let blkCnt := Int.to_uint32 numSamples mod 4 in
  remainder_loop (Z.to_nat blkCnt) pSrc pDst dst.

End WithIntrinsics.

End CmplxMagSquared.

(** ** Clipping of settings ([settings.c]) *)

Module SettingsParser.

Definition clip_to_int_range (value min max : Z) : Z :=
  if value <? min then min
  else if max <? value then max
  else value.

(** [process_trigger_flags].  The trigger string is tokenised with [strtok]
    on the delimiters space, tab and newline; a token sets its flag when
    [stricmp (token, "x") == 0]. *)
Definition is_delimiter (c : ascii) : bool :=
  Ascii.eqb c " " || Ascii.eqb c "009" || Ascii.eqb c "010".

(** [strtok]: skip the delimiters in front, then take the characters up to
    the next delimiter, which is overwritten and stepped over. *)
Fixpoint skip_delimiters (s : list ascii) : list ascii :=
  match s with
  | [] => []
  | c :: s' => if is_delimiter c then skip_delimiters s' else s
  end.

Fixpoint scan_token (s : list ascii) : list ascii * list ascii :=
  match s with
  | [] => ([], [])
  | c :: s' =>
      if is_delimiter c then ([], s')
      else let '(token, rest) := scan_token s' in (c :: token, rest)
  end.

(** The token found, with the string that the next call goes on from; [None]
    is the [NULL] result. *)
Definition strtok (s : list ascii) : option (list ascii * list ascii) :=
  match skip_delimiters s with
  | [] => None
  | s1 => Some (scan_token s1)
  end.

Definition stricmp_is_x (token : list ascii) : bool :=
  match token with
  | [c] => Ascii.eqb c "x" || Ascii.eqb c "X"
  | _ => false
  end.

(** The [while (token != NULL)] loop, for at most [fuel] turns. *)
Fixpoint flags_loop (fuel : nat) (token : option (list ascii * list ascii))
    (tokens_processed : nat) (_trigger_flags : list bool) : nat * list bool :=
  match fuel with
  | O => (tokens_processed, _trigger_flags)
  | S fuel' =>
      match token with
      | None => (tokens_processed, _trigger_flags)
      | Some (token, rest) =>
          if (tokens_processed <? Settings.MAX_TRIGGER_MATCH_CLAUSES)%nat
          then flags_loop fuel' (strtok rest) (S tokens_processed)
                 (<[tokens_processed := stricmp_is_x token]> _trigger_flags)
          else flags_loop fuel' (strtok rest) tokens_processed _trigger_flags
      end
  end.

(** The [for] loop that clears the flags no token was supplied for. *)
Fixpoint clear_loop (n i : nat) (_trigger_flags : list bool) : list bool :=
  match n with
  | O => _trigger_flags
  | S n' => clear_loop n' (S i) (<[i := false]> _trigger_flags)
  end.

(** Every turn of the token loop shortens the string, so one turn more than
    its length is enough. *)
Definition process_trigger_flags (trigger_string : list ascii)
    (_trigger_flags : list bool) : list bool :=
  let '(tokens_processed, _trigger_flags) :=
    flags_loop (S (length trigger_string)) (strtok trigger_string) 0 _trigger_flags in
  clear_loop (Settings.MAX_TRIGGER_MATCH_CLAUSES - tokens_processed) tokens_processed
    _trigger_flags.

(** The words of a string: its maximal runs of characters that are not
    delimiters, in order. *)
Fixpoint words (s : list ascii) (current : list ascii) : list (list ascii) :=
  match s with
  | [] => match current with [] => [] | _ => [rev current] end
  | c :: s' =>
      if is_delimiter c
      then match current with [] => words s' [] | _ => rev current :: words s' [] end
      else words s' (c :: current)
  end.

End SettingsParser.

(** * Part II: properties *)

(** ** Machine integers *)

Lemma to_int32_id x : Int.INT32_MIN <= x <= Int.INT32_MAX -> Int.to_int32 x = x.
Proof.
  unfold Int.to_int32, Int.to_signed, Int.INT32_MIN, Int.INT32_MAX. intros H.
  rewrite Z.mod_small; lia.
Qed.

Lemma to_uint32_id x : 0 <= x < 2 ^ 32 -> Int.to_uint32 x = x.
Proof. unfold Int.to_uint32, Int.to_unsigned. intros H. apply Z.mod_small. lia. Qed.

Lemma to_int32_range x : Int.INT32_MIN <= Int.to_int32 x <= Int.INT32_MAX.
Proof.
  unfold Int.to_int32, Int.to_signed, Int.INT32_MIN, Int.INT32_MAX.
  pose proof (Z.mod_pos_bound (x + 2 ^ (32 - 1)) (2 ^ 32)). lia.
Qed.


Lemma to_int16_range x : -32768 <= Int.to_int16 x <= 32767.
Proof.
  unfold Int.to_int16, Int.to_signed.
  pose proof (Z.mod_pos_bound (x + 2 ^ (16 - 1)) (2 ^ 16)). lia.
Qed.

(** Congruent values truncate alike. *)
Lemma to_int16_congr x y k : x = y + k * 2 ^ 16 -> Int.to_int16 x = Int.to_int16 y.
Proof.
  intros ->. unfold Int.to_int16, Int.to_signed. f_equal.
  replace (y + k * 2 ^ 16 + 2 ^ (16 - 1)) with (y + 2 ^ (16 - 1) + k * 2 ^ 16) by lia.
  apply Z.mod_add. lia.
Qed.

Lemma to_int32_decompose x : exists k, Int.to_int32 x = x + k * 2 ^ 32.
Proof.
  exists (- ((x + 2 ^ 31) / 2 ^ 32)).
  unfold Int.to_int32, Int.to_signed. change (2 ^ (32 - 1)) with (2 ^ 31).
  rewrite Z.mod_eq by lia. lia.
Qed.

(** Truncating to 16 bits forgets an earlier truncation to 32 bits. *)
Lemma to_int16_to_int32 x : Int.to_int16 (Int.to_int32 x) = Int.to_int16 x.
Proof.
  destruct (to_int32_decompose x) as [k ->].
  apply (to_int16_congr _ _ (k * 2 ^ 16)). lia.
Qed.



(** ** Gain controller *)

Lemma gain_get_shift_range g : 0 <= Gain.gain_get_shift g <= 4.
Proof.
  unfold Gain.gain_get_shift, Gain.s_gain_shifts.
  destruct (Z.to_nat g) as [|[|[|[|[|[|n]]]]]]; simpl; lia.
Qed.

Lemma gain_get_shift_id g :
  0 <= g <= Gain.GAIN_MAX_RANGE_INDEX -> Gain.gain_get_shift g = g.
Proof.
  unfold Gain.GAIN_MAX_RANGE_INDEX. intros H.
  assert (g = 0 \/ g = 1 \/ g = 2 \/ g = 3 \/ g = 4) as Hg by lia.
  destruct Hg as [-> | [-> | [-> | [-> | ->]]]]; reflexivity.
Qed.

Lemma gain_shift_for_max : Gain.gain_shift_for_range Gain.GAIN_MAX_RANGE_INDEX = 4.
Proof. reflexivity. Qed.

(** The shift [check_for_trigger] computes never needs the 32-bit wrap. *)
Lemma shift_for_gain_exact g :
  Int.to_int32 (Gain.gain_shift_for_range Gain.GAIN_MAX_RANGE_INDEX - Gain.gain_get_shift g)
  = Trigger.shift_for_gain_of g.
Proof.
  unfold Trigger.shift_for_gain_of. rewrite gain_shift_for_max.
  pose proof (gain_get_shift_range g).
  apply to_int32_id. unfold Int.INT32_MIN, Int.INT32_MAX. lia.
Qed.

Lemma shift_for_gain_range g : 0 <= Trigger.shift_for_gain_of g <= 4.
Proof.
  unfold Trigger.shift_for_gain_of. rewrite gain_shift_for_max.
  pose proof (gain_get_shift_range g). lia.
Qed.

(** ** Spectral trigger detector: the count of matching buckets *)

Section CheckLoop.

Variables (freq_buckets pv : list Z) (pf : list bool) (shift_for_gain : Z).

Let matching (j : nat) : bool :=
  nth j pf false
  && negb (nth j pv 0 =? Settings.SETTINGS_IGNORE_TRIGGER_VALUE)
  && (Trigger.adjust_threshold (nth j pv 0) shift_for_gain <=? nth j freq_buckets 0).

(** The loop adds to the running count the number of matching buckets among
    those it visits; with at most sixteen buckets the [int] never wraps. *)
Lemma check_loop_count n :
  forall i match_count matches,
    0 <= match_count <= Z.of_nat i ->
    (i + n <= 16)%nat ->
    fst (Trigger.check_loop n i freq_buckets pv pf shift_for_gain match_count matches)
    = match_count + Z.of_nat (length (List.filter matching (seq i n))).
Proof.
  induction n as [|n IH]; intros i match_count matches Hmc Hn; simpl.
  - lia.
  - unfold matching at 1.
    destruct (nth i pf false); simpl.
    + destruct (nth i pv 0 =? Settings.SETTINGS_IGNORE_TRIGGER_VALUE); simpl.
      * rewrite IH by lia. reflexivity.
      * destruct (Trigger.adjust_threshold (nth i pv 0) shift_for_gain
                  <=? nth i freq_buckets 0); simpl.
        -- rewrite IH.
           ++ rewrite to_int32_id by (unfold Int.INT32_MIN, Int.INT32_MAX; lia). lia.
           ++ rewrite to_int32_id by (unfold Int.INT32_MIN, Int.INT32_MAX; lia). lia.
           ++ lia.
        -- rewrite IH by lia. reflexivity.
    + rewrite IH by lia. reflexivity.
Qed.

End CheckLoop.

Lemma check_for_trigger_decision ps g freq_buckets matches :
  fst (Trigger.check_for_trigger ps g freq_buckets matches)
  = (0 <? Trigger.match_count_of ps g freq_buckets)
    && (Trigger.match_count_of ps g freq_buckets <=? Settings.trigger_max_count ps).
Proof.
  unfold Trigger.check_for_trigger. rewrite shift_for_gain_exact.
  pose proof (check_loop_count freq_buckets (Settings._trigger_thresholds ps)
                (Settings._trigger_flags ps) (Trigger.shift_for_gain_of g)
                Settings.MAX_TRIGGER_MATCH_CLAUSES 0%nat 0 matches) as H.
  specialize (H ltac:(lia) ltac:(unfold Settings.MAX_TRIGGER_MATCH_CLAUSES; lia)).
  destruct (Trigger.check_loop _ _ _ _ _ _ _ _) as [match_count matches'].
  cbn [fst] in *. rewrite Z.add_0_l in H. subst match_count.
  unfold Trigger.match_count_of, Trigger.bucket_matches. reflexivity.
Qed.

(** The decision does not depend on whether the match vector is written. *)
Lemma check_for_trigger_matches_irrelevant ps g freq_buckets m1 m2 :
  fst (Trigger.check_for_trigger ps g freq_buckets m1)
  = fst (Trigger.check_for_trigger ps g freq_buckets m2).
Proof. rewrite !check_for_trigger_decision. reflexivity. Qed.

(** C1.  For every bucket-power vector, settings snapshot and gain range, the
    decision of [check_for_trigger] for a sub-window is true exactly when the
    number of matching buckets (enable flag set, threshold not the ignore
    value, power at least the gain-adjusted threshold) is greater than zero
    and at most [trigger_max_count]; in particular no match gives no
    trigger, and neither do [trigger_max_count + 1] matches. *)
Theorem check_for_trigger_iff_match_count_in_bounds :
  forall (ps : Settings.settings_t) (s_logical_index : Z) (freq_buckets : list Z)
         (matches : option (list bool)),
    let match_count := Trigger.match_count_of ps s_logical_index freq_buckets in
    let triggered :=
      fst (Trigger.check_for_trigger ps s_logical_index freq_buckets matches) in
    (triggered = true <->
       0 < match_count /\ match_count <= Settings.trigger_max_count ps)
    /\ (match_count = 0 -> triggered = false)
    /\ (match_count = Settings.trigger_max_count ps + 1 -> triggered = false).
Proof.
  intros ps g freq_buckets matches match_count triggered.
  assert (triggered
          = (0 <? match_count) && (match_count <=? Settings.trigger_max_count ps)) as ->
    by apply check_for_trigger_decision.
  split; [split | split].
  - intros Ht. apply andb_true_iff in Ht. lia.
  - intros [H1 H2]. apply andb_true_iff. split; lia.
  - intros ->. reflexivity.
  - intros ->. apply andb_false_iff. right. lia.
Qed.

(** ** Gain compensation of the thresholds *)

(** The two shifts of the code amount to one shift by twice the difference
    between the shift of the most sensitive range and the active one. *)
Lemma adjust_threshold_twice pv g :
  Trigger.adjust_threshold pv (Trigger.shift_for_gain_of g)
  = Z.shiftr pv
      (2 * (Gain.gain_shift_for_range Gain.GAIN_MAX_RANGE_INDEX - Gain.gain_get_shift g)).
Proof.
  unfold Trigger.adjust_threshold. pose proof (shift_for_gain_range g) as H.
  rewrite Z.shiftr_shiftr by lia. f_equal. unfold Trigger.shift_for_gain_of. lia.
Qed.

(** One step further from the most sensitive range divides the adjusted
    threshold by four, rounding down. *)
Lemma adjust_threshold_step pv g :
  0 <= g < Gain.GAIN_MAX_RANGE_INDEX ->
  Trigger.adjust_threshold pv (Trigger.shift_for_gain_of g)
  = Trigger.adjust_threshold pv (Trigger.shift_for_gain_of (g + 1)) / 4.
Proof.
  intros Hg. rewrite !adjust_threshold_twice. rewrite gain_shift_for_max.
  unfold Gain.GAIN_MAX_RANGE_INDEX in Hg.
  rewrite !gain_get_shift_id by (unfold Gain.GAIN_MAX_RANGE_INDEX; lia).
  replace (2 * (4 - g)) with (2 * (4 - (g + 1)) + 2) by lia.
  rewrite <- Z.shiftr_shiftr by lia.
  rewrite (Z.shiftr_div_pow2 _ 2) by lia. reflexivity.
Qed.

Lemma nth_raise_powers i freq_buckets :
  nth i (Trigger.raise_powers freq_buckets) 0 = 4 * nth i freq_buckets 0.
Proof.
  unfold Trigger.raise_powers.
  change 0 with (4 * 0) at 1. apply (map_nth (fun power => 4 * power)).
Qed.

Lemma bucket_matches_raised ps g freq_buckets i :
  0 <= g < Gain.GAIN_MAX_RANGE_INDEX ->
  (i < Settings.MAX_TRIGGER_MATCH_CLAUSES)%nat ->
  Trigger.step_is_exact ps g = true ->
  Trigger.bucket_matches ps (g + 1) (Trigger.raise_powers freq_buckets) i
  = Trigger.bucket_matches ps g freq_buckets i.
Proof.
  intros Hg Hi Hexact. unfold Trigger.step_is_exact in Hexact.
  rewrite forallb_forall in Hexact.
  specialize (Hexact i). rewrite in_seq in Hexact. specialize (Hexact ltac:(lia)).
  unfold Trigger.bucket_matches. rewrite nth_raise_powers.
  destruct (nth i (Settings._trigger_flags ps) false); simpl in *; [|reflexivity].
  destruct (nth i (Settings._trigger_thresholds ps) 0
            =? Settings.SETTINGS_IGNORE_TRIGGER_VALUE); simpl in *; [reflexivity|].
  rewrite (adjust_threshold_step _ g) by assumption.
  apply Z.eqb_eq in Hexact.
  set (t := Trigger.adjust_threshold _ _) in *.
  assert (t = 4 * (t / 4)) as Ht by (rewrite (Z.div_mod t 4) at 1 by lia; lia).
  destruct (Z.leb_spec t (4 * nth i freq_buckets 0));
    destruct (Z.leb_spec (t / 4) (nth i freq_buckets 0)); try reflexivity; lia.
Qed.

Lemma match_count_raised ps g freq_buckets :
  0 <= g < Gain.GAIN_MAX_RANGE_INDEX ->
  Trigger.step_is_exact ps g = true ->
  Trigger.match_count_of ps (g + 1) (Trigger.raise_powers freq_buckets)
  = Trigger.match_count_of ps g freq_buckets.
Proof.
  intros Hg Hexact. unfold Trigger.match_count_of.
  rewrite (List.filter_ext_in _ (Trigger.bucket_matches ps g freq_buckets));
    [reflexivity|].
  intros i Hi. apply in_seq in Hi.
  apply bucket_matches_raised; [assumption | lia | assumption].
Qed.

(** C9, as the code has it.  The code shifts each configured threshold right
    by twice the difference between the shift of the most sensitive range
    and that of the active range.  For a gain range below the most sensitive
    one, the same physical signal one step higher (every bucket power
    multiplied by four) evaluated against the unchanged configured
    thresholds gives the same trigger decision, provided the thresholds of
    the enabled buckets, as adjusted for the higher range, are multiples of
    four. *)
Theorem gain_step_preserves_trigger_decision :
  forall (ps : Settings.settings_t) (s_logical_index : Z) (freq_buckets : list Z)
         (matches : option (list bool)),
    0 <= s_logical_index < Gain.GAIN_MAX_RANGE_INDEX ->
    Trigger.step_is_exact ps s_logical_index = true ->
    fst (Trigger.check_for_trigger ps (s_logical_index + 1)
           (Trigger.raise_powers freq_buckets) matches)
    = fst (Trigger.check_for_trigger ps s_logical_index freq_buckets matches)
    /\ (forall pv,
          Trigger.adjust_threshold pv (Trigger.shift_for_gain_of s_logical_index)
          = Z.shiftr pv
              (2 * (Gain.gain_shift_for_range Gain.GAIN_MAX_RANGE_INDEX
                    - Gain.gain_shift_for_range s_logical_index))).
Proof.
  intros ps g freq_buckets matches Hg Hexact. split.
  - rewrite !check_for_trigger_decision, match_count_raised by assumption.
    reflexivity.
  - intros pv. apply adjust_threshold_twice.
Qed.

Lemma gain_step_preserves_trigger_decision_witness :
  fst (Trigger.check_for_trigger (Trigger.single_bucket_profile 8) (3 + 1)
         (Trigger.raise_powers [2]) None)
  = fst (Trigger.check_for_trigger (Trigger.single_bucket_profile 8) 3 [2] None)
  /\ (forall pv,
        Trigger.adjust_threshold pv (Trigger.shift_for_gain_of 3)
        = Z.shiftr pv
            (2 * (Gain.gain_shift_for_range Gain.GAIN_MAX_RANGE_INDEX
                  - Gain.gain_shift_for_range 3))).
Proof.
  apply (gain_step_preserves_trigger_decision (Trigger.single_bucket_profile 8) 3 [2] None).
  - unfold Gain.GAIN_MAX_RANGE_INDEX. lia.
  - reflexivity.
Defined.

(** C9, as stated, fails.  On the range one step below the most sensitive
    one, a bucket of power 1 does not reach the threshold 8 (adjusted to 2),
    but one step higher its power 4 reaches the halved threshold 4.  Halving
    the thresholds without changing the powers fails as well (power 2,
    threshold 8), and with unchanged thresholds the decision can still flip
    when the shift drops a set bit (power 1, threshold 5). *)
Lemma gain_step_with_halved_thresholds_changes_decision :
  (fst (Trigger.check_for_trigger (Trigger.single_bucket_profile 8) 3 [1] None) = false
   /\ fst (Trigger.check_for_trigger
             (Trigger.halve_thresholds (Trigger.single_bucket_profile 8)) 4
             (Trigger.raise_powers [1]) None) = true)
  /\ (fst (Trigger.check_for_trigger (Trigger.single_bucket_profile 8) 3 [2] None) = true
      /\ fst (Trigger.check_for_trigger
                (Trigger.halve_thresholds (Trigger.single_bucket_profile 8)) 4
                [2] None) = false)
  /\ (fst (Trigger.check_for_trigger (Trigger.single_bucket_profile 5) 3 [1] None) = true
      /\ fst (Trigger.check_for_trigger (Trigger.single_bucket_profile 5) 4
                (Trigger.raise_powers [1]) None) = false).
Proof. repeat split; reflexivity. Qed.

(** ** Sample acquirer: scaling and overload *)

Lemma nth_insert_eq (l : list Z) (i : nat) (x d : Z) :
  (i < length l)%nat -> nth i (<[i := x]> l) d = x.
Proof. intros H. rewrite nth_lookup, list_lookup_insert_eq by assumption. reflexivity. Qed.

Lemma nth_insert_ne (l : list Z) (i j : nat) (x d : Z) :
  i <> j -> nth j (<[i := x]> l) d = nth j l d.
Proof. intros H. rewrite !nth_lookup, list_lookup_insert_ne by assumption. reflexivity. Qed.

(** The 32-bit intermediate results leave no trace in the 16-bit sample. *)
Lemma scale_sample_exact value offset leftshift correction :
  Acquisition.scale_sample value offset leftshift correction
  = Int.to_int16 (Z.shiftl (value - Int.to_uint16 offset) leftshift - correction).
Proof.
  unfold Acquisition.scale_sample. rewrite to_int16_to_int32.
  destruct (to_int32_decompose (Z.shiftl (value - Int.to_uint16 offset) leftshift))
    as [k ->].
  apply (to_int16_congr _ _ (k * 2 ^ 16)). lia.
Qed.

Section ScaleLoop.

Variables (dmabuffer : list Z) (offset leftshift correction : Z).

Let scaled (j : nat) : Z :=
  Acquisition.scale_sample (nth j dmabuffer 0) offset leftshift correction.

Lemma scale_loop_length n :
  forall p raw_buffer overload,
    length (fst (Acquisition.scale_loop n p p dmabuffer offset leftshift correction
                   raw_buffer overload))
    = length raw_buffer.
Proof.
  induction n as [|n IH]; intros p raw_buffer overload;
    cbn [Acquisition.scale_loop]; [reflexivity|].
  rewrite IH. apply length_insert.
Qed.

(** Below the cursor the loop leaves the buffer alone. *)
Lemma scale_loop_below n :
  forall p raw_buffer overload j,
    (j < p)%nat ->
    nth j (fst (Acquisition.scale_loop n p p dmabuffer offset leftshift correction
                  raw_buffer overload)) 0
    = nth j raw_buffer 0.
Proof.
  induction n as [|n IH]; intros p raw_buffer overload j Hj;
    cbn [Acquisition.scale_loop]; [reflexivity|].
  rewrite IH by lia. apply nth_insert_ne. lia.
Qed.

(** From the cursor on it stores the scaled samples. *)
Lemma scale_loop_published n :
  forall p raw_buffer overload j,
    (p + n <= length raw_buffer)%nat ->
    (p <= j < p + n)%nat ->
    nth j (fst (Acquisition.scale_loop n p p dmabuffer offset leftshift correction
                  raw_buffer overload)) 0
    = scaled j.
Proof.
  induction n as [|n IH]; intros p raw_buffer overload j Hlen Hj;
    cbn [Acquisition.scale_loop]; [lia|].
  destruct (decide (j = p)) as [-> | Hne].
  - rewrite scale_loop_below by lia. apply nth_insert_eq. lia.
  - apply IH; [rewrite length_insert|]; lia.
Qed.

(** The flag is raised exactly when one of the scaled samples is out of the
    threshold range. *)
Lemma scale_loop_overload n :
  forall p raw_buffer overload,
    snd (Acquisition.scale_loop n p p dmabuffer offset leftshift correction
           raw_buffer overload)
    = overload || existsb (fun j => Acquisition.is_overload (scaled j)) (seq p n).
Proof.
  induction n as [|n IH]; intros p raw_buffer overload;
    cbn [Acquisition.scale_loop seq existsb snd].
  - rewrite orb_false_r. reflexivity.
  - rewrite IH. unfold scaled at 2.
    destruct (Acquisition.is_overload _); cbn [orb].
    + rewrite orb_true_r. reflexivity.
    + reflexivity.
Qed.

End ScaleLoop.

Lemma is_overload_spec x :
  Acquisition.is_overload x = true
  <-> x > Acquisition.SCALE_DOWN_DELTA \/ x < - Acquisition.SCALE_DOWN_DELTA.
Proof.
  unfold Acquisition.is_overload, Acquisition.SCALE_DOWN_THRESHOLD_UPPER,
    Acquisition.SCALE_DOWN_THRESHOLD_LOWER.
  rewrite orb_true_iff, !Z.ltb_lt. lia.
Qed.

(** C8.  For every half frame handed to [process_half_frame], each published
    sample is [((raw - offset_code) << left_shift) - signal_offset_correction]
    truncated to 16 bits (signed); the overload request is raised if and only
    if at least one published sample lies strictly outside
    [[-SCALE_DOWN_DELTA, SCALE_DOWN_DELTA]]; the samples are published as
    scaled whether or not overload is flagged. *)
Theorem process_half_frame_scales_and_flags_overload :
  forall (HALF_SAMPLES_PER_FRAME : nat) (D : Type)
         (s_data_processor : option (list Z -> nat -> D -> D))
         (is_first_half : bool) (dmabuffer : list Z) (offset leftshift : Z)
         (s : Acquisition.state) (d : D),
    let buffer_offset := if is_first_half then O else HALF_SAMPLES_PER_FRAME in
    let result :=
      Acquisition.process_half_frame HALF_SAMPLES_PER_FRAME s_data_processor
        is_first_half dmabuffer offset leftshift s d in
    let published (i : nat) :=
      nth (buffer_offset + i) (Acquisition.s_raw_buffer_q15 (fst (fst result))) 0 in
    (buffer_offset + HALF_SAMPLES_PER_FRAME
     <= length (Acquisition.s_raw_buffer_q15 s))%nat ->
    (forall i, (i < HALF_SAMPLES_PER_FRAME)%nat ->
       published i
       = Int.to_int16
           (Z.shiftl (nth (buffer_offset + i) dmabuffer 0 - Int.to_uint16 offset) leftshift
            - Acquisition.s_signal_offset_correction s))
    /\ (snd (fst result) = true <->
        exists i, (i < HALF_SAMPLES_PER_FRAME)%nat
                  /\ (published i > Acquisition.SCALE_DOWN_DELTA
                      \/ published i < - Acquisition.SCALE_DOWN_DELTA)).
Proof.
  intros HALF D processor is_first_half dmabuffer offset leftshift s d
    buffer_offset result published Hlen.
  assert (forall i, (i < HALF)%nat ->
            published i
            = Acquisition.scale_sample (nth (buffer_offset + i) dmabuffer 0) offset
                leftshift (Acquisition.s_signal_offset_correction s)) as Hpub.
  { intros i Hi. unfold published, result, Acquisition.process_half_frame.
    fold buffer_offset.
    pose proof (scale_loop_published dmabuffer offset leftshift
                  (Acquisition.s_signal_offset_correction s) HALF buffer_offset
                  (Acquisition.s_raw_buffer_q15 s) false (buffer_offset + i)%nat
                  Hlen ltac:(lia)) as H.
    destruct (Acquisition.scale_loop _ _ _ _ _ _ _ _ _) as [raw_buffer overload].
    simpl in *. exact H. }
  split.
  - intros i Hi. rewrite Hpub by assumption. apply scale_sample_exact.
  - assert (snd (fst result)
            = existsb (fun j => Acquisition.is_overload
                                  (Acquisition.scale_sample (nth j dmabuffer 0) offset
                                     leftshift (Acquisition.s_signal_offset_correction s)))
                (seq buffer_offset HALF)) as ->.
    { unfold result, Acquisition.process_half_frame. fold buffer_offset.
      pose proof (scale_loop_overload dmabuffer offset leftshift
                    (Acquisition.s_signal_offset_correction s) HALF buffer_offset
                    (Acquisition.s_raw_buffer_q15 s) false) as H.
      destruct (Acquisition.scale_loop _ _ _ _ _ _ _ _ _) as [raw_buffer overload].
      simpl in *. exact H. }
    rewrite existsb_exists. split.
    + intros (j & Hj & Hov). apply in_seq in Hj.
      exists (j - buffer_offset)%nat. split; [lia|].
      rewrite Hpub by lia.
      replace (buffer_offset + (j - buffer_offset))%nat with j by lia.
      apply is_overload_spec. exact Hov.
    + intros (i & Hi & Hov). exists (buffer_offset + i)%nat. split.
      * apply in_seq. lia.
      * apply is_overload_spec. rewrite <- Hpub by assumption. exact Hov.
Qed.

Lemma process_half_frame_scales_and_flags_overload_witness :
  let buffer_offset := 2%nat in
  let result :=
    Acquisition.process_half_frame 2 (@None (list Z -> nat -> unit -> unit))
      false [32768; 32769; 60000; 100] (Int.to_int16 Acquisition.ACQUISITION_OFFSET)
      Acquisition.ACQUISITION_LEFTSHIFT (Acquisition.reset_state 4) tt in
  let published (i : nat) :=
    nth (buffer_offset + i) (Acquisition.s_raw_buffer_q15 (fst (fst result))) 0 in
  (forall i, (i < 2)%nat ->
     published i
     = Int.to_int16
         (Z.shiftl (nth (buffer_offset + i) [32768; 32769; 60000; 100] 0
                    - Int.to_uint16 (Int.to_int16 Acquisition.ACQUISITION_OFFSET))
            Acquisition.ACQUISITION_LEFTSHIFT
          - Acquisition.s_signal_offset_correction (Acquisition.reset_state 4)))
  /\ (snd (fst result) = true <->
      exists i, (i < 2)%nat
                /\ (published i > Acquisition.SCALE_DOWN_DELTA
                    \/ published i < - Acquisition.SCALE_DOWN_DELTA)).
Proof.
  apply (process_half_frame_scales_and_flags_overload 2 unit None false
           [32768; 32769; 60000; 100] (Int.to_int16 Acquisition.ACQUISITION_OFFSET)
           Acquisition.ACQUISITION_LEFTSHIFT (Acquisition.reset_state 4) tt).
  simpl. lia.
Defined.

(** ** Spectral trigger detector: the race guard *)

(** C6.  In every evaluation cycle of [trigger_main_fast_processing] that
    finds a half frame ready, with [count1] the generation counter read
    before the evaluation and [count2] the one read after it: if the
    evaluation reports a trigger and the two reads differ, the trigger flag
    is not published and the trigger variables are left as they were; the
    cycle sets the flag exactly when the evaluation triggered and the two
    reads are equal.  A cycle that finds no half frame ready changes
    nothing. *)
Theorem trigger_published_iff_counter_unchanged :
  forall (HALF_SAMPLES_PER_FRAME : nat) (D : Type)
         (s_data_processor : option (list Z -> nat -> D -> D))
         (fft_squared_modulus : list Z -> list Z)
         (ps : Settings.settings_t) (s_logical_index : Z)
         (irq_before irq_during : list Trigger.irq) (torn : list Z)
         (s : Acquisition.state) (d : D) (g : Trigger.globals),
    let run := Trigger.run_irqs HALF_SAMPLES_PER_FRAME s_data_processor in
    let before := run irq_before (Trigger.set_ready false s, d) in
    let count1 := Acquisition.g_raw_half_frame_counter (fst before) in
    let count2 := Acquisition.g_raw_half_frame_counter (fst (run irq_during before)) in
    let seen :=
      match irq_during with
      | [] => Trigger.half_frame_memory (fst before)
      | _ => torn
      end in
    let triggered :=
      Trigger.check_each_window HALF_SAMPLES_PER_FRAME fft_squared_modulus ps
        s_logical_index seen in
    let g' :=
      snd (Trigger.trigger_main_fast_processing HALF_SAMPLES_PER_FRAME
             s_data_processor fft_squared_modulus ps s_logical_index
             irq_before irq_during torn (s, d, g)) in
    (Acquisition.g_raw_half_frame_ready s = true ->
     triggered = true -> count2 <> count1 -> g' = g)
    /\ (Acquisition.g_raw_half_frame_ready s = true ->
        triggered = true -> count2 = count1 ->
        Trigger.g_trigger_triggered g' = true
        /\ Trigger.s_counter g' = Int.to_int32 (Trigger.s_counter g + 1))
    /\ (g' <> g ->
        Acquisition.g_raw_half_frame_ready s = true
        /\ triggered = true /\ count2 = count1)
    /\ (Acquisition.g_raw_half_frame_ready s = false ->
        Trigger.trigger_main_fast_processing HALF_SAMPLES_PER_FRAME
          s_data_processor fft_squared_modulus ps s_logical_index
          irq_before irq_during torn (s, d, g) = (s, d, g)).
Proof.
  intros HALF D processor fft ps gi irq_before irq_during torn s d g.
  cbv zeta. unfold Trigger.trigger_main_fast_processing.
  destruct (Acquisition.g_raw_half_frame_ready s) eqn:Hready.
  - destruct (Trigger.run_irqs HALF processor irq_before (Trigger.set_ready false s, d))
      as [s1 d1] eqn:Hbefore.
    destruct (Trigger.run_irqs HALF processor irq_during (s1, d1)) as [s2 d2] eqn:Hduring.
    simpl fst.
    destruct (Trigger.check_each_window HALF fft ps gi _) eqn:Htrig.
    + destruct (Z.eqb_spec (Acquisition.g_raw_half_frame_counter s2)
                  (Acquisition.g_raw_half_frame_counter s1)) as [Heq | Hne]; simpl.
      * repeat split; try congruence; try tauto.
      * repeat split; try congruence; try tauto.
    + simpl. repeat split; try congruence; try tauto.
  - simpl. repeat split; try congruence; try tauto.
Qed.

(** ** Buffer ring: the FIFO as a queue *)

Ltac unfold_fields :=
  cbn [Buffers.s_buffers Buffers.s_active_buffer_index Buffers.s_active_buffer_ptr
       Buffers.s_active_buffer_entry_count Buffers.s_unwrapped_filled_buffer_counter
       Buffers.s_buffer_fifo Buffers.s_buffer_fifo_next_read
       Buffers.s_buffer_fifo_next_write Buffers.s_buffer_fifo_count
       Buffers.s_is_triggered Buffers.s_trigger_unwrapped_buffer_count
       Buffers.s_final_unwrapped_buffer_for_trigger Buffers.s_mode
       Buffers.s_is_gated Buffers.s_gate_released_ticks Buffers.s_trigger_count
       Buffers.s_buffers_per_second Buffers.s_is_new_sequence
       Buffers.set_ring Buffers.set_unwrapped_filled_buffer_counter Buffers.set_fifo
       Buffers.set_trigger Buffers.set_is_triggered
       Buffers.set_final_unwrapped_buffer_for_trigger Buffers.set_gate
       Buffers.set_is_gated Buffers.set_trigger_count Buffers.set_is_new_sequence] in *.

Lemma fifo_length_value : Buffers.BUFFER_FIFO_LENGTH = 185.
Proof. reflexivity. Qed.

(** The cursor after a slot, as the FIFO functions compute it. *)
Lemma next_cursor i :
  0 <= i < Buffers.BUFFER_FIFO_LENGTH ->
  Int.to_uint32 (Buffers.add_and_wrap (Int.to_int32 i) 1 Buffers.BUFFER_FIFO_LENGTH)
  = if i + 1 <? Buffers.BUFFER_FIFO_LENGTH then i + 1 else 0.
Proof.
  rewrite fifo_length_value. intros Hi. unfold Buffers.add_and_wrap.
  rewrite (to_int32_id i) by (unfold Int.INT32_MIN, Int.INT32_MAX; lia).
  rewrite (to_int32_id (i + 1)) by (unfold Int.INT32_MIN, Int.INT32_MAX; lia).
  destruct (Z.leb_spec 185 (i + 1)); destruct (Z.ltb_spec (i + 1) 185); try lia.
  - replace (i + 1 - 185) with 0 by lia. reflexivity.
  - apply to_uint32_id. lia.
Qed.

Lemma next_cursor_mod i :
  0 <= i < Buffers.BUFFER_FIFO_LENGTH ->
  (if i + 1 <? Buffers.BUFFER_FIFO_LENGTH then i + 1 else 0)
  = (i + 1) mod Buffers.BUFFER_FIFO_LENGTH.
Proof.
  rewrite fifo_length_value. intros Hi.
  destruct (Z.ltb_spec (i + 1) 185).
  - rewrite Z.mod_small by lia. reflexivity.
  - replace (i + 1) with 185 by lia. reflexivity.
Qed.

Lemma nth_insert_Z_eq (l : list Z) (i x : Z) :
  0 <= i < Z.of_nat (length l) -> nth (Z.to_nat i) (<[Z.to_nat i := x]> l) 0 = x.
Proof. intros H. apply nth_insert_eq. lia. Qed.

Lemma nth_insert_Z_ne (l : list Z) (i j x : Z) :
  0 <= i -> 0 <= j -> i <> j ->
  nth (Z.to_nat j) (<[Z.to_nat i := x]> l) 0 = nth (Z.to_nat j) l 0.
Proof. intros Hi Hj H. apply nth_insert_ne. lia. Qed.

(** Storing at the slot that follows the [n] occupied ones leaves those
    alone and appends to what is read. *)
Lemma fifo_read_put n :
  forall i fifo x,
    length fifo = Z.to_nat Buffers.BUFFER_FIFO_LENGTH ->
    0 <= i < Buffers.BUFFER_FIFO_LENGTH ->
    Z.of_nat n < Buffers.BUFFER_FIFO_LENGTH ->
    Buffers.fifo_read (S n) i
      (<[Z.to_nat ((i + Z.of_nat n) mod Buffers.BUFFER_FIFO_LENGTH) := x]> fifo)
    = Buffers.fifo_read n i fifo ++ [x].
Proof.
  induction n as [|n IH]; intros i fifo x Hlen Hi Hn.
  - simpl. rewrite Z.add_0_r, Z.mod_small by lia.
    rewrite nth_insert_Z_eq; [reflexivity|]. rewrite Hlen. lia.
  - cbn [Buffers.fifo_read app]. f_equal.
    + apply nth_insert_Z_ne; [apply Z.mod_pos_bound; lia | lia |].
      rewrite fifo_length_value in *.
      destruct (Z.ltb_spec (i + Z.of_nat (S n)) 185).
      * rewrite Z.mod_small by lia. lia.
      * replace (i + Z.of_nat (S n)) with ((i + Z.of_nat (S n) - 185) + 1 * 185) by lia.
        rewrite Z.mod_add, Z.mod_small by lia. lia.
    + set (i' := if i + 1 <? Buffers.BUFFER_FIFO_LENGTH then i + 1 else 0).
      assert (0 <= i' < Buffers.BUFFER_FIFO_LENGTH) as Hi'
        by (unfold i'; destruct (Z.ltb_spec (i + 1) Buffers.BUFFER_FIFO_LENGTH); lia).
      replace ((i + Z.of_nat (S n)) mod Buffers.BUFFER_FIFO_LENGTH)
        with ((i' + Z.of_nat n) mod Buffers.BUFFER_FIFO_LENGTH).
      * apply (IH i' fifo x Hlen Hi'). lia.
      * unfold i'. rewrite next_cursor_mod by assumption.
        rewrite Zplus_mod_idemp_l. f_equal. lia.
Qed.

Lemma put_fifo_wf x s :
  Buffers.fifo_wf s ->
  Buffers.s_buffer_fifo_count s < Buffers.BUFFER_FIFO_LENGTH ->
  Buffers.fifo_wf (Buffers.buffer_fifo_put x s).
Proof.
  intros (Hlen & Hr & Hc & Hw) Hroom. unfold Buffers.fifo_wf, Buffers.buffer_fifo_put.
  unfold_fields. rewrite fifo_length_value in *.
  assert (0 <= Buffers.s_buffer_fifo_next_write s < 185) as Hwr
    by (rewrite Hw; apply Z.mod_pos_bound; lia).
  rewrite next_cursor, next_cursor_mod by (rewrite fifo_length_value; lia).
  rewrite fifo_length_value.
  rewrite (to_uint32_id (Buffers.s_buffer_fifo_count s + 1)) by lia.
  repeat split; try lia.
  - rewrite length_insert. exact Hlen.
  - rewrite Hw, Zplus_mod_idemp_l. f_equal. lia.
Qed.

Lemma put_fifo_count x s :
  0 <= Buffers.s_buffer_fifo_count s < Buffers.BUFFER_FIFO_LENGTH ->
  Buffers.s_buffer_fifo_count (Buffers.buffer_fifo_put x s)
  = Buffers.s_buffer_fifo_count s + 1.
Proof.
  rewrite fifo_length_value. intros H. unfold Buffers.buffer_fifo_put. unfold_fields.
  apply to_uint32_id. lia.
Qed.

(** An enqueue below the capacity keeps every unconsumed token and adds the
    new one at the end. *)
Lemma put_fifo_contents x s :
  Buffers.fifo_wf s ->
  Buffers.s_buffer_fifo_count s < Buffers.BUFFER_FIFO_LENGTH ->
  Buffers.fifo_contents (Buffers.buffer_fifo_put x s) = Buffers.fifo_contents s ++ [x].
Proof.
  intros (Hlen & Hr & Hc & Hw) Hroom. unfold Buffers.fifo_contents.
  rewrite put_fifo_count by lia.
  unfold Buffers.buffer_fifo_put. unfold_fields.
  replace (Z.to_nat (Buffers.s_buffer_fifo_count s + 1))
    with (S (Z.to_nat (Buffers.s_buffer_fifo_count s))) by lia.
  rewrite Hw.
  pose proof (fifo_read_put (Z.to_nat (Buffers.s_buffer_fifo_count s))
                (Buffers.s_buffer_fifo_next_read s) (Buffers.s_buffer_fifo s) x
                Hlen Hr ltac:(lia)) as H.
  rewrite Z2Nat.id in H by lia. exact H.
Qed.

Lemma sniff_fifo_contents s :
  Buffers.fifo_wf s ->
  Buffers.buffer_fifo_sniff s = head (Buffers.fifo_contents s).
Proof.
  intros (Hlen & Hr & Hc & Hw). unfold Buffers.buffer_fifo_sniff, Buffers.fifo_contents.
  destruct (Z.ltb_spec 0 (Buffers.s_buffer_fifo_count s)).
  - destruct (Z.to_nat (Buffers.s_buffer_fifo_count s)) eqn:E; [lia|]. reflexivity.
  - replace (Buffers.s_buffer_fifo_count s) with 0 by lia. reflexivity.
Qed.

(** A dequeue returns the oldest token and leaves the others. *)
Lemma get_fifo_contents s token rest :
  Buffers.fifo_wf s ->
  Buffers.fifo_contents s = token :: rest ->
  fst (Buffers.buffer_fifo_get s) = Some token
  /\ Buffers.fifo_contents (snd (Buffers.buffer_fifo_get s)) = rest
  /\ Buffers.fifo_wf (snd (Buffers.buffer_fifo_get s))
  /\ Buffers.s_buffer_fifo_count (snd (Buffers.buffer_fifo_get s))
     = Buffers.s_buffer_fifo_count s - 1.
Proof.
  intros (Hlen & Hr & Hc & Hw) Hcontents.
  unfold Buffers.fifo_contents in *. unfold Buffers.buffer_fifo_get.
  destruct (Z.to_nat (Buffers.s_buffer_fifo_count s)) as [|n] eqn:En;
    [discriminate|].
  cbn [Buffers.fifo_read] in Hcontents. injection Hcontents as Htok Hrest.
  destruct (Z.ltb_spec 0 (Buffers.s_buffer_fifo_count s)); [|lia].
  cbn [fst snd]. unfold Buffers.fifo_wf. unfold_fields.
  rewrite next_cursor by assumption.
  rewrite fifo_length_value in *.
  rewrite (to_uint32_id (Buffers.s_buffer_fifo_count s - 1)) by lia.
  replace (Z.to_nat (Buffers.s_buffer_fifo_count s - 1)) with n by lia.
  split; [f_equal; exact Htok|]. split; [exact Hrest|]. split; [|reflexivity].
  split; [exact Hlen|]. split; [|split; [lia|]].
  - destruct (Z.ltb_spec (Buffers.s_buffer_fifo_next_read s + 1) 185); lia.
  - rewrite Hw.
    pose proof (next_cursor_mod (Buffers.s_buffer_fifo_next_read s)) as Hm.
    rewrite fifo_length_value in Hm. rewrite Hm by lia.
    rewrite Zplus_mod_idemp_l. f_equal. lia.
Qed.

(** ** Buffer ring: the sample-append operation *)

Lemma ring_constants :
  Buffers.NUM_BUFFERS = 37 /\ Buffers.DATA_BUFFER_ENTRIES = 32768
  /\ Buffers.BUFFER_DELTA = 2.
Proof. repeat split. Qed.

(** A copy whose destination range lies inside [s_buffers] succeeds. *)
Lemma copy_samples_in_bounds n :
  forall src dst mem,
    0 <= dst ->
    dst + Z.of_nat n <= Buffers.NUM_BUFFERS * Buffers.DATA_BUFFER_ENTRIES ->
    exists mem' src', Buffers.copy_samples n src dst mem = Some (mem', src').
Proof.
  induction n as [|n IH]; intros src dst mem Hdst Hend; simpl.
  - eauto.
  - unfold Buffers.store.
    destruct (Z.leb_spec 0 dst); [|lia].
    destruct (Z.ltb_spec dst (Buffers.NUM_BUFFERS * Buffers.DATA_BUFFER_ENTRIES)); [|lia].
    simpl. apply IH; lia.
Qed.

(** A copy that runs past the end of [s_buffers] does not. *)
Lemma copy_samples_out_of_bounds n :
  forall src dst mem,
    0 <= dst ->
    Buffers.NUM_BUFFERS * Buffers.DATA_BUFFER_ENTRIES < dst + Z.of_nat n ->
    (0 < n)%nat ->
    Buffers.copy_samples n src dst mem = None.
Proof.
  induction n as [|n IH]; intros src dst mem Hdst Hend Hn; [lia|].
  simpl. unfold Buffers.store.
  destruct (Z.leb_spec 0 dst); [|lia].
  destruct (Z.ltb_spec dst (Buffers.NUM_BUFFERS * Buffers.DATA_BUFFER_ENTRIES));
    simpl; [|reflexivity].
  apply IH; lia.
Qed.

Ltac case_condition :=
  match goal with
  | |- context [if ?c then _ else _] =>
      lazymatch c with
      | true => fail
      | false => fail
      | _ => destruct c eqn:?; cbv beta iota
      end
  end.

(** Normalise states built from a record in constructor form. *)
Ltac state_cbv :=
  cbv beta iota zeta delta
    [Buffers.s_buffers Buffers.s_active_buffer_index Buffers.s_active_buffer_ptr
     Buffers.s_active_buffer_entry_count Buffers.s_unwrapped_filled_buffer_counter
     Buffers.s_buffer_fifo Buffers.s_buffer_fifo_next_read
     Buffers.s_buffer_fifo_next_write Buffers.s_buffer_fifo_count
     Buffers.s_is_triggered Buffers.s_trigger_unwrapped_buffer_count
     Buffers.s_final_unwrapped_buffer_for_trigger Buffers.s_mode
     Buffers.s_is_gated Buffers.s_gate_released_ticks Buffers.s_trigger_count
     Buffers.s_buffers_per_second Buffers.s_is_new_sequence
     Buffers.set_ring Buffers.set_unwrapped_filled_buffer_counter Buffers.set_fifo
     Buffers.set_trigger Buffers.set_is_triggered
     Buffers.set_final_unwrapped_buffer_for_trigger Buffers.set_gate
     Buffers.set_is_gated Buffers.set_trigger_count Buffers.set_is_new_sequence
     Buffers.buffer_fifo_put].

(** The sequencing of a filled buffer neither reads nor writes the ring
    variables. *)
Lemma enqueue_set_ring g mem index ptr entry_count s :
  Buffers.enqueue_filled_buffer g (Buffers.set_ring mem index ptr entry_count s)
  = Buffers.set_ring mem index ptr entry_count (Buffers.enqueue_filled_buffer g s).
Proof.
  destruct s as [? ? ? ? ? ? ? ? ? is_triggered ? ? mode ? ? ? ? ?].
  unfold Buffers.enqueue_filled_buffer. state_cbv.
  destruct mode, is_triggered, g; repeat case_condition; reflexivity.
Qed.

Lemma sequence_set_ring g mem index ptr entry_count s :
  Buffers.sequence_filled_buffer g (Buffers.set_ring mem index ptr entry_count s)
  = Buffers.set_ring mem index ptr entry_count (Buffers.sequence_filled_buffer g s).
Proof.
  unfold Buffers.sequence_filled_buffer. cbv zeta. rewrite enqueue_set_ring.
  generalize (Buffers.enqueue_filled_buffer g s). intros [].
  state_cbv. reflexivity.
Qed.

Lemma next_buffer_index_range s :
  0 <= Buffers.s_active_buffer_index s < Buffers.NUM_BUFFERS ->
  0 <= Buffers.next_buffer_index s < Buffers.NUM_BUFFERS.
Proof.
  unfold Buffers.next_buffer_index, Buffers.NUM_BUFFERS. intros H.
  rewrite to_int32_id by (unfold Int.INT32_MIN, Int.INT32_MAX; lia).
  destruct (Z.leb_spec 37 (Buffers.s_active_buffer_index s + 1)); lia.
Qed.

Lemma set_ring_set_ring mem index ptr entry_count mem' index' ptr' entry_count' s :
  Buffers.set_ring mem index ptr entry_count
    (Buffers.set_ring mem' index' ptr' entry_count' s)
  = Buffers.set_ring mem index ptr entry_count s.
Proof. destruct s. reflexivity. Qed.

Lemma to_uint32_negative x : - 2 ^ 31 <= x < 0 -> Int.to_uint32 x = x + 2 ^ 32.
Proof.
  intros H. unfold Int.to_uint32, Int.to_unsigned.
  replace x with ((x + 2 ^ 32) + (-1) * 2 ^ 32) at 1 by lia.
  rewrite Z.mod_add by lia. apply Z.mod_small. lia.
Qed.

(** What a call of the sample-append operation does to a coherent ring when
    it is not discarding: either the samples fit in the active slot, or the
    slot is completed, the filled buffer is sequenced, and the rest of the
    samples starts the next slot.  A negative count that takes the fill
    below zero also switches slots, the fill test being unsigned. *)
Lemma append_spec ps pDMABuffer dma_buffer_offset count s :
  Buffers.ring_wf s ->
  Int.INT32_MIN <= count <= Buffers.DATA_BUFFER_ENTRIES ->
  Settings.gated_recording ps && Buffers.s_is_gated s = false ->
  exists mem,
    Buffers.data_processor_buffers ps pDMABuffer dma_buffer_offset count s
    = Some
        (if (0 <=? Buffers.s_active_buffer_entry_count s + count)
            && (Buffers.s_active_buffer_entry_count s + count
                <? Buffers.DATA_BUFFER_ENTRIES)
         then Buffers.set_ring mem (Buffers.s_active_buffer_index s)
                (Buffers.s_active_buffer_ptr s)
                (Buffers.s_active_buffer_entry_count s + count) s
         else Buffers.set_ring mem (Buffers.next_buffer_index s)
                (Buffers.next_buffer_index s * Buffers.DATA_BUFFER_ENTRIES)
                (Z.max 0 (Buffers.s_active_buffer_entry_count s + count
                          - Buffers.DATA_BUFFER_ENTRIES))
                (Buffers.sequence_filled_buffer (Settings.gated_recording ps) s)).
Proof.
  intros (Hidx & Hent & Hptr) Hcount Hgate.
  pose proof (next_buffer_index_range s Hidx) as Hnext.
  destruct ring_constants as (HN & HD & _).
  unfold Int.INT32_MIN in Hcount.
  unfold Buffers.data_processor_buffers. rewrite Hgate.
  set (e := Buffers.s_active_buffer_entry_count s) in *.
  set (D := Buffers.DATA_BUFFER_ENTRIES) in *.
  set (g := Settings.gated_recording ps).
  assert (forall x, - 2 ^ 31 <= x <= 2 ^ 31 - 1 -> Int.to_int32 x = x) as Hi32
    by (intros x Hx; apply to_int32_id; unfold Int.INT32_MIN, Int.INT32_MAX; lia).
  rewrite (Hi32 (D - e)) by lia.
  destruct (Z.ltb_spec (D - e) count) as [Hfull | Hfit].
  - (* the first chunk fills the slot *)
    destruct (copy_samples_in_bounds (Z.to_nat (D - e))
                (drop (Z.to_nat dma_buffer_offset) pDMABuffer)
                (Buffers.s_active_buffer_ptr s + e) (Buffers.s_buffers s))
      as (mem1 & src1 & ->); [lia | lia |].
    unfold_fields.
    replace (e + (D - e)) with D by lia.
    rewrite (Hi32 D) by lia. rewrite (to_uint32_id D) by lia.
    rewrite Z.leb_refl.
    unfold Buffers.switch_buffer. fold D.
    change (Buffers.next_buffer_index
              (Buffers.set_ring mem1 (Buffers.s_active_buffer_index s)
                 (Buffers.s_active_buffer_ptr s) D s))
      with (Buffers.next_buffer_index s).
    unfold_fields. rewrite set_ring_set_ring, sequence_set_ring. unfold_fields.
    rewrite (Hi32 (count - (D - e))) by lia.
    destruct (Z.ltb_spec 0 (count - (D - e))); [|lia].
    destruct (copy_samples_in_bounds (Z.to_nat (count - (D - e))) src1
                (Buffers.next_buffer_index s * D + 0) mem1)
      as (mem2 & src2 & ->); [lia | lia |].
    exists mem2. rewrite set_ring_set_ring.
    destruct (Z.leb_spec 0 (e + count)); [|lia].
    destruct (Z.ltb_spec (e + count) D); [lia|]. cbn [andb].
    rewrite (Hi32 (0 + (count - (D - e)))) by lia.
    replace (0 + (count - (D - e))) with (Z.max 0 (e + count - D)) by lia.
    reflexivity.
  - (* the samples are copied in one chunk *)
    destruct (copy_samples_in_bounds (Z.to_nat count)
                (drop (Z.to_nat dma_buffer_offset) pDMABuffer)
                (Buffers.s_active_buffer_ptr s + e) (Buffers.s_buffers s))
      as (mem1 & src1 & ->); [lia | lia |].
    unfold_fields. exists mem1.
    rewrite (Hi32 (e + count)) by lia.
    replace (count - count) with 0 by lia.
    rewrite (Hi32 0) by lia. rewrite Z.ltb_irrefl.
    destruct (Z.leb_spec 0 (e + count)) as [Hpos | Hneg].
    + rewrite (to_uint32_id (e + count)) by lia.
      destruct (Z.leb_spec D (e + count)); destruct (Z.ltb_spec (e + count) D);
        try lia; cbn [andb]; [|reflexivity].
      unfold Buffers.switch_buffer. fold D.
      change (Buffers.next_buffer_index
                (Buffers.set_ring mem1 (Buffers.s_active_buffer_index s)
                   (Buffers.s_active_buffer_ptr s) (e + count) s))
        with (Buffers.next_buffer_index s).
      unfold_fields. rewrite set_ring_set_ring, sequence_set_ring.
      replace (Z.max 0 (e + count - D)) with 0 by lia. reflexivity.
    + cbn [andb]. rewrite to_uint32_negative by lia.
      destruct (Z.leb_spec D (e + count + 2 ^ 32)); [|lia].
      unfold Buffers.switch_buffer. fold D.
      change (Buffers.next_buffer_index
                (Buffers.set_ring mem1 (Buffers.s_active_buffer_index s)
                   (Buffers.s_active_buffer_ptr s) (e + count) s))
        with (Buffers.next_buffer_index s).
      unfold_fields. rewrite set_ring_set_ring, sequence_set_ring.
      replace (Z.max 0 (e + count - D)) with 0 by lia. reflexivity.
Qed.

(** The sequencing of a filled buffer changes only the FIFO, the triggered
    flag, the gate and the counter of filled buffers. *)
Lemma enqueue_preserves g s :
  let s' := Buffers.enqueue_filled_buffer g s in
  Buffers.s_buffers s' = Buffers.s_buffers s
  /\ Buffers.s_active_buffer_index s' = Buffers.s_active_buffer_index s
  /\ Buffers.s_active_buffer_ptr s' = Buffers.s_active_buffer_ptr s
  /\ Buffers.s_active_buffer_entry_count s' = Buffers.s_active_buffer_entry_count s
  /\ Buffers.s_unwrapped_filled_buffer_counter s'
     = Buffers.s_unwrapped_filled_buffer_counter s
  /\ Buffers.s_final_unwrapped_buffer_for_trigger s'
     = Buffers.s_final_unwrapped_buffer_for_trigger s
  /\ Buffers.s_mode s' = Buffers.s_mode s
  /\ Buffers.s_gate_released_ticks s' = Buffers.s_gate_released_ticks s
  /\ Buffers.s_buffers_per_second s' = Buffers.s_buffers_per_second s
  /\ Buffers.s_is_new_sequence s' = Buffers.s_is_new_sequence s
  /\ Buffers.s_buffer_fifo_next_read s' = Buffers.s_buffer_fifo_next_read s.
Proof.
  destruct s as [? ? ? ? ? ? ? ? ? is_triggered ? ? mode ? ? ? ? ?].
  unfold Buffers.enqueue_filled_buffer. state_cbv.
  destruct mode, is_triggered, g; repeat case_condition; repeat split.
Qed.

Lemma sequence_fill g s :
  Buffers.s_unwrapped_filled_buffer_counter (Buffers.sequence_filled_buffer g s)
  = Int.to_int32 (Buffers.s_unwrapped_filled_buffer_counter s + 1).
Proof.
  unfold Buffers.sequence_filled_buffer. cbv zeta. unfold_fields.
  destruct (enqueue_preserves g s) as (_ & _ & _ & _ & -> & _). reflexivity.
Qed.

(** C10.  For a coherent ring (active slot index in range, fill of the active
    slot below [DATA_BUFFER_ENTRIES], write pointer at the start of the
    active slot) and a sample count that is at most [DATA_BUFFER_ENTRIES],
    every store of the sample-append operation lands inside [s_buffers], the
    ring is coherent afterwards, and the call switches slot at most once.
    With a larger count the bound is lost: the second chunk is copied
    without a further fill test, and runs past the end of [s_buffers]. *)
Theorem append_stays_within_buffers :
  (forall (ps : Settings.settings_t) (pDMABuffer : list Z)
          (dma_buffer_offset count : Z) (s : Buffers.state),
     Buffers.ring_wf s ->
     Int.INT32_MIN <= count <= Buffers.DATA_BUFFER_ENTRIES ->
     exists s',
       Buffers.data_processor_buffers ps pDMABuffer dma_buffer_offset count s = Some s'
       /\ Buffers.ring_wf s'
       /\ ((Buffers.s_unwrapped_filled_buffer_counter s'
            = Buffers.s_unwrapped_filled_buffer_counter s
            /\ Buffers.s_active_buffer_index s' = Buffers.s_active_buffer_index s)
           \/ (Buffers.s_unwrapped_filled_buffer_counter s'
               = Int.to_int32 (Buffers.s_unwrapped_filled_buffer_counter s + 1)
               /\ Buffers.s_active_buffer_index s' = Buffers.next_buffer_index s)))
  /\ (exists (s : Buffers.state) (count : Z),
        Buffers.ring_wf s
        /\ Buffers.DATA_BUFFER_ENTRIES < count <= Int.INT32_MAX
        /\ Buffers.data_processor_buffers (Buffers.default_settings false 2) [] 0 count s
           = None).
Proof.
  split.
  - intros ps pDMABuffer dma_buffer_offset count s Hwf Hcount.
    destruct (Settings.gated_recording ps && Buffers.s_is_gated s) eqn:Hgate.
    + exists s. unfold Buffers.data_processor_buffers. rewrite Hgate.
      split; [reflexivity|]. split; [assumption|]. left. split; reflexivity.
    + destruct (append_spec ps pDMABuffer dma_buffer_offset count s Hwf Hcount Hgate)
        as [mem ->].
      destruct Hwf as (Hidx & Hent & Hptr).
      pose proof (next_buffer_index_range s Hidx) as Hnext.
      unfold Int.INT32_MIN in Hcount.
      destruct (Z.leb_spec 0 (Buffers.s_active_buffer_entry_count s + count));
        destruct (Z.ltb_spec (Buffers.s_active_buffer_entry_count s + count)
                    Buffers.DATA_BUFFER_ENTRIES); cbn [andb];
        eexists; (split; [reflexivity|]); unfold Buffers.ring_wf; unfold_fields.
      * split; [repeat split; try lia; assumption|]. left. split; reflexivity.
      * split; [repeat split; lia|]. right. split; [apply sequence_fill | reflexivity].
      * split; [repeat split; lia|]. right. split; [apply sequence_fill | reflexivity].
      * split; [repeat split; lia|]. right. split; [apply sequence_fill | reflexivity].
  - exists (Buffers.set_ring ∅ 35 (35 * Buffers.DATA_BUFFER_ENTRIES) 0
              Buffers.initial_state), (2 * Buffers.DATA_BUFFER_ENTRIES + 1).
    split; [|split].
    + unfold Buffers.ring_wf, Buffers.NUM_BUFFERS, Buffers.DATA_BUFFER_ENTRIES.
      unfold_fields. lia.
    + unfold Buffers.DATA_BUFFER_ENTRIES, Int.INT32_MAX. lia.
    + vm_compute. reflexivity.
Qed.

Lemma append_stays_within_buffers_witness :
  exists s',
    Buffers.data_processor_buffers (Buffers.default_settings false 2)
      [1; 2; 3; 4] 0 4 Buffers.initial_state = Some s'
    /\ Buffers.ring_wf s'
    /\ ((Buffers.s_unwrapped_filled_buffer_counter s'
         = Buffers.s_unwrapped_filled_buffer_counter Buffers.initial_state
         /\ Buffers.s_active_buffer_index s'
            = Buffers.s_active_buffer_index Buffers.initial_state)
        \/ (Buffers.s_unwrapped_filled_buffer_counter s'
            = Int.to_int32
                (Buffers.s_unwrapped_filled_buffer_counter Buffers.initial_state + 1)
            /\ Buffers.s_active_buffer_index s'
               = Buffers.next_buffer_index Buffers.initial_state)).
Proof.
  apply (proj1 append_stays_within_buffers).
  - unfold Buffers.ring_wf, Buffers.NUM_BUFFERS, Buffers.DATA_BUFFER_ENTRIES. simpl. lia.
  - unfold Int.INT32_MIN, Buffers.DATA_BUFFER_ENTRIES. lia.
Defined.

(** ** Buffer ring: sequencing a filled buffer *)


Lemma same_fifo_refl s : Buffers.same_fifo s s.
Proof. repeat split. Qed.

Lemma same_fifo_contents s1 s2 :
  Buffers.same_fifo s1 s2 -> Buffers.fifo_contents s1 = Buffers.fifo_contents s2.
Proof.
  intros (H1 & H2 & H3 & H4). unfold Buffers.fifo_contents.
  rewrite H1, H2, H4. reflexivity.
Qed.

Lemma same_fifo_wf s1 s2 : Buffers.same_fifo s1 s2 -> Buffers.fifo_wf s2 -> Buffers.fifo_wf s1.
Proof.
  intros (H1 & H2 & H3 & H4). unfold Buffers.fifo_wf.
  rewrite H1, H2, H3, H4. tauto.
Qed.

Lemma same_fifo_put x s1 s2 :
  Buffers.same_fifo s1 s2 ->
  Buffers.same_fifo (Buffers.buffer_fifo_put x s1) (Buffers.buffer_fifo_put x s2).
Proof.
  intros (H1 & H2 & H3 & H4). unfold Buffers.same_fifo, Buffers.buffer_fifo_put.
  unfold_fields. rewrite H1, H2, H3, H4. repeat split.
Qed.

Lemma same_fifo_set_ring mem index ptr entry_count s :
  Buffers.same_fifo (Buffers.set_ring mem index ptr entry_count s) s.
Proof. repeat split. Qed.



Lemma same_fifo_set_gate b ticks s : Buffers.same_fifo (Buffers.set_gate b ticks s) s.
Proof. repeat split. Qed.


Lemma same_fifo_set_trigger b n m s : Buffers.same_fifo (Buffers.set_trigger b n m s) s.
Proof. repeat split. Qed.


Lemma same_fifo_set_counter n s :
  Buffers.same_fifo (Buffers.set_unwrapped_filled_buffer_counter n s) s.
Proof. repeat split. Qed.

Lemma same_fifo_set_is_new_sequence b s :
  Buffers.same_fifo (Buffers.set_is_new_sequence b s) s.
Proof. repeat split. Qed.

Lemma same_fifo_trans s1 s2 s3 : Buffers.same_fifo s1 s2 -> Buffers.same_fifo s2 s3 -> Buffers.same_fifo s1 s3.
Proof.
  intros (H1 & H2 & H3 & H4) (K1 & K2 & K3 & K4). unfold Buffers.same_fifo.
  rewrite H1, H2, H3, H4. tauto.
Qed.

(** What an enqueue does, in terms of the queue: the contents grow by the
    token, the count by one, and the FIFO stays coherent. *)
Lemma put_spec x s :
  Buffers.fifo_wf s ->
  Buffers.s_buffer_fifo_count s < Buffers.BUFFER_FIFO_LENGTH ->
  Buffers.fifo_contents (Buffers.buffer_fifo_put x s) = Buffers.fifo_contents s ++ [x]
  /\ Buffers.fifo_wf (Buffers.buffer_fifo_put x s)
  /\ Buffers.s_buffer_fifo_count (Buffers.buffer_fifo_put x s)
     = Buffers.s_buffer_fifo_count s + 1.
Proof.
  intros Hwf Hroom. split; [apply put_fifo_contents; assumption|].
  split; [apply put_fifo_wf; assumption|].
  apply put_fifo_count. destruct Hwf as (_ & _ & Hc & _). lia.
Qed.




Lemma same_control_set_ring mem index ptr entry_count s :
  Buffers.same_control (Buffers.set_ring mem index ptr entry_count s) s.
Proof. repeat split. Qed.

(** A call that completes the active slot: the filled buffer is sequenced
    and the samples left over start the next slot. *)
Lemma append_completes ps pDMABuffer dma_buffer_offset count s :
  Buffers.ring_wf s ->
  0 <= count <= Buffers.DATA_BUFFER_ENTRIES ->
  Settings.gated_recording ps && Buffers.s_is_gated s = false ->
  Buffers.DATA_BUFFER_ENTRIES <= Buffers.s_active_buffer_entry_count s + count ->
  exists s',
    Buffers.data_processor_buffers ps pDMABuffer dma_buffer_offset count s = Some s'
    /\ Buffers.same_control s'
         (Buffers.sequence_filled_buffer (Settings.gated_recording ps) s)
    /\ Buffers.ring_wf s'
    /\ Buffers.s_active_buffer_index s' = Buffers.next_buffer_index s
    /\ Buffers.s_active_buffer_entry_count s'
       = Buffers.s_active_buffer_entry_count s + count - Buffers.DATA_BUFFER_ENTRIES.
Proof.
  intros Hwf Hcount Hgate Hfull.
  destruct (append_spec ps pDMABuffer dma_buffer_offset count s Hwf
              ltac:(unfold Int.INT32_MIN; lia) Hgate) as [mem ->].
  destruct Hwf as (Hidx & Hent & Hptr).
  pose proof (next_buffer_index_range s Hidx) as Hnext.
  destruct (Z.ltb_spec (Buffers.s_active_buffer_entry_count s + count)
              Buffers.DATA_BUFFER_ENTRIES); [lia|].
  rewrite andb_false_r. eexists. split; [reflexivity|].
  split; [apply same_control_set_ring|].
  unfold Buffers.ring_wf. unfold_fields. repeat split; lia.
Qed.



(** The sequencing of a filled buffer, seen through [same_control]. *)
Lemma sequence_same_fifo g s :
  Buffers.same_fifo (Buffers.sequence_filled_buffer g s)
    (Buffers.enqueue_filled_buffer g s).
Proof. apply same_fifo_set_counter. Qed.




(** ** Gated recording *)



(** ** Trigger events *)










Lemma trigger_guard_rejects main_tick_count s :
  ~ Buffers.trigger_accepted main_tick_count s ->
  Buffers.s_is_gated s
  || (main_tick_count <? Int.to_int32 (Buffers.s_gate_released_ticks s + 10)) = true.
Proof.
  intros Hrej. unfold Buffers.trigger_accepted in Hrej.
  destruct (Buffers.s_is_gated s); [reflexivity|]. cbn [orb].
  apply Z.ltb_lt. destruct (Z.lt_ge_cases main_tick_count
    (Int.to_int32 (Buffers.s_gate_released_ticks s + 10))); [assumption|].
  exfalso. apply Hrej. split; [reflexivity | lia].
Qed.

(** A trigger event that the guard rejects changes nothing. *)
Lemma on_trigger_ignored ps main_tick_count s :
  ~ Buffers.trigger_accepted main_tick_count s ->
  Buffers.data_processor_buffers_on_trigger ps main_tick_count s = s.
Proof.
  intros Hrej. unfold Buffers.data_processor_buffers_on_trigger. cbv zeta.
  rewrite (trigger_guard_rejects _ _ Hrej). reflexivity.
Qed.







(** ** Steps of a run, seen through the control variables *)






(** ** The consumer: [dataprocessor_buffers_get_next] *)

Lemma consumer_only_refl s : Buffers.consumer_only s s.
Proof.
  exists (Buffers.s_buffer_fifo_next_read s), (Buffers.s_buffer_fifo_count s),
    (Buffers.s_is_new_sequence s).
  destruct s. reflexivity.
Qed.

Lemma consumer_only_trans s1 s2 s3 :
  Buffers.consumer_only s1 s2 -> Buffers.consumer_only s2 s3 ->
  Buffers.consumer_only s1 s3.
Proof.
  intros (R1 & C1 & b1 & ->) (R2 & C2 & b2 & ->).
  exists R1, C1, b1. destruct s3. reflexivity.
Qed.

Lemma consumer_only_get s : Buffers.consumer_only (snd (Buffers.buffer_fifo_get s)) s.
Proof.
  unfold Buffers.buffer_fifo_get.
  destruct (0 <? Buffers.s_buffer_fifo_count s); cbn [snd].
  - exists (Int.to_uint32
              (Buffers.add_and_wrap (Int.to_int32 (Buffers.s_buffer_fifo_next_read s)) 1
                 Buffers.BUFFER_FIFO_LENGTH)),
      (Int.to_uint32 (Buffers.s_buffer_fifo_count s - 1)),
      (Buffers.s_is_new_sequence s).
    destruct s. state_cbv. reflexivity.
  - apply consumer_only_refl.
Qed.

Lemma consumer_only_new_sequence b s :
  Buffers.consumer_only (Buffers.set_is_new_sequence b s) s.
Proof.
  exists (Buffers.s_buffer_fifo_next_read s), (Buffers.s_buffer_fifo_count s), b.
  destruct s. reflexivity.
Qed.

(** What the consumer leaves alone. *)
Lemma consumer_only_fields s' s :
  Buffers.consumer_only s' s ->
  Buffers.s_unwrapped_filled_buffer_counter s' = Buffers.s_unwrapped_filled_buffer_counter s
  /\ Buffers.s_active_buffer_index s' = Buffers.s_active_buffer_index s
  /\ Buffers.s_is_triggered s' = Buffers.s_is_triggered s
  /\ Buffers.s_is_gated s' = Buffers.s_is_gated s
  /\ Buffers.s_final_unwrapped_buffer_for_trigger s'
     = Buffers.s_final_unwrapped_buffer_for_trigger s
  /\ Buffers.s_mode s' = Buffers.s_mode s
  /\ Buffers.s_buffers_per_second s' = Buffers.s_buffers_per_second s
  /\ Buffers.s_gate_released_ticks s' = Buffers.s_gate_released_ticks s
  /\ Buffers.s_buffers s' = Buffers.s_buffers s
  /\ Buffers.s_active_buffer_ptr s' = Buffers.s_active_buffer_ptr s
  /\ Buffers.s_active_buffer_entry_count s' = Buffers.s_active_buffer_entry_count s.
Proof. intros (R & C & b & ->). repeat split. Qed.




(** One turn of the loop, by the token at the head of the queue. *)
Lemma get_next_turn_empty gr s :
  Buffers.fifo_wf s -> Buffers.fifo_contents s = [] ->
  Buffers.get_next_turn gr s = (s, Buffers.Return None false).
Proof.
  intros Hwf Hc. unfold Buffers.get_next_turn.
  rewrite (sniff_fifo_contents s Hwf), Hc. reflexivity.
Qed.

Lemma get_next_turn_end gr s rest :
  Buffers.fifo_wf s ->
  Buffers.fifo_contents s = Buffers.BUFFERFIFO_END_SEQUENCE :: rest ->
  Buffers.get_next_turn gr s
  = (Buffers.set_is_new_sequence false (snd (Buffers.buffer_fifo_get s)),
     Buffers.Return None true).
Proof.
  intros Hwf Hc. unfold Buffers.get_next_turn.
  rewrite (sniff_fifo_contents s Hwf), Hc. reflexivity.
Qed.

Lemma get_next_turn_start gr s rest :
  Buffers.fifo_wf s ->
  Buffers.fifo_contents s = Buffers.BUFFERFIFO_START_SEQUENCE :: rest ->
  Buffers.get_next_turn gr s
  = (Buffers.set_is_new_sequence true (snd (Buffers.buffer_fifo_get s)),
     Buffers.Continue).
Proof.
  intros Hwf Hc. unfold Buffers.get_next_turn.
  rewrite (sniff_fifo_contents s Hwf), Hc. reflexivity.
Qed.

Lemma get_next_turn_out_of_window gr s token rest :
  Buffers.fifo_wf s ->
  Buffers.fifo_contents s = token :: rest ->
  Buffers.out_of_window token s ->
  Buffers.get_next_turn gr s = (snd (Buffers.buffer_fifo_get s), Buffers.Continue).
Proof.
  intros Hwf Hc (Hend & Hstart & Hout). unfold Buffers.get_next_turn.
  rewrite (sniff_fifo_contents s Hwf), Hc. cbn [head].
  destruct (Z.eqb_spec token Buffers.BUFFERFIFO_END_SEQUENCE); [contradiction|].
  destruct (Z.eqb_spec token Buffers.BUFFERFIFO_START_SEQUENCE); [contradiction|].
  destruct (Z.ltb_spec token (Buffers.oldest_retained s)); [reflexivity|].
  destruct (Z.leb_spec (Buffers.s_unwrapped_filled_buffer_counter s) token);
    [reflexivity | lia].
Qed.

Lemma get_next_turn_in_window gr s token rest :
  Buffers.fifo_wf s ->
  Buffers.fifo_contents s = token :: rest ->
  Buffers.in_window token s ->
  Buffers.get_next_turn gr s
  = (if gr || negb (Buffers.s_is_new_sequence s)
        || (Buffers.lead_of (Buffers.read_buffer_index_of token s) s
            <? Buffers.MAXIMUM_READ_LEAD)
     then (snd (Buffers.buffer_fifo_get (Buffers.set_is_new_sequence false s)),
           Buffers.Return (Some (Buffers.read_buffer_index_of token s)) false)
     else (s, Buffers.Return None false)).
Proof.
  intros Hwf Hc (Hend & Hstart & Hin). unfold Buffers.get_next_turn.
  rewrite (sniff_fifo_contents s Hwf), Hc. cbn [head].
  destruct (Z.eqb_spec token Buffers.BUFFERFIFO_END_SEQUENCE); [contradiction|].
  destruct (Z.eqb_spec token Buffers.BUFFERFIFO_START_SEQUENCE); [contradiction|].
  destruct (Z.ltb_spec token (Buffers.oldest_retained s)); [lia|].
  destruct (Z.leb_spec (Buffers.s_unwrapped_filled_buffer_counter s) token); [lia|].
  cbv zeta. destruct gr; reflexivity.
Qed.

(** Every token is of exactly one of the four kinds. *)
Lemma token_kind token s :
  token = Buffers.BUFFERFIFO_END_SEQUENCE
  \/ token = Buffers.BUFFERFIFO_START_SEQUENCE
  \/ Buffers.out_of_window token s
  \/ Buffers.in_window token s.
Proof.
  unfold Buffers.out_of_window, Buffers.in_window.
  destruct (Z.eq_dec token Buffers.BUFFERFIFO_END_SEQUENCE); [tauto|].
  destruct (Z.eq_dec token Buffers.BUFFERFIFO_START_SEQUENCE); [tauto|].
  destruct (Z_lt_dec token (Buffers.oldest_retained s)); [tauto|].
  destruct (Z_le_dec (Buffers.s_unwrapped_filled_buffer_counter s) token); [tauto|].
  right. right. right. repeat split; try assumption; lia.
Qed.

Lemma consumer_only_window token s' s :
  Buffers.consumer_only s' s ->
  (Buffers.out_of_window token s' <-> Buffers.out_of_window token s)
  /\ (Buffers.in_window token s' <-> Buffers.in_window token s)
  /\ Buffers.read_buffer_index_of token s' = Buffers.read_buffer_index_of token s.
Proof.
  intros (R & C & b & ->).
  split; [split; intros K; exact K|].
  split; [split; intros K; exact K|]. reflexivity.
Qed.

(** The loop of [get_next] on a coherent queue, with fuel beyond the
    occupancy: it discards a run of START tokens and data tokens outside the
    window, and then stops at the first END token (close the file), at the
    first data token inside the window (handed out, or left in place when the
    read lead is too large), or on the empty queue. *)
Lemma get_next_loop_spec fuel :
  forall gr s,
    Buffers.fifo_wf s ->
    (Z.to_nat (Buffers.s_buffer_fifo_count s) < fuel)%nat ->
    exists discarded,
      let '(s', pBuffer, close_file) := Buffers.get_next_loop fuel gr s in
      Forall (fun t => t = Buffers.BUFFERFIFO_START_SEQUENCE
                       \/ Buffers.out_of_window t s) discarded
      /\ Buffers.fifo_wf s'
      /\ Buffers.s_buffer_fifo_count s' <= Buffers.s_buffer_fifo_count s
      /\ match pBuffer with
         | Some b =>
             close_file = false
             /\ exists token,
                 Buffers.fifo_contents s = discarded ++ token :: Buffers.fifo_contents s'
                 /\ Buffers.in_window token s
                 /\ b = Buffers.read_buffer_index_of token s
         | None =>
             Buffers.fifo_contents s
             = discarded
               ++ (if close_file then [Buffers.BUFFERFIFO_END_SEQUENCE] else [])
               ++ Buffers.fifo_contents s'
         end.
Proof.
  induction fuel as [|fuel IH]; intros gr s Hwf Hfuel; [lia|].
  cbn [Buffers.get_next_loop].
  destruct (Buffers.fifo_contents s) as [|token rest] eqn:Hc.
  { rewrite (get_next_turn_empty gr s Hwf Hc). exists [].
    split; [constructor|]. split; [exact Hwf|]. split; [lia|].
    rewrite Hc. reflexivity. }
  destruct (get_fifo_contents s token rest Hwf Hc) as (_ & Hrest & Hwf1 & Hcount1).
  pose proof (consumer_only_get s) as Hcons1.
  set (s1 := snd (Buffers.buffer_fifo_get s)) in *.
  assert (Hpos : 0 < Buffers.s_buffer_fifo_count s).
  { unfold Buffers.fifo_contents in Hc.
    destruct (Z.to_nat (Buffers.s_buffer_fifo_count s)) eqn:E; [discriminate|lia]. }
  destruct (token_kind token s) as [-> | [-> | [Hout | Hin]]].
  - rewrite (get_next_turn_end gr s rest Hwf Hc). fold s1. exists [].
    split; [constructor|].
    split; [exact (same_fifo_wf _ _ (same_fifo_set_is_new_sequence false s1) Hwf1)|].
    split; [cbn; lia|].
    rewrite (same_fifo_contents _ _ (same_fifo_set_is_new_sequence false s1)), Hrest.
    reflexivity.
  - rewrite (get_next_turn_start gr s rest Hwf Hc). fold s1.
    set (s2 := Buffers.set_is_new_sequence true s1).
    assert (Hwf2 : Buffers.fifo_wf s2)
      by exact (same_fifo_wf _ _ (same_fifo_set_is_new_sequence true s1) Hwf1).
    assert (Hcount2 : Buffers.s_buffer_fifo_count s2 = Buffers.s_buffer_fifo_count s - 1)
      by exact Hcount1.
    assert (Hc2 : Buffers.fifo_contents s2 = rest).
    { unfold s2.
      rewrite (same_fifo_contents _ _ (same_fifo_set_is_new_sequence true s1)).
      exact Hrest. }
    assert (Hcons2 : Buffers.consumer_only s2 s).
    { eapply consumer_only_trans; [apply consumer_only_new_sequence | exact Hcons1]. }
    destruct (IH gr s2 Hwf2 ltac:(lia)) as (discarded & Hspec).
    exists (Buffers.BUFFERFIFO_START_SEQUENCE :: discarded).
    destruct (Buffers.get_next_loop fuel gr s2) as [[s' pBuffer] close_file].
    destruct Hspec as (Hall & Hwf' & Hle & Hres).
    split.
    { constructor; [left; reflexivity|].
      eapply Forall_impl; [exact Hall|]. intros t [Ht | Ht]; [left; exact Ht|].
      right. apply (consumer_only_window t s2 s Hcons2). exact Ht. }
    split; [exact Hwf'|]. split; [lia|].
    destruct pBuffer as [b|].
    + destruct Hres as (Hclose & tok & Heq & Hwin & Hb). split; [exact Hclose|].
      exists tok. rewrite Hc2 in Heq. rewrite Heq.
      split; [reflexivity|].
      split; [apply (consumer_only_window tok s2 s Hcons2); exact Hwin|].
      rewrite Hb. apply (consumer_only_window tok s2 s Hcons2).
    + rewrite Hc2 in Hres. rewrite Hres. reflexivity.
  - rewrite (get_next_turn_out_of_window gr s token rest Hwf Hc Hout). fold s1.
    destruct (IH gr s1 Hwf1 ltac:(lia)) as (discarded & Hspec).
    exists (token :: discarded).
    destruct (Buffers.get_next_loop fuel gr s1) as [[s' pBuffer] close_file].
    destruct Hspec as (Hall & Hwf' & Hle & Hres).
    split.
    { constructor; [right; exact Hout|].
      eapply Forall_impl; [exact Hall|]. intros t [Ht | Ht]; [left; exact Ht|].
      right. apply (consumer_only_window t s1 s Hcons1). exact Ht. }
    split; [exact Hwf'|]. split; [lia|].
    destruct pBuffer as [b|].
    + destruct Hres as (Hclose & tok & Heq & Hwin & Hb). split; [exact Hclose|].
      exists tok. rewrite Hrest in Heq. rewrite Heq.
      split; [reflexivity|].
      split; [apply (consumer_only_window tok s1 s Hcons1); exact Hwin|].
      rewrite Hb. apply (consumer_only_window tok s1 s Hcons1).
    + rewrite Hrest in Hres. rewrite Hres. reflexivity.
  - rewrite (get_next_turn_in_window gr s token rest Hwf Hc Hin).
    exists [].
    destruct (gr || negb (Buffers.s_is_new_sequence s)
              || (Buffers.lead_of (Buffers.read_buffer_index_of token s) s
                  <? Buffers.MAXIMUM_READ_LEAD)).
    + pose proof (same_fifo_set_is_new_sequence false s) as Hsame.
      destruct (get_fifo_contents (Buffers.set_is_new_sequence false s) token rest
                  (same_fifo_wf _ _ Hsame Hwf))
        as (_ & Hrest' & Hwf' & Hcount').
      { rewrite (same_fifo_contents _ _ Hsame). exact Hc. }
      split; [constructor|]. split; [exact Hwf'|].
      split; [rewrite Hcount'; cbn; lia|].
      split; [reflexivity|]. exists token. rewrite Hrest'.
      split; [reflexivity|]. split; [exact Hin | reflexivity].
    + split; [constructor|]. split; [exact Hwf|]. split; [lia|].
      rewrite Hc. reflexivity.
Qed.

(** ** Runs of slot completions *)

Lemma same_control_sym s1 s2 : Buffers.same_control s1 s2 -> Buffers.same_control s2 s1.
Proof.
  unfold Buffers.same_control, Buffers.same_fifo. intros H.
  repeat match goal with H : _ /\ _ |- _ => destruct H end.
  repeat split; symmetry; assumption.
Qed.







(** ** [get_next] and the tokens outside the retained window *)

Lemma get_next_gate_closed ps s :
  Settings.gated_recording ps && negb (Buffers.s_is_gated s) = true ->
  Buffers.dataprocessor_buffers_get_next ps s = (s, None, false).
Proof. intros H. unfold Buffers.dataprocessor_buffers_get_next. rewrite H. reflexivity. Qed.

Lemma get_next_reading ps s :
  Buffers.reading_enabled ps s ->
  Buffers.dataprocessor_buffers_get_next ps s
  = Buffers.get_next_loop (S (Z.to_nat (Buffers.s_buffer_fifo_count s)))
      (Settings.gated_recording ps) s.
Proof. intros H. unfold Buffers.dataprocessor_buffers_get_next. rewrite H. reflexivity. Qed.


Ltac decide_by_computation :=
  vm_compute;
  repeat match goal with
         | |- _ /\ _ => split
         | |- _ -> False => let H := fresh in intro H; discriminate H
         | |- _ = _ => reflexivity
         end.


Lemma reset_ring_wf mode samples_per_second s0 :
  Buffers.ring_wf (Buffers.data_processor_buffers_reset mode samples_per_second s0)
  /\ Buffers.s_active_buffer_entry_count
       (Buffers.data_processor_buffers_reset mode samples_per_second s0) = 0.
Proof. unfold Buffers.ring_wf. cbn. unfold Buffers.NUM_BUFFERS, Buffers.DATA_BUFFER_ENTRIES. lia. Qed.

Lemma length_silence n : length (Buffers.silence n) = n.
Proof. unfold Buffers.silence. apply length_replicate. Qed.



(** ** The occupancy of the FIFO under gated recording *)














(** ** Trigger events in any reachable state *)












(** ** A triggered sequence, from START to END *)







(** * Further properties of the modules *)

(** ** The FIFO of the buffer ring *)

Lemma get_tokens_contents n :
  forall s,
    Buffers.fifo_wf s ->
    n = Z.to_nat (Buffers.s_buffer_fifo_count s) ->
    fst (Buffers.get_tokens n s) = map Some (Buffers.fifo_contents s)
    /\ Buffers.fifo_wf (snd (Buffers.get_tokens n s))
    /\ Buffers.s_buffer_fifo_count (snd (Buffers.get_tokens n s)) = 0.
Proof.
  induction n as [|n IH]; intros s Hwf Hn.
  - cbn [Buffers.get_tokens fst snd]. unfold Buffers.fifo_contents. rewrite <- Hn.
    pose proof Hwf as (_ & _ & Hc & _).
    split; [reflexivity|]. split; [exact Hwf | lia].
  - destruct (Buffers.fifo_contents s) as [|token rest] eqn:Hc.
    { unfold Buffers.fifo_contents in Hc. rewrite <- Hn in Hc. discriminate. }
    destruct (get_fifo_contents s token rest Hwf Hc) as (Hget & Hrest & Hwf1 & Hcount1).
    cbn [Buffers.get_tokens].
    destruct (Buffers.buffer_fifo_get s) as [t s1]. cbn [fst snd] in *. subst t.
    destruct (IH s1 Hwf1 ltac:(lia)) as (Htokens & Hwf' & Hcount').
    destruct (Buffers.get_tokens n s1) as [tokens s2]. cbn [fst snd] in *.
    rewrite Htokens, Hrest.
    split; [reflexivity|]. split; [exact Hwf' | exact Hcount'].
Qed.

(** X1.  The FIFO hands tokens out in the order they were put.  On a
    coherent FIFO with room, a token that is put is returned by
    [buffer_fifo_get] after exactly the tokens queued before it, each
    returned once and in order; the FIFO is empty afterwards, and a further
    [buffer_fifo_get] or [buffer_fifo_sniff] returns nothing and changes
    nothing. *)
Theorem fifo_returns_tokens_in_put_order x s :
  Buffers.fifo_wf s ->
  Buffers.s_buffer_fifo_count s < Buffers.BUFFER_FIFO_LENGTH ->
  let drained :=
    Buffers.get_tokens (Z.to_nat (Buffers.s_buffer_fifo_count s) + 1)
      (Buffers.buffer_fifo_put x s) in
  fst drained = map Some (Buffers.fifo_contents s) ++ [Some x]
  /\ Buffers.s_buffer_fifo_count (snd drained) = 0
  /\ Buffers.buffer_fifo_get (snd drained) = (None, snd drained)
  /\ Buffers.buffer_fifo_sniff (snd drained) = None.
Proof.
  intros Hwf Hroom drained. subst drained.
  destruct (put_spec x s Hwf Hroom) as (Hc & Hwf' & Hcount).
  pose proof Hwf as (_ & _ & Hrange & _).
  destruct (get_tokens_contents (Z.to_nat (Buffers.s_buffer_fifo_count s) + 1)
              (Buffers.buffer_fifo_put x s) Hwf' ltac:(lia))
    as (Htokens & _ & Hempty).
  rewrite Htokens, Hc, map_app. split; [reflexivity|]. split; [exact Hempty|].
  unfold Buffers.buffer_fifo_get, Buffers.buffer_fifo_sniff. rewrite Hempty.
  split; reflexivity.
Qed.

Lemma fifo_returns_tokens_in_put_order_witness :
  fst (Buffers.get_tokens 3
         (Buffers.buffer_fifo_put 7
            (Buffers.buffer_fifo_put 6
               (Buffers.buffer_fifo_put 5 Buffers.initial_state))))
  = [Some 5; Some 6; Some 7].
Proof.
  assert (Hwf : Buffers.fifo_wf
                  (Buffers.buffer_fifo_put 6
                     (Buffers.buffer_fifo_put 5 Buffers.initial_state)))
    by decide_by_computation.
  destruct (fifo_returns_tokens_in_put_order 7 _ Hwf) as (Htokens & _).
  - vm_compute. reflexivity.
  - exact Htokens.
Defined.

(** ** The slot handed out for a token *)

Lemma oldest_retained_value s :
  0 <= Buffers.s_unwrapped_filled_buffer_counter s <= Int.INT32_MAX ->
  Buffers.oldest_retained s
  = Buffers.s_unwrapped_filled_buffer_counter s - Buffers.NUM_BUFFERS + 1.
Proof.
  intros H. unfold Buffers.oldest_retained, Buffers.NUM_BUFFERS, Int.INT32_MAX in *.
  rewrite !to_int32_id; unfold Int.INT32_MIN, Int.INT32_MAX;
    rewrite ?to_int32_id; unfold Int.INT32_MIN, Int.INT32_MAX; lia.
Qed.

Lemma read_buffer_index_value token s :
  0 <= Buffers.s_active_buffer_index s < Buffers.NUM_BUFFERS ->
  0 <= Buffers.s_unwrapped_filled_buffer_counter s <= Int.INT32_MAX ->
  Buffers.in_window token s ->
  Buffers.read_buffer_index_of token s
  = (Buffers.s_active_buffer_index s - 1
     - (Buffers.s_unwrapped_filled_buffer_counter s - token)) mod Buffers.NUM_BUFFERS
  /\ Buffers.s_unwrapped_filled_buffer_counter s - Buffers.NUM_BUFFERS + 1 <= token
     < Buffers.s_unwrapped_filled_buffer_counter s.
Proof.
  intros Hidx Hfill (_ & _ & Hwin).
  rewrite (oldest_retained_value s Hfill) in Hwin.
  split; [|exact Hwin].
  unfold Buffers.read_buffer_index_of, Buffers.NUM_BUFFERS, Int.INT32_MAX in *.
  assert (forall x, - 2 ^ 31 <= x <= 2 ^ 31 - 1 -> Int.to_int32 x = x) as Hi32
    by (intros x Hx; apply to_int32_id; unfold Int.INT32_MIN, Int.INT32_MAX; lia).
  rewrite (Hi32 (token - Buffers.s_unwrapped_filled_buffer_counter s)) by lia.
  rewrite (Hi32 (Buffers.s_active_buffer_index s - 1)) by lia.
  rewrite (Hi32 (token - Buffers.s_unwrapped_filled_buffer_counter s
                 + (Buffers.s_active_buffer_index s - 1))) by lia.
  set (r := token - Buffers.s_unwrapped_filled_buffer_counter s
            + (Buffers.s_active_buffer_index s - 1)).
  replace (Buffers.s_active_buffer_index s - 1
           - (Buffers.s_unwrapped_filled_buffer_counter s - token)) with r
    by (unfold r; lia).
  assert (Hr : -37 <= r <= 35) by (unfold r; lia).
  cbv zeta.
  destruct (Z.ltb_spec r 0).
  - rewrite (Hi32 (r + 37)) by lia.
    destruct (Z.leb_spec 37 (r + 37)); [lia|].
    apply (Z.mod_unique r 37 (-1) (r + 37)); lia.
  - destruct (Z.leb_spec 37 r); [lia|].
    apply (Z.mod_unique r 37 0 r); lia.
Qed.

(** X2.  [get_next] never hands out a slot outside the ring: on a coherent
    FIFO, with the active slot index in range and the unwrapped counter
    non-negative, the index of the buffer handed out is that of one of the
    [NUM_BUFFERS] slots, and for the token [t] it was computed from, a token
    of the queue inside the retained window, it is
    [(s_active_buffer_index - 1 - (fill_counter - t)) mod NUM_BUFFERS]. *)
Theorem get_next_hands_out_slot_of_ring ps s b :
  Buffers.fifo_wf s ->
  0 <= Buffers.s_active_buffer_index s < Buffers.NUM_BUFFERS ->
  0 <= Buffers.s_unwrapped_filled_buffer_counter s <= Int.INT32_MAX ->
  snd (fst (Buffers.dataprocessor_buffers_get_next ps s)) = Some b ->
  0 <= b < Buffers.NUM_BUFFERS
  /\ exists token,
      In token (Buffers.fifo_contents s)
      /\ Buffers.s_unwrapped_filled_buffer_counter s - Buffers.NUM_BUFFERS + 1 <= token
         < Buffers.s_unwrapped_filled_buffer_counter s
      /\ b = (Buffers.s_active_buffer_index s - 1
              - (Buffers.s_unwrapped_filled_buffer_counter s - token))
             mod Buffers.NUM_BUFFERS.
Proof.
  intros Hwf Hidx Hfill Hb.
  destruct (Settings.gated_recording ps && negb (Buffers.s_is_gated s)) eqn:Hgate.
  { rewrite (get_next_gate_closed ps s Hgate) in Hb. discriminate. }
  rewrite (get_next_reading ps s Hgate) in Hb.
  destruct (get_next_loop_spec (S (Z.to_nat (Buffers.s_buffer_fifo_count s)))
              (Settings.gated_recording ps) s Hwf ltac:(lia)) as (discarded & Hspec).
  destruct (Buffers.get_next_loop (S (Z.to_nat (Buffers.s_buffer_fifo_count s)))
              (Settings.gated_recording ps) s) as [[s' pBuffer] close_file].
  cbn [fst snd] in Hb. subst pBuffer.
  destruct Hspec as (_ & _ & _ & _ & token & Heq & Hin & ->).
  destruct (read_buffer_index_value token s Hidx Hfill Hin) as (Hvalue & Hrange).
  split.
  - rewrite Hvalue. apply Z.mod_pos_bound. unfold Buffers.NUM_BUFFERS. lia.
  - exists token. split; [|split; assumption].
    rewrite Heq. apply in_or_app. right. left. reflexivity.
Qed.

Lemma get_next_hands_out_slot_of_ring_witness :
  0 <= 0 < Buffers.NUM_BUFFERS.
Proof.
  apply (get_next_hands_out_slot_of_ring (Buffers.default_settings false 2)
           (Buffers.completions_after_reset Buffers.DATA_PROCESSOR_CONTINUOUS 38 false) 0).
  - decide_by_computation.
  - decide_by_computation.
  - decide_by_computation.
  - vm_compute. reflexivity.
Defined.

(** ** The samples an append stores *)

Lemma copy_samples_copied n :
  forall src dst mem,
    0 <= dst ->
    dst + Z.of_nat n <= Buffers.NUM_BUFFERS * Buffers.DATA_BUFFER_ENTRIES ->
    Buffers.copy_samples n src dst mem = Some (Buffers.copied n src dst mem, drop n src).
Proof.
  induction n as [|n IH]; intros src dst mem Hdst Hend;
    cbn [Buffers.copy_samples Buffers.copied].
  - rewrite drop_0. reflexivity.
  - unfold Buffers.store.
    destruct (Z.leb_spec 0 dst); [|lia].
    destruct (Z.ltb_spec dst (Buffers.NUM_BUFFERS * Buffers.DATA_BUFFER_ENTRIES)); [|lia].
    cbn [andb]. rewrite IH by lia.
    destruct src; cbn [tl drop]; [rewrite drop_nil|]; reflexivity.
Qed.

Lemma copied_lookup_outside n :
  forall src dst mem a,
    a < dst \/ dst + Z.of_nat n <= a ->
    Buffers.copied n src dst mem !! a = mem !! a.
Proof.
  induction n as [|n IH]; intros src dst mem a Ha; cbn [Buffers.copied]; [reflexivity|].
  rewrite IH by lia. apply lookup_insert_ne. lia.
Qed.

Lemma copied_lookup_inside n :
  forall src dst mem i,
    (i < n)%nat ->
    Buffers.copied n src dst mem !! (dst + Z.of_nat i) = Some (nth i src 0).
Proof.
  induction n as [|n IH]; intros src dst mem i Hi; [lia|].
  cbn [Buffers.copied]. destruct i as [|i].
  - rewrite copied_lookup_outside by lia.
    replace (dst + Z.of_nat 0) with dst by lia.
    rewrite lookup_insert_eq. destruct src; reflexivity.
  - replace (dst + Z.of_nat (S i)) with (dst + 1 + Z.of_nat i) by lia.
    rewrite IH by lia. destruct src; [destruct i|]; reflexivity.
Qed.

Lemma next_buffer_index_cases s :
  0 <= Buffers.s_active_buffer_index s < Buffers.NUM_BUFFERS ->
  (Buffers.s_active_buffer_index s < Buffers.NUM_BUFFERS - 1
   /\ Buffers.next_buffer_index s = Buffers.s_active_buffer_index s + 1)
  \/ (Buffers.s_active_buffer_index s = Buffers.NUM_BUFFERS - 1
      /\ Buffers.next_buffer_index s = 0).
Proof.
  unfold Buffers.next_buffer_index, Buffers.NUM_BUFFERS. intros H.
  rewrite to_int32_id by (unfold Int.INT32_MIN, Int.INT32_MAX; lia).
  destruct (Z.leb_spec 37 (Buffers.s_active_buffer_index s + 1)); lia.
Qed.

(** The sample memory after an append of at most one slot of samples. *)
Lemma append_memory ps pDMABuffer dma_buffer_offset count s s' :
  Buffers.ring_wf s ->
  0 <= count <= Buffers.DATA_BUFFER_ENTRIES ->
  Settings.gated_recording ps && Buffers.s_is_gated s = false ->
  Buffers.data_processor_buffers ps pDMABuffer dma_buffer_offset count s = Some s' ->
  let first :=
    Z.min (Buffers.DATA_BUFFER_ENTRIES - Buffers.s_active_buffer_entry_count s) count in
  Buffers.s_buffers s'
  = Buffers.copied (Z.to_nat (count - first))
      (drop (Z.to_nat first) (drop (Z.to_nat dma_buffer_offset) pDMABuffer))
      (Buffers.next_buffer_index s * Buffers.DATA_BUFFER_ENTRIES)
      (Buffers.copied (Z.to_nat first)
         (drop (Z.to_nat dma_buffer_offset) pDMABuffer)
         (Buffers.s_active_buffer_ptr s + Buffers.s_active_buffer_entry_count s)
         (Buffers.s_buffers s)).
Proof.
  intros (Hidx & Hent & Hptr) Hcount Hgate Hrun first. subst first.
  pose proof (next_buffer_index_range s Hidx) as Hnext.
  destruct ring_constants as (HN & HD & _).
  unfold Buffers.data_processor_buffers in Hrun. rewrite Hgate in Hrun.
  set (e := Buffers.s_active_buffer_entry_count s) in *.
  set (D := Buffers.DATA_BUFFER_ENTRIES) in *.
  set (g := Settings.gated_recording ps) in *.
  set (src := drop (Z.to_nat dma_buffer_offset) pDMABuffer) in *.
  assert (forall x, - 2 ^ 31 <= x <= 2 ^ 31 - 1 -> Int.to_int32 x = x) as Hi32
    by (intros x Hx; apply to_int32_id; unfold Int.INT32_MIN, Int.INT32_MAX; lia).
  rewrite (Hi32 (D - e)) in Hrun by lia.
  destruct (Z.ltb_spec (D - e) count) as [Hfull | Hfit].
  - rewrite (Z.min_l (D - e) count) by lia.
    rewrite (copy_samples_copied (Z.to_nat (D - e)) src
               (Buffers.s_active_buffer_ptr s + e) (Buffers.s_buffers s))
      in Hrun by lia.
    set (mem1 := Buffers.copied (Z.to_nat (D - e)) src
                   (Buffers.s_active_buffer_ptr s + e) (Buffers.s_buffers s)) in *.
    unfold_fields.
    replace (e + (D - e)) with D in Hrun by lia.
    rewrite (Hi32 D) in Hrun by lia. rewrite (to_uint32_id D) in Hrun by lia.
    rewrite Z.leb_refl in Hrun.
    unfold Buffers.switch_buffer in Hrun. fold D in Hrun.
    change (Buffers.next_buffer_index
              (Buffers.set_ring mem1 (Buffers.s_active_buffer_index s)
                 (Buffers.s_active_buffer_ptr s) D s))
      with (Buffers.next_buffer_index s) in Hrun.
    unfold_fields. rewrite set_ring_set_ring, sequence_set_ring in Hrun.
    unfold_fields.
    rewrite (Hi32 (count - (D - e))) in Hrun by lia.
    destruct (Z.ltb_spec 0 (count - (D - e))); [|lia].
    rewrite (copy_samples_copied (Z.to_nat (count - (D - e)))
               (drop (Z.to_nat (D - e)) src)
               (Buffers.next_buffer_index s * D + 0) mem1) in Hrun by lia.
    injection Hrun as <-. unfold_fields.
    rewrite Z.add_0_r. reflexivity.
  - rewrite (Z.min_r (D - e) count) by lia.
    rewrite (copy_samples_copied (Z.to_nat count) src
               (Buffers.s_active_buffer_ptr s + e) (Buffers.s_buffers s))
      in Hrun by lia.
    set (mem1 := Buffers.copied (Z.to_nat count) src
                   (Buffers.s_active_buffer_ptr s + e) (Buffers.s_buffers s)) in *.
    unfold_fields.
    rewrite (Hi32 (e + count)) in Hrun by lia.
    replace (count - count) with 0 in * by lia.
    rewrite (Hi32 0) in Hrun by lia. rewrite Z.ltb_irrefl in Hrun.
    rewrite (to_uint32_id (e + count)) in Hrun by lia.
    change (Z.to_nat 0) with 0%nat. cbn [Buffers.copied].
    destruct (Z.leb_spec D (e + count)).
    + unfold Buffers.switch_buffer in Hrun. fold D in Hrun.
      change (Buffers.next_buffer_index
                (Buffers.set_ring mem1 (Buffers.s_active_buffer_index s)
                   (Buffers.s_active_buffer_ptr s) (e + count) s))
        with (Buffers.next_buffer_index s) in Hrun.
      unfold_fields. rewrite set_ring_set_ring, sequence_set_ring in Hrun.
      injection Hrun as <-. reflexivity.
    + injection Hrun as <-. reflexivity.
Qed.

Lemma nth_drop_offset (l : list Z) (k i : nat) : nth i (drop k l) 0 = nth (k + i) l 0.
Proof. rewrite !nth_lookup, lookup_drop. reflexivity. Qed.

(** X3.  An append of at most one slot of samples, with the gate open and the
    ring coherent, stores the samples of the source in order: sample [i]
    lands in the active slot behind the samples it already holds while the
    slot has room, and from the start of the next slot on after that; no
    other cell of the sample memory changes. *)
Theorem append_stores_samples_in_order ps pDMABuffer dma_buffer_offset count s :
  Buffers.ring_wf s ->
  0 <= dma_buffer_offset ->
  0 <= count <= Buffers.DATA_BUFFER_ENTRIES ->
  Settings.gated_recording ps && Buffers.s_is_gated s = false ->
  exists s',
    Buffers.data_processor_buffers ps pDMABuffer dma_buffer_offset count s = Some s'
    /\ (forall i,
           0 <= i < count ->
           Buffers.s_buffers s' !! Buffers.sample_address s i
           = Some (nth (Z.to_nat (dma_buffer_offset + i)) pDMABuffer 0))
    /\ (forall a,
           (forall i, 0 <= i < count -> a <> Buffers.sample_address s i) ->
           Buffers.s_buffers s' !! a = Buffers.s_buffers s !! a).
Proof.
  intros Hring Hoff Hcount Hgate.
  destruct (append_spec ps pDMABuffer dma_buffer_offset count s Hring
              ltac:(unfold Int.INT32_MIN; lia) Hgate) as (mem & Hrun).
  eexists. split; [exact Hrun|].
  pose proof (append_memory ps pDMABuffer dma_buffer_offset count s _ Hring Hcount Hgate
                Hrun) as Hmem.
  cbv zeta in Hmem. rewrite Hmem. clear Hmem Hrun mem.
  destruct Hring as (Hidx & Hent & Hptr).
  pose proof (next_buffer_index_cases s Hidx) as Hnext.
  destruct ring_constants as (HN & HD & _).
  unfold Buffers.sample_address.
  set (e := Buffers.s_active_buffer_entry_count s) in *.
  set (next := Buffers.next_buffer_index s) in *.
  set (index := Buffers.s_active_buffer_index s) in *.
  rewrite Hptr, HN, HD in *.
  set (first := Z.min (32768 - e) count).
  assert (Hfirst : 0 <= first <= count /\ first <= 32768 - e
                   /\ (first = count \/ first = 32768 - e)) by (unfold first; lia).
  split.
  - intros i Hi. destruct (Z.ltb_spec (e + i) 32768) as [Hin | Hover].
    + rewrite copied_lookup_outside by lia.
      replace (index * 32768 + e + i) with (index * 32768 + e + Z.of_nat (Z.to_nat i))
        by lia.
      rewrite copied_lookup_inside by lia.
      rewrite nth_drop_offset. do 2 f_equal. lia.
    + replace (next * 32768 + (e + i - 32768))
        with (next * 32768 + Z.of_nat (Z.to_nat (i - first))) by lia.
      rewrite copied_lookup_inside by lia.
      rewrite !nth_drop_offset. do 2 f_equal. lia.
  - intros a Ha.
    assert (Hout1 : a < index * 32768 + e \/ index * 32768 + e + first <= a).
    { destruct (Z_lt_dec a (index * 32768 + e)) as [|Hge]; [left; assumption|].
      destruct (Z_le_dec (index * 32768 + e + first) a) as [|Hlt]; [right; assumption|].
      exfalso. apply (Ha (a - (index * 32768 + e))); [lia|].
      destruct (Z.ltb_spec (e + (a - (index * 32768 + e))) 32768); lia. }
    assert (Hout2 : a < next * 32768 \/ next * 32768 + (count - first) <= a).
    { destruct (Z_lt_dec a (next * 32768)) as [|Hge]; [left; assumption|].
      destruct (Z_le_dec (next * 32768 + (count - first)) a) as [|Hlt];
        [right; assumption|].
      exfalso. apply (Ha (a - next * 32768 + first)); [lia|].
      destruct (Z.ltb_spec (e + (a - next * 32768 + first)) 32768); lia. }
    rewrite copied_lookup_outside by lia.
    apply copied_lookup_outside. lia.
Qed.

Lemma append_stores_samples_in_order_witness :
  exists s',
    Buffers.data_processor_buffers (Buffers.default_settings false 2) [10; 11; 12; 13] 1 3
      Buffers.initial_state = Some s'
    /\ Buffers.s_buffers s' !! 2 = Some 13.
Proof.
  destruct (append_stores_samples_in_order (Buffers.default_settings false 2)
              [10; 11; 12; 13] 1 3 Buffers.initial_state)
    as (s' & Hrun & Hstored & _).
  - decide_by_computation.
  - lia.
  - unfold Buffers.DATA_BUFFER_ENTRIES. lia.
  - reflexivity.
  - exists s'. split; [exact Hrun|]. apply (Hstored 2). lia.
Defined.

(** ** Accounting for the samples appended *)

(** X4.  An append of at most one slot of samples, with the gate open, loses
    and duplicates no sample: the number of samples held, counting
    [DATA_BUFFER_ENTRIES] for each buffer filled so far plus the fill of the
    active slot, grows by exactly [count], and the fill of the active slot
    stays below [DATA_BUFFER_ENTRIES]. *)
Theorem append_accounts_for_every_sample ps pDMABuffer dma_buffer_offset count s :
  Buffers.ring_wf s ->
  0 <= count <= Buffers.DATA_BUFFER_ENTRIES ->
  Settings.gated_recording ps && Buffers.s_is_gated s = false ->
  Int.INT32_MIN <= Buffers.s_unwrapped_filled_buffer_counter s < Int.INT32_MAX ->
  exists s',
    Buffers.data_processor_buffers ps pDMABuffer dma_buffer_offset count s = Some s'
    /\ Buffers.DATA_BUFFER_ENTRIES * Buffers.s_unwrapped_filled_buffer_counter s'
       + Buffers.s_active_buffer_entry_count s'
       = Buffers.DATA_BUFFER_ENTRIES * Buffers.s_unwrapped_filled_buffer_counter s
         + Buffers.s_active_buffer_entry_count s + count
    /\ 0 <= Buffers.s_active_buffer_entry_count s' < Buffers.DATA_BUFFER_ENTRIES.
Proof.
  intros Hring Hcount Hgate Hfill.
  destruct (append_spec ps pDMABuffer dma_buffer_offset count s Hring
              ltac:(unfold Int.INT32_MIN; lia) Hgate) as (mem & Hrun).
  eexists. split; [exact Hrun|].
  destruct Hring as (_ & Hent & _).
  destruct (Z.leb_spec 0 (Buffers.s_active_buffer_entry_count s + count)); [|lia].
  destruct (Z.ltb_spec (Buffers.s_active_buffer_entry_count s + count)
              Buffers.DATA_BUFFER_ENTRIES); cbn [andb]; unfold_fields.
  - lia.
  - rewrite sequence_fill, to_int32_id by lia.
    unfold Buffers.DATA_BUFFER_ENTRIES in *. lia.
Qed.

Lemma append_accounts_for_every_sample_witness :
  exists s',
    Buffers.data_processor_buffers (Buffers.default_settings false 2) [] 0 32768
      (Buffers.set_ring ∅ 0 0 5 Buffers.initial_state) = Some s'
    /\ Buffers.DATA_BUFFER_ENTRIES * Buffers.s_unwrapped_filled_buffer_counter s'
       + Buffers.s_active_buffer_entry_count s'
       = 32773.
Proof.
  destruct (append_accounts_for_every_sample (Buffers.default_settings false 2) [] 0 32768
              (Buffers.set_ring ∅ 0 0 5 Buffers.initial_state))
    as (s' & Hrun & Htotal & _).
  - decide_by_computation.
  - unfold Buffers.DATA_BUFFER_ENTRIES. lia.
  - reflexivity.
  - decide_by_computation.
  - exists s'. split; [exact Hrun|]. rewrite Htotal. reflexivity.
Defined.

(** X5.  The fill test of the append compares as unsigned: a negative
    [count] that takes the fill of the active slot below zero stores no
    sample, and yet the active slot is closed as if it were full: the ring
    moves on to the next slot with fill 0 and the buffer is sequenced
    (enqueued according to the mode, and counted). *)
Theorem append_with_negative_count_closes_slot ps pDMABuffer dma_buffer_offset count s :
  Buffers.ring_wf s ->
  Int.INT32_MIN <= count ->
  Buffers.s_active_buffer_entry_count s + count < 0 ->
  Settings.gated_recording ps && Buffers.s_is_gated s = false ->
  exists s',
    Buffers.data_processor_buffers ps pDMABuffer dma_buffer_offset count s = Some s'
    /\ Buffers.s_active_buffer_index s' = Buffers.next_buffer_index s
    /\ Buffers.s_active_buffer_entry_count s' = 0
    /\ Buffers.s_unwrapped_filled_buffer_counter s'
       = Int.to_int32 (Buffers.s_unwrapped_filled_buffer_counter s + 1)
    /\ Buffers.same_fifo s'
         (Buffers.enqueue_filled_buffer (Settings.gated_recording ps) s).
Proof.
  intros Hring Hmin Hneg Hgate.
  pose proof Hring as (_ & Hent & _).
  destruct (append_spec ps pDMABuffer dma_buffer_offset count s Hring
              ltac:(unfold Buffers.DATA_BUFFER_ENTRIES in *; lia) Hgate) as (mem & Hrun).
  eexists. split; [exact Hrun|].
  destruct (Z.leb_spec 0 (Buffers.s_active_buffer_entry_count s + count)); [lia|].
  cbn [andb]. unfold_fields.
  split; [reflexivity|]. split; [lia|]. split; [apply sequence_fill|].
  eapply same_fifo_trans; [apply same_fifo_set_ring | apply sequence_same_fifo].
Qed.

Lemma append_with_negative_count_closes_slot_witness :
  exists s',
    Buffers.data_processor_buffers (Buffers.default_settings false 2) [] 0 (-1)
      (Buffers.data_processor_buffers_reset Buffers.DATA_PROCESSOR_CONTINUOUS 384000
         Buffers.initial_state) = Some s'
    /\ Buffers.s_active_buffer_index s' = 1
    /\ Buffers.s_unwrapped_filled_buffer_counter s' = 1.
Proof.
  destruct (append_with_negative_count_closes_slot (Buffers.default_settings false 2) [] 0
              (-1)
              (Buffers.data_processor_buffers_reset Buffers.DATA_PROCESSOR_CONTINUOUS
                 384000 Buffers.initial_state))
    as (s' & Hrun & Hindex & _ & Hfill & _).
  - decide_by_computation.
  - decide_by_computation.
  - reflexivity.
  - reflexivity.
  - exists s'. split; [exact Hrun|]. rewrite Hindex, Hfill. split; reflexivity.
Defined.

(** ** The slot of each buffer *)

Lemma next_buffer_index_mod s :
  0 <= Buffers.s_active_buffer_index s < Buffers.NUM_BUFFERS ->
  Buffers.next_buffer_index s
  = (Buffers.s_active_buffer_index s + 1) mod Buffers.NUM_BUFFERS.
Proof.
  intros Hidx. destruct (next_buffer_index_cases s Hidx) as [[Hlt ->] | [Heq ->]];
    unfold Buffers.NUM_BUFFERS in *.
  - symmetry. apply Z.mod_small. lia.
  - rewrite Heq. reflexivity.
Qed.

Lemma fill_buffers_ring ps buffers :
  forall s,
    Settings.gated_recording ps = false ->
    Buffers.ring_wf s ->
    Buffers.s_active_buffer_entry_count s = 0 ->
    0 <= Buffers.s_unwrapped_filled_buffer_counter s ->
    Buffers.s_unwrapped_filled_buffer_counter s + Z.of_nat (length buffers)
    <= Int.INT32_MAX ->
    exists s',
      Buffers.fill_buffers buffers ps s = Some s'
      /\ Buffers.ring_wf s'
      /\ Buffers.s_active_buffer_entry_count s' = 0
      /\ Buffers.s_unwrapped_filled_buffer_counter s'
         = Buffers.s_unwrapped_filled_buffer_counter s + Z.of_nat (length buffers)
      /\ Buffers.s_active_buffer_index s'
         = (Buffers.s_active_buffer_index s + Z.of_nat (length buffers))
           mod Buffers.NUM_BUFFERS.
Proof.
  induction buffers as [|pDMABuffer buffers IH]; intros s Hg Hring Hentry Hfill Hlife.
  { exists s. cbn [Buffers.fill_buffers length]. rewrite !Z.add_0_r.
    split; [reflexivity|]. split; [exact Hring|]. split; [exact Hentry|].
    split; [reflexivity|].
    symmetry. apply Z.mod_small. apply Hring. }
  cbn [Buffers.fill_buffers length] in *.
  destruct (append_completes ps pDMABuffer 0 Buffers.DATA_BUFFER_ENTRIES s Hring)
    as (s1 & Hrun & Hcontrol & Hring1 & Hindex1 & Hentry1);
    [unfold Buffers.DATA_BUFFER_ENTRIES; lia | rewrite Hg; reflexivity | lia |].
  rewrite Hrun.
  destruct Hcontrol as (_ & Hfill1 & _).
  rewrite sequence_fill, to_int32_id in Hfill1
    by (unfold Int.INT32_MIN, Int.INT32_MAX in *; lia).
  destruct (IH s1 Hg Hring1 ltac:(lia) ltac:(lia) ltac:(lia))
    as (s' & Hrun' & Hring' & Hentry' & Hfill' & Hindex').
  exists s'. split; [exact Hrun'|]. split; [exact Hring'|]. split; [exact Hentry'|].
  split; [lia|].
  rewrite Hindex', Hindex1, (next_buffer_index_mod s) by apply Hring.
  rewrite Z.add_mod_idemp_l by (unfold Buffers.NUM_BUFFERS; lia).
  f_equal. lia.
Qed.

(** X6.  The ring is filled in slot order.  Without gated recording, after a
    reset and [n] appends of a full slot of samples each, [n] buffers have
    been counted, the active slot is slot [n mod NUM_BUFFERS] and it is
    empty: the samples of buffer [k] (the buffer completed when the counter
    stood at [k]) were stored in slot [k mod NUM_BUFFERS]. *)
Theorem completed_buffers_fill_ring_in_order ps mode samples_per_second s0 buffers :
  Settings.gated_recording ps = false ->
  Z.of_nat (length buffers) <= Int.INT32_MAX ->
  exists s,
    Buffers.fill_buffers buffers ps
      (Buffers.data_processor_buffers_reset mode samples_per_second s0) = Some s
    /\ Buffers.s_unwrapped_filled_buffer_counter s = Z.of_nat (length buffers)
    /\ Buffers.s_active_buffer_index s = Z.of_nat (length buffers) mod Buffers.NUM_BUFFERS
    /\ Buffers.s_active_buffer_ptr s
       = Buffers.s_active_buffer_index s * Buffers.DATA_BUFFER_ENTRIES
    /\ Buffers.s_active_buffer_entry_count s = 0.
Proof.
  intros Hg Hn.
  destruct (reset_ring_wf mode samples_per_second s0) as (Hring & Hentry).
  destruct (fill_buffers_ring ps buffers _ Hg Hring Hentry)
    as (s & Hrun & Hring' & Hentry' & Hfill' & Hindex');
    [cbn; lia | cbn; lia |].
  exists s. split; [exact Hrun|].
  split; [rewrite Hfill'; cbn; lia|].
  split; [rewrite Hindex'; cbn; reflexivity|].
  split; [apply Hring' | exact Hentry'].
Qed.

Lemma completed_buffers_fill_ring_in_order_witness :
  exists s,
    Buffers.fill_buffers (Buffers.silence 40) (Buffers.default_settings false 2)
      (Buffers.data_processor_buffers_reset Buffers.DATA_PROCESSOR_CONTINUOUS 384000
         Buffers.initial_state) = Some s
    /\ Buffers.s_active_buffer_index s = 3.
Proof.
  destruct (completed_buffers_fill_ring_in_order (Buffers.default_settings false 2)
              Buffers.DATA_PROCESSOR_CONTINUOUS 384000 Buffers.initial_state
              (Buffers.silence 40))
    as (s & Hrun & _ & Hindex & _).
  - reflexivity.
  - rewrite length_silence. decide_by_computation.
  - exists s. split; [exact Hrun|]. rewrite Hindex, length_silence. reflexivity.
Defined.

(** X7.  The slot handed out for a token.  When the active slot index equals
    the unwrapped counter modulo [NUM_BUFFERS], as it does after a reset
    followed by slot completions, the buffer that [get_next] hands out for the
    token [t] is slot [(t - 1) mod NUM_BUFFERS]. *)
Theorem get_next_hands_out_slot_before_token ps s b :
  Buffers.fifo_wf s ->
  0 <= Buffers.s_unwrapped_filled_buffer_counter s <= Int.INT32_MAX ->
  Buffers.s_active_buffer_index s
  = Buffers.s_unwrapped_filled_buffer_counter s mod Buffers.NUM_BUFFERS ->
  snd (fst (Buffers.dataprocessor_buffers_get_next ps s)) = Some b ->
  exists discarded token,
    Buffers.fifo_contents s
    = discarded
      ++ token
         :: Buffers.fifo_contents (fst (fst (Buffers.dataprocessor_buffers_get_next ps s)))
    /\ b = (token - 1) mod Buffers.NUM_BUFFERS.
Proof.
  intros Hwf Hfill Hindex Hb.
  assert (Hidx : 0 <= Buffers.s_active_buffer_index s < Buffers.NUM_BUFFERS).
  { rewrite Hindex. apply Z.mod_pos_bound. unfold Buffers.NUM_BUFFERS. lia. }
  destruct (Settings.gated_recording ps && negb (Buffers.s_is_gated s)) eqn:Hgate.
  { rewrite (get_next_gate_closed ps s Hgate) in Hb. discriminate. }
  rewrite (get_next_reading ps s Hgate) in *.
  destruct (get_next_loop_spec (S (Z.to_nat (Buffers.s_buffer_fifo_count s)))
              (Settings.gated_recording ps) s Hwf ltac:(lia)) as (discarded & Hspec).
  destruct (Buffers.get_next_loop (S (Z.to_nat (Buffers.s_buffer_fifo_count s)))
              (Settings.gated_recording ps) s) as [[s' pBuffer] close_file].
  cbn [fst snd] in *. subst pBuffer.
  destruct Hspec as (_ & _ & _ & _ & token & Heq & Hin & ->).
  destruct (read_buffer_index_value token s Hidx Hfill Hin) as (Hvalue & _).
  exists discarded, token. split; [exact Heq|].
  rewrite Hvalue, Hindex.
  replace (Buffers.s_unwrapped_filled_buffer_counter s mod Buffers.NUM_BUFFERS - 1
           - (Buffers.s_unwrapped_filled_buffer_counter s - token))
    with (Buffers.s_unwrapped_filled_buffer_counter s mod Buffers.NUM_BUFFERS
          + (token - 1 - Buffers.s_unwrapped_filled_buffer_counter s)) by lia.
  rewrite Z.add_mod_idemp_l by (unfold Buffers.NUM_BUFFERS; lia).
  f_equal. lia.
Qed.

Lemma get_next_hands_out_slot_before_token_witness :
  exists discarded token,
    Buffers.fifo_contents
      (Buffers.completions_after_reset Buffers.DATA_PROCESSOR_CONTINUOUS 1 false)
    = discarded
      ++ token
         :: Buffers.fifo_contents
              (fst (fst (Buffers.dataprocessor_buffers_get_next
                           (Buffers.default_settings false 2)
                           (Buffers.set_ring ∅ 1 32768 0
                              (Buffers.completions_after_reset
                                 Buffers.DATA_PROCESSOR_CONTINUOUS 1 false)))))
    /\ 36 = (token - 1) mod Buffers.NUM_BUFFERS.
Proof.
  apply (get_next_hands_out_slot_before_token (Buffers.default_settings false 2)
           (Buffers.set_ring ∅ 1 32768 0
              (Buffers.completions_after_reset Buffers.DATA_PROCESSOR_CONTINUOUS 1 false))
           36).
  - decide_by_computation.
  - decide_by_computation.
  - vm_compute. reflexivity.
  - vm_compute. reflexivity.
Defined.

(** ** The close-file result of [get_next] *)

(** X8.  [get_next] asks for the file to be closed exactly when it consumes
    an END token.  On a coherent FIFO, a call that returns true hands out no
    buffer and has consumed, after START tokens and data tokens outside the
    retained window only, one END token; and a call that reads the queue
    with an END token at its head consumes that token alone, returns true
    and clears the new-sequence flag. *)
Theorem get_next_closes_file_at_end_token ps s :
  Buffers.fifo_wf s ->
  (snd (Buffers.dataprocessor_buffers_get_next ps s) = true ->
   snd (fst (Buffers.dataprocessor_buffers_get_next ps s)) = None
   /\ exists discarded,
       Buffers.fifo_contents s
       = discarded
         ++ Buffers.BUFFERFIFO_END_SEQUENCE
            :: Buffers.fifo_contents
                 (fst (fst (Buffers.dataprocessor_buffers_get_next ps s)))
       /\ Forall (fun t => t = Buffers.BUFFERFIFO_START_SEQUENCE
                           \/ Buffers.out_of_window t s) discarded)
  /\ (Buffers.reading_enabled ps s ->
      forall rest,
        Buffers.fifo_contents s = Buffers.BUFFERFIFO_END_SEQUENCE :: rest ->
        snd (Buffers.dataprocessor_buffers_get_next ps s) = true
        /\ Buffers.fifo_contents (fst (fst (Buffers.dataprocessor_buffers_get_next ps s)))
           = rest
        /\ Buffers.s_is_new_sequence
             (fst (fst (Buffers.dataprocessor_buffers_get_next ps s))) = false).
Proof.
  intros Hwf. split.
  - intros Hclose.
    destruct (Settings.gated_recording ps && negb (Buffers.s_is_gated s)) eqn:Hgate.
    { rewrite (get_next_gate_closed ps s Hgate) in Hclose. discriminate. }
    rewrite (get_next_reading ps s Hgate) in *.
    destruct (get_next_loop_spec (S (Z.to_nat (Buffers.s_buffer_fifo_count s)))
                (Settings.gated_recording ps) s Hwf ltac:(lia)) as (discarded & Hspec).
    destruct (Buffers.get_next_loop (S (Z.to_nat (Buffers.s_buffer_fifo_count s)))
                (Settings.gated_recording ps) s) as [[s' pBuffer] close_file].
    cbn [fst snd] in *. subst close_file.
    destruct Hspec as (Hall & _ & _ & Hres).
    destruct pBuffer as [b|]; [destruct Hres as (Hfalse & _); discriminate|].
    split; [reflexivity|]. exists discarded. split; [exact Hres | exact Hall].
  - intros Hread rest Hc.
    rewrite (get_next_reading ps s Hread).
    cbn [Buffers.get_next_loop].
    rewrite (get_next_turn_end _ s rest Hwf Hc). cbn [fst snd].
    destruct (get_fifo_contents s _ rest Hwf Hc) as (_ & Hrest & _).
    split; [reflexivity|]. split; [|reflexivity].
    rewrite (same_fifo_contents _ _ (same_fifo_set_is_new_sequence false _)).
    exact Hrest.
Qed.

Lemma get_next_closes_file_at_end_token_witness :
  snd (Buffers.dataprocessor_buffers_get_next (Buffers.default_settings false 2)
         (Buffers.buffer_fifo_put Buffers.BUFFERFIFO_END_SEQUENCE Buffers.initial_state))
  = true.
Proof.
  destruct (get_next_closes_file_at_end_token (Buffers.default_settings false 2)
              (Buffers.buffer_fifo_put Buffers.BUFFERFIFO_END_SEQUENCE
                 Buffers.initial_state)) as (_ & Hend).
  - decide_by_computation.
  - apply (Hend eq_refl []). reflexivity.
Defined.

(** ** Deferred reading of a new sequence *)

Lemma fifo_read_length n : forall i fifo, length (Buffers.fifo_read n i fifo) = n.
Proof. induction n as [|n IH]; intros i fifo; cbn; [reflexivity|]. rewrite IH. reflexivity. Qed.

Lemma fifo_contents_length s :
  length (Buffers.fifo_contents s) = Z.to_nat (Buffers.s_buffer_fifo_count s).
Proof. apply fifo_read_length. Qed.

Lemma get_is_new_sequence s :
  Buffers.s_is_new_sequence (snd (Buffers.buffer_fifo_get s))
  = Buffers.s_is_new_sequence s.
Proof.
  unfold Buffers.buffer_fifo_get.
  destruct (0 <? Buffers.s_buffer_fifo_count s); reflexivity.
Qed.

(** X9.  Without gated recording, [get_next] holds back the first buffer of a
    new sequence until the writer has nearly caught up with it.  With a START
    token at the head of a coherent queue followed by a data token inside the
    retained window, the call consumes the START token; it hands out the
    buffer (and consumes its token) if the read lead is below
    [MAXIMUM_READ_LEAD], and otherwise hands out nothing, leaves the data token
    at the head and keeps the new-sequence flag set.  Once the flag is clear,
    a data token inside the window at the head is handed out whatever the
    lead. *)
Theorem get_next_defers_new_sequence ps s token rest :
  Settings.gated_recording ps = false ->
  Buffers.fifo_wf s ->
  Buffers.in_window token s ->
  (Buffers.fifo_contents s = Buffers.BUFFERFIFO_START_SEQUENCE :: token :: rest ->
   exists s',
     Buffers.dataprocessor_buffers_get_next ps s
     = (s',
        (if Buffers.lead_of (Buffers.read_buffer_index_of token s) s
            <? Buffers.MAXIMUM_READ_LEAD
         then Some (Buffers.read_buffer_index_of token s) else None),
        false)
     /\ Buffers.fifo_contents s'
        = (if Buffers.lead_of (Buffers.read_buffer_index_of token s) s
              <? Buffers.MAXIMUM_READ_LEAD
           then rest else token :: rest)
     /\ Buffers.s_is_new_sequence s'
        = negb (Buffers.lead_of (Buffers.read_buffer_index_of token s) s
                <? Buffers.MAXIMUM_READ_LEAD))
  /\ (Buffers.fifo_contents s = token :: rest ->
      Buffers.s_is_new_sequence s = false ->
      exists s',
        Buffers.dataprocessor_buffers_get_next ps s
        = (s', Some (Buffers.read_buffer_index_of token s), false)
        /\ Buffers.fifo_contents s' = rest).
Proof.
  intros Hg Hwf Hin.
  assert (Hread : Buffers.reading_enabled ps s)
    by (unfold Buffers.reading_enabled; rewrite Hg; reflexivity).
  rewrite (get_next_reading ps s Hread), Hg.
  split.
  - intros Hc.
    pose proof (fifo_contents_length s) as Hlen. rewrite Hc in Hlen. cbn [length] in Hlen.
    rewrite <- Hlen. cbn [Buffers.get_next_loop].
    rewrite (get_next_turn_start false s _ Hwf Hc).
    destruct (get_fifo_contents s _ _ Hwf Hc) as (_ & Hrest & Hwf1 & _).
    set (s1 := snd (Buffers.buffer_fifo_get s)) in *.
    set (s2 := Buffers.set_is_new_sequence true s1).
    assert (Hcons : Buffers.consumer_only s2 s).
    { eapply consumer_only_trans; [apply consumer_only_new_sequence|].
      apply consumer_only_get. }
    pose proof (same_fifo_set_is_new_sequence true s1) as Hsame.
    pose proof (same_fifo_wf _ _ Hsame Hwf1) as Hwf2.
    assert (Hc2 : Buffers.fifo_contents s2 = token :: rest)
      by (unfold s2; rewrite (same_fifo_contents _ _ Hsame); exact Hrest).
    destruct (consumer_only_window token s2 s Hcons) as (_ & Hwin & Hindex).
    rewrite (get_next_turn_in_window false s2 token rest Hwf2 Hc2 (proj2 Hwin Hin)).
    rewrite Hindex. cbn [orb negb Buffers.s_is_new_sequence Buffers.set_is_new_sequence s2].
    assert (Hlead : Buffers.lead_of (Buffers.read_buffer_index_of token s) s2
                    = Buffers.lead_of (Buffers.read_buffer_index_of token s) s).
    { unfold Buffers.lead_of.
      destruct (consumer_only_fields _ _ Hcons) as (_ & -> & _). reflexivity. }
    fold s2. rewrite Hlead.
    destruct (Buffers.lead_of (Buffers.read_buffer_index_of token s) s
              <? Buffers.MAXIMUM_READ_LEAD).
    + pose proof (same_fifo_set_is_new_sequence false s2) as Hsame'.
      destruct (get_fifo_contents (Buffers.set_is_new_sequence false s2) token rest
                  (same_fifo_wf _ _ Hsame' Hwf2))
        as (_ & Hrest' & _).
      { rewrite (same_fifo_contents _ _ Hsame'). exact Hc2. }
      eexists. split; [reflexivity|]. split; [exact Hrest'|].
      apply get_is_new_sequence.
    + eexists. split; [reflexivity|]. split; [exact Hc2 | reflexivity].
  - intros Hc Hnew.
    cbn [Buffers.get_next_loop].
    rewrite (get_next_turn_in_window false s token rest Hwf Hc Hin), Hnew.
    cbn [orb negb].
    pose proof (same_fifo_set_is_new_sequence false s) as Hsame.
    destruct (get_fifo_contents (Buffers.set_is_new_sequence false s) token rest
                (same_fifo_wf _ _ Hsame Hwf))
      as (_ & Hrest & _).
    { rewrite (same_fifo_contents _ _ Hsame). exact Hc. }
    eexists. split; [reflexivity | exact Hrest].
Qed.

Lemma get_next_defers_new_sequence_witness :
  exists s',
    Buffers.dataprocessor_buffers_get_next (Buffers.default_settings false 2)
      (Buffers.set_unwrapped_filled_buffer_counter 1
         (Buffers.buffer_fifo_put 0
            (Buffers.buffer_fifo_put Buffers.BUFFERFIFO_START_SEQUENCE
               Buffers.initial_state)))
    = (s', None, false)
    /\ Buffers.fifo_contents s' = [0]
    /\ Buffers.s_is_new_sequence s' = true.
Proof.
  destruct (get_next_defers_new_sequence (Buffers.default_settings false 2)
              (Buffers.set_unwrapped_filled_buffer_counter 1
                 (Buffers.buffer_fifo_put 0
                    (Buffers.buffer_fifo_put Buffers.BUFFERFIFO_START_SEQUENCE
                       Buffers.initial_state)))
              0 [])
    as (Hdeferred & _).
  - reflexivity.
  - decide_by_computation.
  - decide_by_computation.
  - destruct (Hdeferred eq_refl) as (s' & Hrun & Hc & Hnew).
    exists s'. split; [exact Hrun|]. split; [exact Hc | exact Hnew].
Defined.

(** ** Termination of the read loop *)

Lemma get_next_turn_continue gr s s1 :
  Buffers.fifo_wf s ->
  Buffers.get_next_turn gr s = (s1, Buffers.Continue) ->
  Buffers.fifo_wf s1
  /\ Buffers.s_buffer_fifo_count s1 = Buffers.s_buffer_fifo_count s - 1
  /\ 0 < Buffers.s_buffer_fifo_count s.
Proof.
  intros Hwf Hturn.
  destruct (Buffers.fifo_contents s) as [|token rest] eqn:Hc.
  { rewrite (get_next_turn_empty gr s Hwf Hc) in Hturn. discriminate. }
  destruct (get_fifo_contents s token rest Hwf Hc) as (_ & _ & Hwf1 & Hcount1).
  assert (Hpos : 0 < Buffers.s_buffer_fifo_count s).
  { pose proof (fifo_contents_length s) as Hlen. rewrite Hc in Hlen.
    cbn [length] in Hlen. lia. }
  destruct (token_kind token s) as [-> | [-> | [Hout | Hin]]].
  - rewrite (get_next_turn_end gr s rest Hwf Hc) in Hturn. discriminate.
  - rewrite (get_next_turn_start gr s rest Hwf Hc) in Hturn.
    injection Hturn as <-.
    split; [exact (same_fifo_wf _ _ (same_fifo_set_is_new_sequence true _) Hwf1)|].
    split; [exact Hcount1 | exact Hpos].
  - rewrite (get_next_turn_out_of_window gr s token rest Hwf Hc Hout) in Hturn.
    injection Hturn as <-. split; [exact Hwf1|]. split; [exact Hcount1 | exact Hpos].
  - rewrite (get_next_turn_in_window gr s token rest Hwf Hc Hin) in Hturn.
    destruct (gr || negb (Buffers.s_is_new_sequence s)
              || (Buffers.lead_of (Buffers.read_buffer_index_of token s) s
                  <? Buffers.MAXIMUM_READ_LEAD)); discriminate.
Qed.

Lemma get_next_loop_fuel gr fuel :
  forall fuel' s,
    Buffers.fifo_wf s ->
    (Z.to_nat (Buffers.s_buffer_fifo_count s) < fuel)%nat ->
    (Z.to_nat (Buffers.s_buffer_fifo_count s) < fuel')%nat ->
    Buffers.get_next_loop fuel gr s = Buffers.get_next_loop fuel' gr s.
Proof.
  induction fuel as [|fuel IH]; intros fuel' s Hwf Hfuel Hfuel'; [lia|].
  destruct fuel' as [|fuel']; [lia|].
  cbn [Buffers.get_next_loop].
  destruct (Buffers.get_next_turn gr s) as [s1 [|pBuffer close_file]] eqn:Hturn;
    [|reflexivity].
  destruct (get_next_turn_continue gr s s1 Hwf Hturn) as (Hwf1 & Hcount1 & Hpos).
  apply IH; [exact Hwf1 | lia | lia].
Qed.

(** X10.  The read loop of [get_next] ends within one turn more than the
    occupancy of the queue: every turn that goes round again has consumed a
    token.  On a coherent FIFO, giving the loop any larger number of turns
    changes neither the state it leaves nor what it returns. *)
Theorem get_next_loop_ends_within_occupancy ps s fuel :
  Buffers.fifo_wf s ->
  (Z.to_nat (Buffers.s_buffer_fifo_count s) < fuel)%nat ->
  Buffers.reading_enabled ps s ->
  Buffers.get_next_loop fuel (Settings.gated_recording ps) s
  = Buffers.dataprocessor_buffers_get_next ps s.
Proof.
  intros Hwf Hfuel Hread. rewrite (get_next_reading ps s Hread).
  apply get_next_loop_fuel; [exact Hwf | exact Hfuel | lia].
Qed.

Lemma get_next_loop_ends_within_occupancy_witness :
  Buffers.get_next_loop 1000 false
    (Buffers.completions_after_reset Buffers.DATA_PROCESSOR_CONTINUOUS 38 false)
  = Buffers.dataprocessor_buffers_get_next (Buffers.default_settings false 2)
      (Buffers.completions_after_reset Buffers.DATA_PROCESSOR_CONTINUOUS 38 false).
Proof.
  apply (get_next_loop_ends_within_occupancy (Buffers.default_settings false 2)
           (Buffers.completions_after_reset Buffers.DATA_PROCESSOR_CONTINUOUS 38 false)
           1000).
  - decide_by_computation.
  - vm_compute. lia.
  - reflexivity.
Defined.

(** ** Triggers after the gate is released *)

Lemma recording_complete_gate ps main_tick_count s :
  Buffers.s_is_gated
    (Buffers.data_processor_buffers_on_recording_complete ps main_tick_count s) = false
  /\ Buffers.s_gate_released_ticks
       (Buffers.data_processor_buffers_on_recording_complete ps main_tick_count s)
     = main_tick_count.
Proof.
  unfold Buffers.data_processor_buffers_on_recording_complete. cbv zeta.
  change (Buffers.s_mode (Buffers.set_gate false main_tick_count s))
    with (Buffers.s_mode s).
  destruct (Buffers.s_mode s); [case_condition|]; split; reflexivity.
Qed.

(** X11.  After the recording-complete signal at tick [t], trigger events are
    ignored until tick [t + 10]: a trigger event at an earlier tick changes
    nothing, and one at tick [t + 10] or later passes the guard. *)
Theorem trigger_ignored_for_ten_ticks_after_release ps released main_tick_count s :
  Int.INT32_MIN <= released <= Int.INT32_MAX - 10 ->
  (main_tick_count < released + 10 ->
   snd (Buffers.data_processor_buffers_fast_main_processing ps main_tick_count true
          (Buffers.data_processor_buffers_on_recording_complete ps released s))
   = Buffers.data_processor_buffers_on_recording_complete ps released s)
  /\ (released + 10 <= main_tick_count <->
      Buffers.trigger_accepted main_tick_count
        (Buffers.data_processor_buffers_on_recording_complete ps released s)).
Proof.
  intros Hrange.
  destruct (recording_complete_gate ps released s) as (Hgated & Hticks).
  assert (Hwrap : Int.to_int32 (released + 10) = released + 10)
    by (apply to_int32_id; unfold Int.INT32_MIN, Int.INT32_MAX in *; lia).
  assert (Hiff : released + 10 <= main_tick_count <->
                 Buffers.trigger_accepted main_tick_count
                   (Buffers.data_processor_buffers_on_recording_complete ps released s)).
  { unfold Buffers.trigger_accepted. rewrite Hgated, Hticks, Hwrap.
    split; [intros H; split; [reflexivity | exact H] | intros [_ H]; exact H]. }
  split; [|exact Hiff].
  intros Hearly. cbn [Buffers.data_processor_buffers_fast_main_processing snd].
  apply on_trigger_ignored. intros Hacc. apply Hiff in Hacc. lia.
Qed.

Lemma trigger_ignored_for_ten_ticks_after_release_witness :
  snd (Buffers.data_processor_buffers_fast_main_processing
         (Buffers.default_settings true 2) 1005 true
         (Buffers.data_processor_buffers_on_recording_complete
            (Buffers.default_settings true 2) 1000 Buffers.initial_state))
  = Buffers.data_processor_buffers_on_recording_complete
      (Buffers.default_settings true 2) 1000 Buffers.initial_state.
Proof.
  apply (trigger_ignored_for_ten_ticks_after_release (Buffers.default_settings true 2)
           1000 1005 Buffers.initial_state).
  - decide_by_computation.
  - lia.
Defined.

(** ** Gain controller: stepping, decibels and muting *)

Lemma gain_index_cases i :
  0 <= i <= Gain.GAIN_MAX_RANGE_INDEX -> i = 0 \/ i = 1 \/ i = 2 \/ i = 3 \/ i = 4.
Proof. unfold Gain.GAIN_MAX_RANGE_INDEX. lia. Qed.

Lemma set_gain_in_range i st :
  0 <= i <= Gain.GAIN_MAX_RANGE_INDEX ->
  Gain.set_gain i st
  = Some (Gain.HAL_SPI_Transmit_IT
            [Z.lor Gain.SETGAIN_CMD (nth (Z.to_nat i) Gain.s_gain_mapping 0);
             Z.lor Gain.SETGAIN_CMD (nth (Z.to_nat i) Gain.s_gain_mapping 0)] st).
Proof.
  intros Hi. destruct (gain_index_cases i Hi) as [-> | [-> | [-> | [-> | ->]]]];
    reflexivity.
Qed.

Lemma set_gain_out_of_range i st :
  i < 0 \/ Gain.GAIN_MAX_RANGE_INDEX < i -> Gain.set_gain i st = None.
Proof.
  intros Hi. unfold Gain.set_gain.
  destruct (Z.leb_spec 0 i); [|reflexivity].
  destruct (Z.leb_spec i Gain.GAIN_MAX_RANGE_INDEX); [lia | reflexivity].
Qed.

(** X12.  [gain_up] and [gain_down] step the gain range by one and keep it
    between [GAIN_MIN_RANGE_INDEX] and [GAIN_MAX_RANGE_INDEX].  At the limit
    they return false, leave the range alone and send nothing; otherwise they
    return true and send the set-gain command of the new range, twice in one
    transfer.  A [gain_down] after a successful [gain_up] restores the
    range. *)
Theorem gain_up_and_down_step_within_range GAIN_MIN_RANGE_INDEX st :
  0 <= GAIN_MIN_RANGE_INDEX <= Gain.GAIN_MAX_RANGE_INDEX ->
  GAIN_MIN_RANGE_INDEX <= Gain.s_logical_index st <= Gain.GAIN_MAX_RANGE_INDEX ->
  (if Gain.s_logical_index st <? Gain.GAIN_MAX_RANGE_INDEX
   then exists st',
       Gain.gain_up st = Some (true, st')
       /\ Gain.s_logical_index st' = Gain.s_logical_index st + 1
       /\ Gain.spi_sent st'
          = Gain.spi_sent st
            ++ [[Z.lor Gain.SETGAIN_CMD
                   (nth (Z.to_nat (Gain.s_logical_index st + 1)) Gain.s_gain_mapping 0);
                 Z.lor Gain.SETGAIN_CMD
                   (nth (Z.to_nat (Gain.s_logical_index st + 1)) Gain.s_gain_mapping 0)]]
       /\ exists st'',
           Gain.gain_down GAIN_MIN_RANGE_INDEX st' = Some (true, st'')
           /\ Gain.s_logical_index st'' = Gain.s_logical_index st
   else Gain.gain_up st = Some (false, st))
  /\ (if GAIN_MIN_RANGE_INDEX <? Gain.s_logical_index st
      then exists st',
          Gain.gain_down GAIN_MIN_RANGE_INDEX st = Some (true, st')
          /\ Gain.s_logical_index st' = Gain.s_logical_index st - 1
          /\ Gain.spi_sent st'
             = Gain.spi_sent st
               ++ [[Z.lor Gain.SETGAIN_CMD
                      (nth (Z.to_nat (Gain.s_logical_index st - 1)) Gain.s_gain_mapping 0);
                    Z.lor Gain.SETGAIN_CMD
                      (nth (Z.to_nat (Gain.s_logical_index st - 1))
                         Gain.s_gain_mapping 0)]]
      else Gain.gain_down GAIN_MIN_RANGE_INDEX st = Some (false, st)).
Proof.
  intros Hmin Hidx. destruct st as [i log]. cbn [Gain.s_logical_index Gain.spi_sent] in *.
  assert (Hmax : Gain.GAIN_MAX_RANGE_INDEX = 4) by reflexivity.
  assert (Hu16 : forall x, 0 <= x <= 4 -> Int.to_uint16 x = x).
  { intros x Hx. unfold Int.to_uint16, Int.to_unsigned. apply Z.mod_small. lia. }
  split.
  - unfold Gain.gain_up. cbn [Gain.s_logical_index Gain.spi_sent].
    destruct (Z.ltb_spec i Gain.GAIN_MAX_RANGE_INDEX) as [Hlt | Hge]; [|reflexivity].
    rewrite (Hu16 (i + 1)) by lia.
    rewrite set_gain_in_range by lia.
    eexists. split; [reflexivity|]. split; [reflexivity|]. split; [reflexivity|].
    unfold Gain.gain_down, Gain.HAL_SPI_Transmit_IT.
    cbn [Gain.s_logical_index Gain.spi_sent].
    destruct (Z.ltb_spec GAIN_MIN_RANGE_INDEX (i + 1)); [|lia].
    replace (i + 1 - 1) with i by lia. rewrite (Hu16 i) by lia.
    rewrite set_gain_in_range by lia.
    eexists. split; reflexivity.
  - unfold Gain.gain_down. cbn [Gain.s_logical_index Gain.spi_sent].
    destruct (Z.ltb_spec GAIN_MIN_RANGE_INDEX i) as [Hlt | Hge]; [|reflexivity].
    rewrite (Hu16 (i - 1)) by lia.
    rewrite set_gain_in_range by lia.
    eexists. split; [reflexivity|]. split; reflexivity.
Qed.

Lemma gain_up_and_down_step_within_range_witness :
  exists st',
    Gain.gain_up (Gain.gain_init (Gain.mk_state 0 [])) = Some (true, st')
    /\ Gain.s_logical_index st' = 4
    /\ Gain.spi_sent st' = [[16390; 16390]].
Proof.
  destruct (gain_up_and_down_step_within_range 0 (Gain.gain_init (Gain.mk_state 0 [])))
    as ((st' & Hup & Hindex & Hsent & _) & _).
  - unfold Gain.GAIN_MAX_RANGE_INDEX. lia.
  - cbn. unfold Gain.GAIN_MAX_RANGE_INDEX. lia.
  - exists st'. split; [exact Hup|]. split; [exact Hindex | exact Hsent].
Defined.

(** X13.  [gain_set_db] clamps the request to 0..24 dB and rounds it down to
    the gain step below: whatever the request, the call selects a range
    between 0 and [GAIN_MAX_RANGE_INDEX] and succeeds, and afterwards
    [gain_get_db] returns the largest multiple of 6 dB that does not exceed
    the clamped request; a supported value (0, 6, 12, 18 or 24 dB) is returned
    as requested. *)
Theorem gain_set_db_clamps_and_rounds_down gain_db st :
  exists st',
    Gain.gain_set_db gain_db false st = Some st'
    /\ 0 <= Gain.gain_get_range st' <= Gain.GAIN_MAX_RANGE_INDEX
    /\ Gain.gain_get_db st' = 6 * (Z.max 0 (Z.min 24 gain_db) / 6)
    /\ Gain.gain_get_db st' <= Z.max 0 (Z.min 24 gain_db) < Gain.gain_get_db st' + 6
    /\ (In gain_db Gain.s_gain_db -> Gain.gain_get_db st' = gain_db).
Proof.
  unfold Gain.gain_set_db. cbv zeta.
  change (nth 0 Gain.s_gain_db 0) with 0.
  change (nth (Z.to_nat Gain.GAIN_MAX_RANGE_INDEX) Gain.s_gain_db 0) with 24.
  set (c := Z.max 0 (Z.min 24 gain_db)).
  assert (Hc : 0 <= c <= 24) by (unfold c; lia).
  replace (if 24 <? (if gain_db <? 0 then 0 else gain_db)
           then 24 else if gain_db <? 0 then 0 else gain_db) with c.
  2:{ unfold c. destruct (Z.ltb_spec gain_db 0);
        [destruct (Z.ltb_spec 24 0); lia | destruct (Z.ltb_spec 24 gain_db); lia]. }
  rewrite Z.sub_0_r, to_int32_id by (unfold Int.INT32_MIN, Int.INT32_MAX; lia).
  rewrite Z.quot_div_nonneg by (unfold Gain.GAIN_DB_STEPSIZE; lia).
  change Gain.GAIN_DB_STEPSIZE with 6.
  assert (Hq : 0 <= c / 6 <= 4).
  { split; [apply Z.div_pos; lia | apply Z.div_le_upper_bound; lia]. }
  pose proof (Z.div_mod c 6 ltac:(lia)) as Hdm.
  pose proof (Z.mod_pos_bound c 6 ltac:(lia)) as Hmod.
  unfold Gain.gain_set. cbv zeta. cbn [Gain.s_logical_index].
  assert (Hu16 : Int.to_uint16 (c / 6) = c / 6).
  { unfold Int.to_uint16, Int.to_unsigned. apply Z.mod_small. lia. }
  rewrite Hu16, set_gain_in_range by (unfold Gain.GAIN_MAX_RANGE_INDEX; lia).
  eexists. split; [reflexivity|].
  unfold Gain.gain_get_range, Gain.gain_get_db, Gain.HAL_SPI_Transmit_IT.
  cbn [Gain.s_logical_index]. rewrite ?Hu16.
  assert (Hdb : nth (Z.to_nat (c / 6)) Gain.s_gain_db 0 = 6 * (c / 6)).
  { destruct (gain_index_cases (c / 6)) as [-> | [-> | [-> | [-> | ->]]]];
      [unfold Gain.GAIN_MAX_RANGE_INDEX; lia | reflexivity..]. }
  rewrite Hdb.
  split; [unfold Gain.GAIN_MAX_RANGE_INDEX; lia|].
  split; [reflexivity|]. split; [lia|].
  intros Hin. cbn in Hin.
  assert (Hval : c = gain_db) by (unfold c; lia).
  rewrite Hval in *.
  destruct Hin as [<- | [<- | [<- | [<- | [<- | []]]]]]; reflexivity.
Qed.

(** X14.  Muting keeps the gain range.  For a range between 0 and
    [GAIN_MAX_RANGE_INDEX], [gain_set] with [disabled] set records the range
    and sends the shutdown command instead of the set-gain command;
    [gain_reenable] then sends the very command that [gain_set] without
    [disabled] sends, and both leave the same range selected.  Without
    [disabled], a range index above [GAIN_MAX_RANGE_INDEX] reads past the
    mapping table. *)
Theorem gain_mute_keeps_range gain_index st :
  0 <= gain_index <= Gain.GAIN_MAX_RANGE_INDEX ->
  exists muted reenabled direct,
    Gain.gain_set gain_index true st = Some muted
    /\ Gain.gain_get_range muted = gain_index
    /\ Gain.spi_sent muted = Gain.spi_sent st ++ [[Gain.SHUTDOWN_CMD; Gain.SHUTDOWN_CMD]]
    /\ Gain.gain_reenable muted = Some reenabled
    /\ Gain.gain_set gain_index false st = Some direct
    /\ Gain.gain_get_range reenabled = Gain.gain_get_range direct
    /\ last (Gain.spi_sent reenabled) = last (Gain.spi_sent direct)
    /\ Gain.spi_sent direct
       = Gain.spi_sent st
         ++ [[Z.lor Gain.SETGAIN_CMD (nth (Z.to_nat gain_index) Gain.s_gain_mapping 0);
              Z.lor Gain.SETGAIN_CMD (nth (Z.to_nat gain_index) Gain.s_gain_mapping 0)]]
    /\ forall beyond,
        Gain.GAIN_MAX_RANGE_INDEX < beyond < 65536 ->
        Gain.gain_set beyond false st = None.
Proof.
  intros Hi.
  assert (Hu16 : Int.to_uint16 gain_index = gain_index).
  { unfold Int.to_uint16, Int.to_unsigned. apply Z.mod_small.
    unfold Gain.GAIN_MAX_RANGE_INDEX in Hi. lia. }
  set (cmd := Z.lor Gain.SETGAIN_CMD (nth (Z.to_nat gain_index) Gain.s_gain_mapping 0)).
  set (muted := Gain.gain_disable (Gain.mk_state gain_index (Gain.spi_sent st))).
  exists muted, (Gain.HAL_SPI_Transmit_IT [cmd; cmd] muted),
    (Gain.HAL_SPI_Transmit_IT [cmd; cmd] (Gain.mk_state gain_index (Gain.spi_sent st))).
  unfold Gain.gain_set, Gain.gain_reenable, Gain.gain_get_range. cbv zeta.
  cbn [Gain.s_logical_index]. rewrite Hu16.
  split; [reflexivity|]. split; [reflexivity|]. split; [reflexivity|].
  split; [apply set_gain_in_range; exact Hi|].
  split; [apply set_gain_in_range; exact Hi|].
  split; [reflexivity|].
  cbn [Gain.spi_sent Gain.HAL_SPI_Transmit_IT].
  split; [rewrite !last_snoc; reflexivity|]. split; [reflexivity|].
  intros beyond Hbeyond.
  assert (Hu : Int.to_uint16 beyond = beyond).
  { unfold Int.to_uint16, Int.to_unsigned. apply Z.mod_small.
    unfold Gain.GAIN_MAX_RANGE_INDEX in Hbeyond. lia. }
  rewrite Hu. apply set_gain_out_of_range. right. apply Hbeyond.
Qed.

Lemma gain_mute_keeps_range_witness :
  exists muted reenabled,
    Gain.gain_set 2 true (Gain.mk_state 0 []) = Some muted
    /\ Gain.gain_reenable muted = Some reenabled
    /\ Gain.spi_sent reenabled = [[8192; 8192]; [16386; 16386]].
Proof.
  destruct (gain_mute_keeps_range 2 (Gain.mk_state 0 []))
    as (muted & reenabled & direct & Hset & _ & _ & Hre & _).
  - unfold Gain.GAIN_MAX_RANGE_INDEX. lia.
  - exists muted, reenabled. split; [exact Hset|]. split; [exact Hre|].
    injection Hset as <-. injection Hre as <-. reflexivity.
Defined.

(** ** Thresholds and the gain tables *)

(** X15.  The gain tables agree, and the threshold adjustment is the squared
    gain ratio.  For every gain range from 0 to [GAIN_MAX_RANGE_INDEX] the
    gain value is two to the power of the gain shift, the shift applied to
    the thresholds is [GAIN_MAX_RANGE_INDEX - range], never negative, and the
    adjusted threshold is the configured one divided (rounding down) by the
    square of the ratio of the gain of the most sensitive range to the gain
    of the range; on the most sensitive range the threshold is used as
    configured. *)
Theorem threshold_divided_by_squared_gain_ratio range pv :
  0 <= range <= Gain.GAIN_MAX_RANGE_INDEX ->
  Gain.gain_for_range range = 2 ^ Gain.gain_shift_for_range range
  /\ Trigger.shift_for_gain_of range = Gain.GAIN_MAX_RANGE_INDEX - range
  /\ Trigger.adjust_threshold pv (Trigger.shift_for_gain_of range)
     = pv / (Gain.gain_for_range Gain.GAIN_MAX_RANGE_INDEX / Gain.gain_for_range range) ^ 2
  /\ (range = Gain.GAIN_MAX_RANGE_INDEX ->
      Trigger.adjust_threshold pv (Trigger.shift_for_gain_of range) = pv).
Proof.
  intros Hr. unfold Trigger.adjust_threshold.
  destruct (gain_index_cases range Hr) as [-> | [-> | [-> | [-> | ->]]]];
    (split; [reflexivity|]); (split; [reflexivity|]);
    match goal with
    | |- context [Trigger.shift_for_gain_of ?r] =>
        let k := eval vm_compute in (Trigger.shift_for_gain_of r) in
        change (Trigger.shift_for_gain_of r) with k
    end;
    rewrite !Z.shiftr_div_pow2, Z.div_div by lia;
    (split; [reflexivity|]); intros Heq; try discriminate Heq.
  apply Z.div_1_r.
Qed.

Lemma threshold_divided_by_squared_gain_ratio_witness :
  Trigger.adjust_threshold 1000 (Trigger.shift_for_gain_of 2) = 1000 / 4 ^ 2.
Proof.
  apply (threshold_divided_by_squared_gain_ratio 2 1000).
  unfold Gain.GAIN_MAX_RANGE_INDEX. lia.
Defined.

(** ** Spectral trigger detector: the match vector, the windows, the count *)

Lemma nth_insert_bool (l : list bool) (i j : nat) (x : bool) :
  nth j (<[i := x]> l) false
  = if (Nat.eqb i j) && (j <? length l)%nat then x else nth j l false.
Proof.
  rewrite !nth_lookup.
  destruct (Nat.eqb_spec i j) as [-> | Hne]; cbn [andb].
  - destruct (Nat.ltb_spec j (length l)).
    + rewrite list_lookup_insert_eq by assumption. reflexivity.
    + rewrite list_insert_ge by lia. reflexivity.
  - rewrite list_lookup_insert_ne by assumption. reflexivity.
Qed.

Lemma check_loop_matches freq_buckets pv pf shift_for_gain n :
  forall i match_count m,
    (i + n <= length m)%nat ->
    exists m',
      snd (Trigger.check_loop n i freq_buckets pv pf shift_for_gain match_count (Some m))
      = Some m'
      /\ length m' = length m
      /\ forall j,
          nth j m' false
          = if (i <=? j)%nat && (j <? i + n)%nat
               && nth j pf false
               && negb (nth j pv 0 =? Settings.SETTINGS_IGNORE_TRIGGER_VALUE)
            then Trigger.adjust_threshold (nth j pv 0) shift_for_gain
                 <=? nth j freq_buckets 0
            else nth j m false.
Proof.
  induction n as [|n IH]; intros i match_count m Hlen.
  - exists m. split; [reflexivity|]. split; [reflexivity|]. intros j.
    destruct (Nat.leb_spec i j), (Nat.ltb_spec j (i + 0)); cbn [andb]; try reflexivity.
    lia.
  - cbn [Trigger.check_loop].
    destruct (nth i pf false) eqn:Hflag; cbn [negb orb].
    + destruct (nth i pv 0 =? Settings.SETTINGS_IGNORE_TRIGGER_VALUE) eqn:Hignore.
      * destruct (IH (S i) match_count m ltac:(lia)) as (m' & Hrun & Hl & Hnth).
        exists m'. split; [exact Hrun|]. split; [exact Hl|]. intros j. rewrite Hnth.
        destruct (Nat.eq_dec j i) as [-> | Hne].
        -- rewrite Hflag, Hignore.
           destruct (Nat.leb_spec (S i) i); [lia|].
           rewrite !andb_false_r. reflexivity.
        -- destruct (Nat.leb_spec (S i) j), (Nat.leb_spec i j),
             (Nat.ltb_spec j (S i + n)), (Nat.ltb_spec j (i + S n));
             cbn [andb]; try reflexivity; lia.
      * cbv zeta. cbn [fmap option_fmap option_map].
        set (matched := Trigger.adjust_threshold (nth i pv 0) shift_for_gain
                        <=? nth i freq_buckets 0).
        destruct (IH (S i) (if matched then Int.to_int32 (match_count + 1)
                            else match_count)
                    (<[i := matched]> m)) as (m' & Hrun & Hl & Hnth).
        { rewrite length_insert. lia. }
        exists m'. split; [exact Hrun|].
        split; [rewrite Hl; apply length_insert|]. intros j. rewrite Hnth.
        rewrite nth_insert_bool.
        destruct (Nat.eq_dec j i) as [-> | Hne].
        -- rewrite Hflag, Hignore, Nat.eqb_refl.
           destruct (Nat.leb_spec (S i) i); [lia|].
           destruct (Nat.leb_spec i i); [|lia].
           destruct (Nat.ltb_spec i (i + S n)); [|lia].
           destruct (Nat.ltb_spec i (length m)); [|lia].
           cbn [andb negb]. reflexivity.
        -- destruct (Nat.eqb_spec i j); [lia|]. cbn [andb].
           destruct (Nat.leb_spec (S i) j), (Nat.leb_spec i j),
             (Nat.ltb_spec j (S i + n)), (Nat.ltb_spec j (i + S n));
             cbn [andb]; try reflexivity; lia.
    + destruct (IH (S i) match_count m ltac:(lia)) as (m' & Hrun & Hl & Hnth).
      exists m'. split; [exact Hrun|]. split; [exact Hl|]. intros j. rewrite Hnth.
      destruct (Nat.eq_dec j i) as [-> | Hne].
      * rewrite Hflag.
        destruct (Nat.leb_spec (S i) i); [lia|].
        rewrite !andb_false_r. reflexivity.
      * destruct (Nat.leb_spec (S i) j), (Nat.leb_spec i j),
          (Nat.ltb_spec j (S i + n)), (Nat.ltb_spec j (i + S n));
          cbn [andb]; try reflexivity; lia.
Qed.

(** X16.  The match vector of [check_for_trigger].  Given a vector of
    [MAX_TRIGGER_MATCH_CLAUSES] entries, the call writes, for every bucket
    whose flag is set and whose threshold is not the ignore value, whether
    the bucket power reaches the gain-adjusted threshold, and leaves the
    entries of all other buckets as they were; given no vector ([NULL]) it
    returns none. *)
Theorem check_for_trigger_records_matches ps s_logical_index freq_buckets matches :
  length matches = Settings.MAX_TRIGGER_MATCH_CLAUSES ->
  (exists matches',
      snd (Trigger.check_for_trigger ps s_logical_index freq_buckets (Some matches))
      = Some matches'
      /\ length matches' = Settings.MAX_TRIGGER_MATCH_CLAUSES
      /\ forall i,
          (i < Settings.MAX_TRIGGER_MATCH_CLAUSES)%nat ->
          nth i matches' false
          = if nth i (Settings._trigger_flags ps) false
               && negb (nth i (Settings._trigger_thresholds ps) 0
                        =? Settings.SETTINGS_IGNORE_TRIGGER_VALUE)
            then Trigger.bucket_matches ps s_logical_index freq_buckets i
            else nth i matches false)
  /\ snd (Trigger.check_for_trigger ps s_logical_index freq_buckets None) = None.
Proof.
  intros Hlen. split.
  - unfold Trigger.check_for_trigger. rewrite shift_for_gain_exact.
    destruct (check_loop_matches freq_buckets (Settings._trigger_thresholds ps)
                (Settings._trigger_flags ps) (Trigger.shift_for_gain_of s_logical_index)
                Settings.MAX_TRIGGER_MATCH_CLAUSES 0%nat 0 matches)
      as (m' & Hrun & Hl & Hnth); [rewrite Hlen; cbn; lia|].
    destruct (Trigger.check_loop _ _ _ _ _ _ _ _) as [match_count out].
    cbn [snd] in *. subst out.
    exists m'. split; [reflexivity|]. split; [rewrite Hl; exact Hlen|].
    intros i Hi. rewrite Hnth. unfold Trigger.bucket_matches.
    destruct (Nat.leb_spec 0 i); [|lia].
    destruct (Nat.ltb_spec i (0 + Settings.MAX_TRIGGER_MATCH_CLAUSES)); [|lia].
    cbn [andb].
    destruct (nth i (Settings._trigger_flags ps) false); cbn [andb]; [|reflexivity].
    destruct (negb (nth i (Settings._trigger_thresholds ps) 0
                    =? Settings.SETTINGS_IGNORE_TRIGGER_VALUE)); reflexivity.
  - unfold Trigger.check_for_trigger.
    assert (Hnone : forall n i mc shift,
               snd (Trigger.check_loop n i freq_buckets (Settings._trigger_thresholds ps)
                      (Settings._trigger_flags ps) shift mc None) = None).
    { induction n as [|n IH]; intros i mc shift; cbn [Trigger.check_loop];
        [reflexivity|].
      destruct (negb (nth i (Settings._trigger_flags ps) false)
                || (nth i (Settings._trigger_thresholds ps) 0
                    =? Settings.SETTINGS_IGNORE_TRIGGER_VALUE)); apply IH. }
    cbv zeta.
    match goal with
    | |- context [Trigger.check_loop ?n ?i ?f ?pv ?pf ?sh ?mc None] =>
        pose proof (Hnone n i mc sh) as H;
        destruct (Trigger.check_loop n i f pv pf sh mc None) as [c out]
    end.
    exact H.
Qed.

Lemma check_for_trigger_records_matches_witness :
  exists matches',
    snd (Trigger.check_for_trigger (Trigger.single_bucket_profile 8) 4 [9]
           (Some (repeat true 16))) = Some matches'
    /\ nth 0 matches' false = true.
Proof.
  destruct (check_for_trigger_records_matches (Trigger.single_bucket_profile 8) 4 [9]
              (repeat true 16)) as ((m' & Hrun & _ & Hnth) & _).
  - reflexivity.
  - exists m'. split; [exact Hrun|]. rewrite (Hnth 0%nat); [reflexivity|].
    unfold Settings.MAX_TRIGGER_MATCH_CLAUSES. lia.
Defined.

Lemma match_count_bounds ps s_logical_index freq_buckets :
  0 <= Trigger.match_count_of ps s_logical_index freq_buckets
  <= Z.of_nat Settings.MAX_TRIGGER_MATCH_CLAUSES.
Proof.
  unfold Trigger.match_count_of.
  pose proof (List.filter_length_le
                (Trigger.bucket_matches ps s_logical_index freq_buckets)
                (seq 0 Settings.MAX_TRIGGER_MATCH_CLAUSES)) as H.
  rewrite length_seq in H. lia.
Qed.

Lemma match_count_positive ps s_logical_index freq_buckets :
  0 < Trigger.match_count_of ps s_logical_index freq_buckets
  <-> exists i, (i < Settings.MAX_TRIGGER_MATCH_CLAUSES)%nat
                /\ Trigger.bucket_matches ps s_logical_index freq_buckets i = true.
Proof.
  unfold Trigger.match_count_of.
  set (l := seq 0 Settings.MAX_TRIGGER_MATCH_CLAUSES).
  assert (Hl : forall i, In i l <-> (i < Settings.MAX_TRIGGER_MATCH_CLAUSES)%nat).
  { intros i. unfold l. rewrite in_seq. lia. }
  clearbody l. split.
  - intros Hpos.
    destruct (List.filter (Trigger.bucket_matches ps s_logical_index freq_buckets) l)
      as [|i rest] eqn:Hf; [cbn in Hpos; lia|].
    assert (Hin : In i (List.filter
                          (Trigger.bucket_matches ps s_logical_index freq_buckets) l))
      by (rewrite Hf; left; reflexivity).
    apply List.filter_In in Hin as [Hin Hm].
    exists i. split; [apply Hl; exact Hin | exact Hm].
  - intros (i & Hi & Hm).
    assert (Hin : In i (List.filter
                          (Trigger.bucket_matches ps s_logical_index freq_buckets) l))
      by (apply List.filter_In; split; [apply Hl; exact Hi | exact Hm]).
    destruct (List.filter (Trigger.bucket_matches ps s_logical_index freq_buckets) l);
      [destruct Hin | cbn [length]; lia].
Qed.

(** X17.  The match count and the limit.  The number of matching buckets
    lies between 0 and [MAX_TRIGGER_MATCH_CLAUSES].  Hence with
    [trigger_max_count] at [MAX_TRIGGER_MATCH_CLAUSES] or above,
    [check_for_trigger] triggers exactly when some bucket matches; and with
    [trigger_max_count] below 1 it never triggers. *)
Theorem check_for_trigger_with_extreme_limits ps s_logical_index freq_buckets matches :
  0 <= Trigger.match_count_of ps s_logical_index freq_buckets
  <= Z.of_nat Settings.MAX_TRIGGER_MATCH_CLAUSES
  /\ (Z.of_nat Settings.MAX_TRIGGER_MATCH_CLAUSES <= Settings.trigger_max_count ps ->
      (fst (Trigger.check_for_trigger ps s_logical_index freq_buckets matches) = true
       <-> exists i, (i < Settings.MAX_TRIGGER_MATCH_CLAUSES)%nat
                     /\ Trigger.bucket_matches ps s_logical_index freq_buckets i = true))
  /\ (Settings.trigger_max_count ps < 1 ->
      fst (Trigger.check_for_trigger ps s_logical_index freq_buckets matches) = false).
Proof.
  pose proof (match_count_bounds ps s_logical_index freq_buckets) as Hb.
  split; [exact Hb|].
  rewrite check_for_trigger_decision.
  split.
  - intros Hmax. rewrite <- match_count_positive.
    rewrite andb_true_iff, Z.ltb_lt, Z.leb_le. lia.
  - intros Hmax. apply andb_false_iff.
    destruct (Z.ltb_spec 0 (Trigger.match_count_of ps s_logical_index freq_buckets));
      [right; apply Z.leb_gt; lia | left; reflexivity].
Qed.

(** ** Sample acquirer: the two halves of the frame *)

Lemma scale_loop_above dmabuffer offset leftshift correction n :
  forall p raw_buffer overload j,
    (p + n <= j)%nat ->
    nth j (fst (Acquisition.scale_loop n p p dmabuffer offset leftshift correction
                  raw_buffer overload)) 0
    = nth j raw_buffer 0.
Proof.
  induction n as [|n IH]; intros p raw_buffer overload j Hj;
    cbn [Acquisition.scale_loop]; [reflexivity|].
  rewrite IH by lia. apply nth_insert_ne. lia.
Qed.

(** X18.  Each half-frame interrupt writes its own half of the raw buffer
    only.  With capture enabled, the half-complete callback leaves every
    sample from [HALF_SAMPLES_PER_FRAME] on as it was, and the complete
    callback leaves every sample below [HALF_SAMPLES_PER_FRAME] as it was;
    either one publishes its half (pointer, generation counter plus one, ready
    flag) and hands the buffer with the offset of its half to the registered
    processor, and only the complete callback counts a conversion.  With
    capture disabled neither touches the buffer or the published pointer. *)
Theorem half_frame_callbacks_write_disjoint_halves
    (HALF_SAMPLES_PER_FRAME : nat) (D : Type)
    (processor : list Z -> nat -> D -> D) (g_dmabuffer1 : list Z)
    (s : Acquisition.state) (d : D) :
  let half :=
    Acquisition.HAL_ADC_ConvHalfCpltCallback HALF_SAMPLES_PER_FRAME (Some processor)
      g_dmabuffer1 s d in
  let full :=
    Acquisition.HAL_ADC_ConvCpltCallback HALF_SAMPLES_PER_FRAME (Some processor)
      g_dmabuffer1 s d in
  (Acquisition.s_enable_capture s = true ->
   (forall j, (HALF_SAMPLES_PER_FRAME <= j)%nat ->
              nth j (Acquisition.s_raw_buffer_q15 (fst (fst half))) 0
              = nth j (Acquisition.s_raw_buffer_q15 s) 0)
   /\ (forall j, (j < HALF_SAMPLES_PER_FRAME)%nat ->
                 nth j (Acquisition.s_raw_buffer_q15 (fst (fst full))) 0
                 = nth j (Acquisition.s_raw_buffer_q15 s) 0)
   /\ Acquisition.g_raw_half_frame (fst (fst half)) = Some 0%nat
   /\ Acquisition.g_raw_half_frame (fst (fst full)) = Some HALF_SAMPLES_PER_FRAME
   /\ Acquisition.g_raw_half_frame_counter (fst (fst half))
      = Int.to_int32 (Acquisition.g_raw_half_frame_counter s + 1)
   /\ Acquisition.g_raw_half_frame_ready (fst (fst full)) = true
   /\ snd half = processor (Acquisition.s_raw_buffer_q15 (fst (fst half))) 0%nat d
   /\ snd full
      = processor (Acquisition.s_raw_buffer_q15 (fst (fst full))) HALF_SAMPLES_PER_FRAME d
   /\ Acquisition.s_conv_counter (fst (fst half)) = Acquisition.s_conv_counter s
   /\ Acquisition.s_conv_counter (fst (fst full))
      = Int.to_int32 (Acquisition.s_conv_counter s + 1))
  /\ (Acquisition.s_enable_capture s = false ->
      half = (s, false, d)
      /\ Acquisition.s_raw_buffer_q15 (fst (fst full)) = Acquisition.s_raw_buffer_q15 s
      /\ Acquisition.g_raw_half_frame (fst (fst full)) = Acquisition.g_raw_half_frame s
      /\ Acquisition.g_raw_half_frame_ready (fst (fst full))
         = Acquisition.g_raw_half_frame_ready s
      /\ Acquisition.s_conv_counter (fst (fst full))
         = Int.to_int32 (Acquisition.s_conv_counter s + 1)
      /\ snd full = d).
Proof.
  intros half full. subst half full.
  unfold Acquisition.HAL_ADC_ConvHalfCpltCallback, Acquisition.HAL_ADC_ConvCpltCallback,
    Acquisition.process_half_frame.
  split; intros Hcap; rewrite Hcap.
  - cbv zeta.
    pose proof (scale_loop_above g_dmabuffer1
                  (Int.to_int16 Acquisition.ACQUISITION_OFFSET)
                  Acquisition.ACQUISITION_LEFTSHIFT
                  (Acquisition.s_signal_offset_correction s) HALF_SAMPLES_PER_FRAME 0
                  (Acquisition.s_raw_buffer_q15 s) false) as Habove.
    pose proof (scale_loop_below g_dmabuffer1
                  (Int.to_int16 Acquisition.ACQUISITION_OFFSET)
                  Acquisition.ACQUISITION_LEFTSHIFT
                  (Acquisition.s_signal_offset_correction s) HALF_SAMPLES_PER_FRAME
                  HALF_SAMPLES_PER_FRAME (Acquisition.s_raw_buffer_q15 s) false)
      as Hbelow.
    destruct (Acquisition.scale_loop HALF_SAMPLES_PER_FRAME 0 0 _ _ _ _ _ _)
      as [raw1 overload1].
    destruct (Acquisition.scale_loop HALF_SAMPLES_PER_FRAME HALF_SAMPLES_PER_FRAME
                HALF_SAMPLES_PER_FRAME _ _ _ _ _ _) as [raw2 overload2].
    cbn [fst snd Acquisition.s_raw_buffer_q15 Acquisition.g_raw_half_frame
           Acquisition.g_raw_half_frame_counter Acquisition.g_raw_half_frame_ready
           Acquisition.s_conv_counter] in *.
    split; [intros j Hj; apply Habove; lia|].
    split; [exact Hbelow|].
    repeat split.
  - cbn [fst snd Acquisition.s_raw_buffer_q15 Acquisition.g_raw_half_frame
           Acquisition.g_raw_half_frame_counter Acquisition.g_raw_half_frame_ready
           Acquisition.s_conv_counter].
    repeat split.
Qed.

Lemma acquisition_sample_exact value :
  0 <= value < 65536 ->
  Acquisition.scale_sample value (Int.to_int16 Acquisition.ACQUISITION_OFFSET)
    Acquisition.ACQUISITION_LEFTSHIFT 0
  = value - 32768.
Proof.
  intros Hv. rewrite scale_sample_exact.
  change (Int.to_uint16 (Int.to_int16 Acquisition.ACQUISITION_OFFSET)) with 32768.
  change Acquisition.ACQUISITION_LEFTSHIFT with 0.
  rewrite Z.shiftl_0_r, Z.sub_0_r.
  unfold Int.to_int16, Int.to_signed.
  rewrite Z.mod_small by lia. lia.
Qed.

(** X19.  The acquisition converts offset binary to two's complement without
    loss.  With capture enabled and no offset correction, the half-complete
    callback publishes for every 16-bit ADC code [v] of the first half of the
    DMA buffer the sample [v - 32768] exactly, and asks for the red LED
    exactly when some code of that half is above 57344 or below 8192. *)
Theorem acquisition_converts_offset_binary_exactly
    (HALF_SAMPLES_PER_FRAME : nat) (D : Type)
    (s_data_processor : option (list Z -> nat -> D -> D)) (g_dmabuffer1 : list Z)
    (s : Acquisition.state) (d : D) :
  Acquisition.s_enable_capture s = true ->
  Acquisition.s_signal_offset_correction s = 0 ->
  (HALF_SAMPLES_PER_FRAME <= length (Acquisition.s_raw_buffer_q15 s))%nat ->
  (forall j, (j < HALF_SAMPLES_PER_FRAME)%nat -> 0 <= nth j g_dmabuffer1 0 < 65536) ->
  let result :=
    Acquisition.HAL_ADC_ConvHalfCpltCallback HALF_SAMPLES_PER_FRAME s_data_processor
      g_dmabuffer1 s d in
  (forall j, (j < HALF_SAMPLES_PER_FRAME)%nat ->
             nth j (Acquisition.s_raw_buffer_q15 (fst (fst result))) 0
             = nth j g_dmabuffer1 0 - 32768)
  /\ (snd (fst result) = true
      <-> exists j, (j < HALF_SAMPLES_PER_FRAME)%nat
                    /\ (nth j g_dmabuffer1 0 > 57344 \/ nth j g_dmabuffer1 0 < 8192)).
Proof.
  intros Hcap Hcorr Hlen Hcodes result. subst result.
  unfold Acquisition.HAL_ADC_ConvHalfCpltCallback, Acquisition.process_half_frame.
  rewrite Hcap, Hcorr. cbv zeta.
  pose proof (scale_loop_published g_dmabuffer1
                (Int.to_int16 Acquisition.ACQUISITION_OFFSET)
                Acquisition.ACQUISITION_LEFTSHIFT 0 HALF_SAMPLES_PER_FRAME 0
                (Acquisition.s_raw_buffer_q15 s) false) as Hpub.
  pose proof (scale_loop_overload g_dmabuffer1
                (Int.to_int16 Acquisition.ACQUISITION_OFFSET)
                Acquisition.ACQUISITION_LEFTSHIFT 0 HALF_SAMPLES_PER_FRAME 0
                (Acquisition.s_raw_buffer_q15 s) false) as Hover.
  destruct (Acquisition.scale_loop HALF_SAMPLES_PER_FRAME 0 0 _ _ _ _ _ _)
    as [raw1 overload1].
  cbn [fst snd Acquisition.s_raw_buffer_q15] in *.
  split.
  - intros j Hj. rewrite Hpub by lia. apply acquisition_sample_exact. apply Hcodes. exact Hj.
  - rewrite Hover. cbn [orb]. rewrite existsb_exists. split.
    + intros (j & Hin & Hov). apply in_seq in Hin.
      exists j. split; [lia|].
      rewrite acquisition_sample_exact in Hov by (apply Hcodes; lia).
      apply is_overload_spec in Hov. unfold Acquisition.SCALE_DOWN_DELTA in Hov. lia.
    + intros (j & Hj & Hov). exists j. split; [apply in_seq; lia|].
      rewrite acquisition_sample_exact by (apply Hcodes; lia).
      apply is_overload_spec. unfold Acquisition.SCALE_DOWN_DELTA. lia.
Qed.

Lemma acquisition_converts_offset_binary_exactly_witness :
  nth 1
    (Acquisition.s_raw_buffer_q15
       (fst (fst (Acquisition.HAL_ADC_ConvHalfCpltCallback 2 (@None (list Z -> nat -> unit -> unit))
                    [32768; 40000; 0; 0]
                    (Acquisition.mk_state [0; 0; 0; 0] 0 true 0 None 0 false) tt)))) 0
  = 40000 - 32768.
Proof.
  apply (acquisition_converts_offset_binary_exactly 2 unit None [32768; 40000; 0; 0]
           (Acquisition.mk_state [0; 0; 0; 0] 0 true 0 None 0 false) tt).
  - reflexivity.
  - reflexivity.
  - cbn. lia.
  - intros j Hj. destruct j as [|[|j]]; cbn; lia.
  - lia.
Defined.

(** ** Squared magnitude: the unrolled loop *)

Section CmplxMagSquaredLoops.

Variables (SIMD32 SMUAD : Z -> Z -> Z).

Let power (pSrc : list Z) (i : nat) : Z :=
  SMUAD (SIMD32 (nth (2 * i) pSrc 0) (nth (2 * i + 1) pSrc 0))
    (SIMD32 (nth (2 * i) pSrc 0) (nth (2 * i + 1) pSrc 0)).

Lemma nth_drop_Z (l : list Z) (k i : nat) : nth i (drop k l) 0 = nth (k + i) l 0.
Proof. rewrite !nth_lookup, lookup_drop. reflexivity. Qed.

Lemma remainder_loop_spec n :
  forall src pSrc pDst dst,
    pSrc = drop (2 * pDst) src ->
    (pDst + n <= length dst)%nat ->
    let out := CmplxMagSquared.remainder_loop SIMD32 SMUAD n pSrc pDst dst in
    length out = length dst
    /\ forall i,
        nth i out 0
        = if (pDst <=? i)%nat && (i <? pDst + n)%nat then power src i else nth i dst 0.
Proof.
  induction n as [|n IH]; intros src pSrc pDst dst Hsrc Hlen;
    cbn [CmplxMagSquared.remainder_loop].
  - split; [reflexivity|]. intros i.
    destruct (Nat.leb_spec pDst i), (Nat.ltb_spec i (pDst + 0)); cbn [andb];
      try reflexivity; lia.
  - destruct (IH src (drop 2 pSrc) (S pDst)
                (<[pDst := SMUAD (SIMD32 (nth 0 pSrc 0) (nth 1 pSrc 0))
                             (SIMD32 (nth 0 pSrc 0) (nth 1 pSrc 0))]> dst))
      as (Hl & Hnth).
    { rewrite Hsrc, drop_drop. f_equal. lia. }
    { rewrite length_insert. lia. }
    split; [rewrite Hl; apply length_insert|].
    intros i. rewrite Hnth.
    destruct (Nat.eq_dec i pDst) as [-> | Hne].
    + destruct (Nat.leb_spec (S pDst) pDst); [lia|].
      destruct (Nat.leb_spec pDst pDst); [|lia].
      destruct (Nat.ltb_spec pDst (pDst + S n)); [|lia].
      cbn [andb]. rewrite nth_insert_eq by lia.
      unfold power. rewrite Hsrc, !nth_drop_Z.
      replace (2 * pDst + 0)%nat with (2 * pDst)%nat by lia. reflexivity.
    + rewrite nth_insert_ne by lia.
      destruct (Nat.leb_spec (S pDst) i), (Nat.leb_spec pDst i),
        (Nat.ltb_spec i (S pDst + n)), (Nat.ltb_spec i (pDst + S n));
        cbn [andb]; try reflexivity; lia.
Qed.

Lemma unrolled_loop_as_remainder_loop n :
  forall pSrc pDst dst,
    CmplxMagSquared.remainder_loop SIMD32 SMUAD (4 * n) pSrc pDst dst
    = snd (CmplxMagSquared.unrolled_loop SIMD32 SMUAD n pSrc pDst dst)
    /\ fst (fst (CmplxMagSquared.unrolled_loop SIMD32 SMUAD n pSrc pDst dst))
       = drop (8 * n) pSrc
    /\ snd (fst (CmplxMagSquared.unrolled_loop SIMD32 SMUAD n pSrc pDst dst))
       = (pDst + 4 * n)%nat.
Proof.
  induction n as [|n IH]; intros pSrc pDst dst.
  - cbn. rewrite drop_0. repeat split; lia.
  - replace (4 * S n)%nat with (S (S (S (S (4 * n))))) by lia.
    cbn [CmplxMagSquared.remainder_loop CmplxMagSquared.unrolled_loop].
    rewrite !nth_drop_Z, !drop_drop. cbn [Nat.add].
    match goal with
    | |- context [CmplxMagSquared.unrolled_loop SIMD32 SMUAD n ?a ?b ?c] =>
        destruct (IH a b c) as (H1 & H2 & H3)
    end.
    rewrite H1, H2, H3, drop_drop.
    split; [reflexivity|]. split; [f_equal; lia | lia].
Qed.

Lemma remainder_loop_app a :
  forall b pSrc pDst dst,
    CmplxMagSquared.remainder_loop SIMD32 SMUAD (a + b) pSrc pDst dst
    = CmplxMagSquared.remainder_loop SIMD32 SMUAD b (drop (2 * a) pSrc) (pDst + a)
        (CmplxMagSquared.remainder_loop SIMD32 SMUAD a pSrc pDst dst).
Proof.
  induction a as [|a IH]; intros b pSrc pDst dst.
  - cbn. rewrite drop_0, Nat.add_0_r. reflexivity.
  - cbn [Nat.add CmplxMagSquared.remainder_loop]. rewrite IH, drop_drop.
    f_equal; [f_equal|]; lia.
Qed.

(** X20.  [cmplx_mag_squared_q15_q31] handles every complex sample once and
    in order, whatever [numSamples] is modulo 4: with a source of at least
    [2 * numSamples] values and a destination of at least [numSamples]
    entries, entry [i] below [numSamples] receives the dual multiply-add of
    the word holding the real and imaginary parts of sample [i] with itself,
    and the destination is untouched from [numSamples] on. *)
Theorem cmplx_mag_squared_covers_every_sample pSrc dst numSamples :
  0 <= numSamples < 2 ^ 32 ->
  (2 * Z.to_nat numSamples <= length pSrc)%nat ->
  (Z.to_nat numSamples <= length dst)%nat ->
  let out := CmplxMagSquared.cmplx_mag_squared_q15_q31 SIMD32 SMUAD pSrc dst numSamples in
  length out = length dst
  /\ forall i,
      nth i out 0
      = if (i <? Z.to_nat numSamples)%nat
        then SMUAD (SIMD32 (nth (2 * i) pSrc 0) (nth (2 * i + 1) pSrc 0))
               (SIMD32 (nth (2 * i) pSrc 0) (nth (2 * i + 1) pSrc 0))
        else nth i dst 0.
Proof.
  intros Hn _ Hlen out. subst out.
  unfold CmplxMagSquared.cmplx_mag_squared_q15_q31.
  rewrite to_uint32_id by lia. rewrite Z.shiftr_div_pow2 by lia.
  change (2 ^ 2) with 4.
  set (q := Z.to_nat (numSamples / 4)).
  set (r := Z.to_nat (numSamples mod 4)).
  assert (Hqr : Z.to_nat numSamples = (4 * q + r)%nat).
  { unfold q, r. pose proof (Z.div_mod numSamples 4 ltac:(lia)).
    pose proof (Z.mod_pos_bound numSamples 4 ltac:(lia)).
    assert (0 <= numSamples / 4) by (apply Z.div_pos; lia). lia. }
  destruct (unrolled_loop_as_remainder_loop q pSrc 0%nat dst) as (H1 & H2 & H3).
  destruct (CmplxMagSquared.unrolled_loop SIMD32 SMUAD q pSrc 0 dst)
    as [[pSrc1 pDst1] dst1].
  cbn [fst snd] in *. subst pSrc1 pDst1 dst1.
  pose proof (remainder_loop_app (4 * q) r pSrc 0%nat dst) as Happ.
  replace (2 * (4 * q))%nat with (8 * q)%nat in Happ by lia.
  rewrite <- Happ.
  destruct (remainder_loop_spec (4 * q + r) pSrc pSrc 0%nat dst)
    as (Hl & Hnth); [rewrite drop_0; reflexivity | lia |].
  split; [exact Hl|].
  intros i. rewrite Hnth, Hqr. cbn [Nat.leb andb Nat.add]. reflexivity.
Qed.

End CmplxMagSquaredLoops.

Lemma cmplx_mag_squared_covers_every_sample_witness :
  nth 4
    (CmplxMagSquared.cmplx_mag_squared_q15_q31 (fun re im => re + 65536 * im)
       (fun x y => x * y) [1; 2; 3; 4; 5; 6; 7; 8; 9; 10] [0; 0; 0; 0; 0; 77] 5) 0
  = (9 + 65536 * 10) * (9 + 65536 * 10).
Proof.
  destruct (cmplx_mag_squared_covers_every_sample (fun re im => re + 65536 * im)
              (fun x y => x * y) [1; 2; 3; 4; 5; 6; 7; 8; 9; 10] [0; 0; 0; 0; 0; 77] 5)
    as (_ & Hnth).
  - lia.
  - cbn. lia.
  - cbn. lia.
  - rewrite (Hnth 4%nat). reflexivity.
Defined.

(** ** Clipped settings and the gain controller *)

(** X21.  The sensitivity range that the settings parser clips reaches the
    gain controller in range.  [clip_to_int_range] returns its argument when
    it lies between the bounds and the nearer bound otherwise; hence, for
    every parsed value, [gain_init] followed by [gain_set] of the value
    clipped to 0..[GAIN_MAX_RANGE_INDEX] succeeds, selects the clipped value,
    and gives the threshold adjustment of [check_for_trigger] a shift between
    0 and 4. *)
Theorem clipped_sensitivity_range_selects_valid_gain int_value disabled st :
  (forall min max,
      min <= max ->
      min <= SettingsParser.clip_to_int_range int_value min max <= max
      /\ (min <= int_value <= max ->
          SettingsParser.clip_to_int_range int_value min max = int_value)
      /\ (int_value < min -> SettingsParser.clip_to_int_range int_value min max = min)
      /\ (max < int_value -> SettingsParser.clip_to_int_range int_value min max = max))
  /\ exists st',
      Gain.gain_set
        (SettingsParser.clip_to_int_range int_value 0 Gain.GAIN_MAX_RANGE_INDEX)
        disabled (Gain.gain_init st) = Some st'
      /\ Gain.gain_get_range st'
         = SettingsParser.clip_to_int_range int_value 0 Gain.GAIN_MAX_RANGE_INDEX
      /\ 0 <= Trigger.shift_for_gain_of (Gain.gain_get_range st') <= 4.
Proof.
  split.
  - intros min max Hle. unfold SettingsParser.clip_to_int_range.
    destruct (Z.ltb_spec int_value min); [lia|].
    destruct (Z.ltb_spec max int_value); lia.
  - set (range := SettingsParser.clip_to_int_range int_value 0 Gain.GAIN_MAX_RANGE_INDEX).
    assert (Hr : 0 <= range <= Gain.GAIN_MAX_RANGE_INDEX).
    { unfold range, SettingsParser.clip_to_int_range, Gain.GAIN_MAX_RANGE_INDEX.
      destruct (Z.ltb_spec int_value 0); [lia|].
      destruct (Z.ltb_spec 4 int_value); lia. }
    assert (Hu16 : Int.to_uint16 range = range).
    { unfold Int.to_uint16, Int.to_unsigned. apply Z.mod_small.
      unfold Gain.GAIN_MAX_RANGE_INDEX in Hr. lia. }
    unfold Gain.gain_set. cbv zeta. cbn [Gain.s_logical_index]. rewrite Hu16.
    assert (Hshift : 0 <= Trigger.shift_for_gain_of range <= 4).
    { destruct (gain_index_cases range Hr) as [-> | [-> | [-> | [-> | ->]]]];
        vm_compute; split; discriminate. }
    destruct disabled.
    + eexists. split; [reflexivity|]. split; [reflexivity | exact Hshift].
    + rewrite set_gain_in_range by exact Hr.
      eexists. split; [reflexivity|]. split; [reflexivity | exact Hshift].
Qed.

(** ** The trigger flags parsed from the trigger string *)

Lemma words_scan_token s :
  forall current,
    current <> [] ->
    SettingsParser.words s current
    = (rev current ++ fst (SettingsParser.scan_token s))
      :: SettingsParser.words (snd (SettingsParser.scan_token s)) [].
Proof.
  induction s as [|c s IH]; intros current Hne;
    cbn [SettingsParser.words SettingsParser.scan_token].
  - destruct current; [contradiction|]. cbn [fst snd SettingsParser.words].
    rewrite app_nil_r. reflexivity.
  - destruct (SettingsParser.is_delimiter c).
    + destruct current; [contradiction|]. cbn [fst snd]. rewrite app_nil_r. reflexivity.
    + rewrite IH by discriminate.
      destruct (SettingsParser.scan_token s) as [token rest]. cbn [fst snd rev].
      rewrite <- app_assoc. reflexivity.
Qed.

Lemma scan_token_length s :
  (length (snd (SettingsParser.scan_token s)) <= length s)%nat.
Proof.
  induction s as [|c s IH]; cbn [SettingsParser.scan_token]; [cbn; lia|].
  destruct (SettingsParser.is_delimiter c); [cbn; lia|].
  destruct (SettingsParser.scan_token s). cbn [snd length] in *. lia.
Qed.

(** [strtok] yields the first word and goes on behind it. *)
Lemma strtok_words s :
  match SettingsParser.strtok s with
  | None => SettingsParser.words s [] = []
  | Some (token, rest) =>
      SettingsParser.words s [] = token :: SettingsParser.words rest []
      /\ (length rest < length s)%nat
  end.
Proof.
  unfold SettingsParser.strtok.
  induction s as [|c s IH]; cbn [SettingsParser.skip_delimiters SettingsParser.words];
    [reflexivity|].
  destruct (SettingsParser.is_delimiter c) eqn:Hc.
  - destruct (SettingsParser.skip_delimiters s) as [|c1 s1]; [exact IH|].
    destruct (SettingsParser.scan_token (c1 :: s1)) as [token rest].
    destruct IH as (Hw & Hl). split; [exact Hw | cbn [length]; lia].
  - cbn [SettingsParser.scan_token]. rewrite Hc.
    rewrite words_scan_token by discriminate.
    pose proof (scan_token_length s) as Hl.
    destruct (SettingsParser.scan_token s) as [token rest]. cbn [fst snd rev app] in *.
    split; [reflexivity | cbn [length]; lia].
Qed.

Lemma nth_insert_bool_ne (l : list bool) (i j : nat) (x : bool) :
  i <> j -> nth j (<[i := x]> l) false = nth j l false.
Proof.
  intros H. rewrite nth_insert_bool. destruct (Nat.eqb_spec i j); [contradiction|].
  reflexivity.
Qed.

Lemma flags_loop_spec fuel :
  forall s tokens_processed flags,
    (length s < fuel)%nat ->
    (tokens_processed <= Settings.MAX_TRIGGER_MATCH_CLAUSES)%nat ->
    length flags = Settings.MAX_TRIGGER_MATCH_CLAUSES ->
    let result :=
      SettingsParser.flags_loop fuel (SettingsParser.strtok s) tokens_processed flags in
    fst result
    = Nat.min Settings.MAX_TRIGGER_MATCH_CLAUSES
        (tokens_processed + length (SettingsParser.words s []))
    /\ length (snd result) = Settings.MAX_TRIGGER_MATCH_CLAUSES
    /\ forall i,
        nth i (snd result) false
        = if (tokens_processed <=? i)%nat && (i <? fst result)%nat
          then SettingsParser.stricmp_is_x
                 (nth (i - tokens_processed) (SettingsParser.words s []) [])
          else nth i flags false.
Proof.
  unfold Settings.MAX_TRIGGER_MATCH_CLAUSES.
  induction fuel as [|fuel IH]; intros s tp flags Hfuel Htp Hlen; [lia|].
  cbn [SettingsParser.flags_loop]. cbv zeta.
  unfold Settings.MAX_TRIGGER_MATCH_CLAUSES.
  pose proof (strtok_words s) as Hw.
  destruct (SettingsParser.strtok s) as [[token rest]|].
  - destruct Hw as (Hw & Hl). rewrite Hw. cbn [length].
    destruct (Nat.ltb_spec tp 16) as [Hlt | Hge]; cbv iota.
    + destruct (IH rest (S tp) (<[tp := SettingsParser.stricmp_is_x token]> flags))
        as (Hfst & Hlen' & Hnth); [lia | lia | rewrite length_insert; exact Hlen |].
      cbv zeta in *.
      split; [rewrite Hfst; lia|]. split; [exact Hlen'|].
      intros i. rewrite Hnth, Hfst.
      destruct (Nat.eq_dec i tp) as [-> | Hne].
      * destruct (Nat.leb_spec (S tp) tp); [lia|]. cbn [andb].
        rewrite nth_insert_bool, Nat.eqb_refl.
        destruct (Nat.ltb_spec tp (length flags)); [|lia].
        destruct (Nat.leb_spec tp tp); [|lia].
        destruct (Nat.ltb_spec tp
                    (Nat.min 16 (S tp + length (SettingsParser.words rest []))));
          [|lia].
        cbn [andb]. rewrite Nat.sub_diag. reflexivity.
      * rewrite nth_insert_bool_ne by lia.
        destruct (Nat.leb_spec (S tp) i), (Nat.leb_spec tp i); try lia;
          cbn [andb]; [|reflexivity].
        destruct (Nat.ltb_spec i
                    (Nat.min 16 (S tp + length (SettingsParser.words rest []))));
          [|reflexivity].
        replace (i - tp)%nat with (S (i - S tp)) by lia. reflexivity.
    + destruct (IH rest tp flags) as (Hfst & Hlen' & Hnth); [lia | lia | exact Hlen |].
      cbv zeta in *.
      split; [rewrite Hfst; lia|]. split; [exact Hlen'|].
      intros i. rewrite Hnth, Hfst.
      destruct (Nat.leb_spec tp i); cbn [andb]; [|reflexivity].
      destruct (Nat.ltb_spec i
                  (Nat.min 16 (tp + length (SettingsParser.words rest []))));
        [lia | reflexivity].
  - rewrite Hw. cbn [fst snd length].
    split; [lia|]. split; [exact Hlen|].
    intros i.
    destruct (Nat.leb_spec tp i), (Nat.ltb_spec i tp); cbn [andb]; try reflexivity; lia.
Qed.

Lemma clear_loop_spec n :
  forall i flags,
    length (SettingsParser.clear_loop n i flags) = length flags
    /\ forall j,
        nth j (SettingsParser.clear_loop n i flags) false
        = if (i <=? j)%nat && (j <? i + n)%nat then false else nth j flags false.
Proof.
  induction n as [|n IH]; intros i flags; cbn [SettingsParser.clear_loop].
  - split; [reflexivity|]. intros j.
    destruct (Nat.leb_spec i j), (Nat.ltb_spec j (i + 0)); cbn [andb];
      try reflexivity; lia.
  - destruct (IH (S i) (<[i := false]> flags)) as (Hl & Hnth).
    split; [rewrite Hl; apply length_insert|].
    intros j. rewrite Hnth, nth_insert_bool.
    destruct (Nat.leb_spec (S i) j), (Nat.leb_spec i j), (Nat.ltb_spec j (S i + n)),
      (Nat.ltb_spec j (i + S n)), (Nat.eqb_spec i j), (Nat.ltb_spec j (length flags));
      cbn [andb]; try reflexivity; try lia.
    all: rewrite nth_overflow by lia; reflexivity.
Qed.

(** X22.  The trigger flags follow the words of the trigger string.  Given the
    array of [MAX_TRIGGER_MATCH_CLAUSES] flags, [process_trigger_flags]
    leaves flag [i] set exactly when the string has an [i]-th word (a maximal
    run of characters other than space, tab and newline) and that word is
    [x] or [X]; flags beyond the words supplied are cleared, words beyond
    the sixteenth are ignored, and nothing of the former flags survives. *)
Theorem trigger_flags_follow_words trigger_string flags :
  length flags = Settings.MAX_TRIGGER_MATCH_CLAUSES ->
  length (SettingsParser.process_trigger_flags trigger_string flags)
  = Settings.MAX_TRIGGER_MATCH_CLAUSES
  /\ forall i,
      (i < Settings.MAX_TRIGGER_MATCH_CLAUSES)%nat ->
      nth i (SettingsParser.process_trigger_flags trigger_string flags) false
      = SettingsParser.stricmp_is_x (nth i (SettingsParser.words trigger_string []) []).
Proof.
  intros Hlen. unfold SettingsParser.process_trigger_flags.
  destruct (flags_loop_spec (S (length trigger_string)) trigger_string 0 flags)
    as (Hfst & Hlen' & Hnth);
    [lia | unfold Settings.MAX_TRIGGER_MATCH_CLAUSES; lia | exact Hlen |].
  cbv zeta in *.
  destruct (SettingsParser.flags_loop _ _ _ _) as [tp flags1].
  cbn [fst snd] in *.
  destruct (clear_loop_spec (Settings.MAX_TRIGGER_MATCH_CLAUSES - tp) tp flags1)
    as (Hl & Hclear).
  split; [rewrite Hl; exact Hlen'|].
  intros i Hi. rewrite Hclear, Hnth. cbn [Nat.leb andb]. rewrite Nat.sub_0_r.
  unfold Settings.MAX_TRIGGER_MATCH_CLAUSES in *.
  destruct (Nat.leb_spec tp i), (Nat.ltb_spec i (tp + (16 - tp))), (Nat.ltb_spec i tp);
    cbn [andb]; try reflexivity; try lia.
  rewrite (nth_overflow (SettingsParser.words trigger_string [])) by lia.
  reflexivity.
Qed.

Lemma trigger_flags_follow_words_witness :
  length (repeat true 16) = Settings.MAX_TRIGGER_MATCH_CLAUSES
  /\ length (SettingsParser.process_trigger_flags
               ["x"; " "; " "; "*"; "009"; "X"; "010"; "x"; "y"]%char (repeat true 16))
     = Settings.MAX_TRIGGER_MATCH_CLAUSES
  /\ forall i,
      (i < Settings.MAX_TRIGGER_MATCH_CLAUSES)%nat ->
      nth i (SettingsParser.process_trigger_flags
               ["x"; " "; " "; "*"; "009"; "X"; "010"; "x"; "y"]%char (repeat true 16)) false
      = SettingsParser.stricmp_is_x
          (nth i (SettingsParser.words ["x"; " "; " "; "*"; "009"; "X"; "010"; "x"; "y"]%char []) []).
Proof.
  split; [reflexivity|].
  apply (trigger_flags_follow_words ["x"; " "; " "; "*"; "009"; "X"; "010"; "x"; "y"]%char (repeat true 16)).
  reflexivity.
Defined.
